(** * Fintrid: fee reconciliation and tolerance evaluation

    A shallow embedding of the TypeScript engine of the Fintrid frontend:
    the tolerance evaluators ([evaluateZeroTolerance], [evaluateTenPercent],
    [evaluateUnlimited], [collectExceptions]), the raw-document transformer
    ([normalizeFee], the payer-split getters, the per-section merges) and the
    pre-matched transformer ([transformAIMatchedData]).

    Modelling conventions.
    - A JavaScript [number] is a finite IEEE 754 binary64 value, hence a
      rational ([Q]); numeric equality is [==].  The engine is given in two
      readings.  In the first one [+], [-], [*], [/] are the operations on
      the rationals, and a decimal literal or a stored amount is the fraction
      it writes: the engine over the real numbers, on which the statuses,
      flags, counts and memberships of the rows are related to each other.
      In the second one ([B64], [Zero64], [Ten64], [Unlimited64], [Page64])
      every operation returns the nearest binary64 value, as JavaScript
      does, and a decimal is read as the number it denotes: the statements
      on the value of a figure (a delta, a cure amount, an aggregate, a
      per-diem amount, the total difference, a count read from a label) are
      made on this reading.  [toFixed] works on the exact value of its
      argument in both.  The one place where the code meets an IEEE special
      value (a division by a rounded zero in [evaluateUnlimited]) is written
      out.
    - [undefined]/[null]/absent properties are [option].
    - A template literal is kept as the list of its chunks ([Text]), the
      interpolated numbers tagged with the formatting call of the source.
    - Labels are strings of 7-bit characters. *)

From Stdlib Require Import ZArith QArith Qabs Qround Qminmax Qpower Lia Lqa.
From Stdlib Require Import String Ascii List Bool.
From stdpp Require Import base gmap strings pretty.
Import ListNotations.

Local Open Scope Q_scope.

(** ** Numbers *)

Module Num.

(** [x < y] and [x <= y] as tests. *)
Definition ltb (x y : Q) : bool := negb (Qle_bool y x).
Definition leb (x y : Q) : bool := Qle_bool x y.

(** JavaScript truthiness of a number (no NaN in the model). *)
Definition truthy (x : Q) : bool := negb (Qeq_bool x 0).

(** [Number.prototype.toFixed(f)], the integer it prints: for [x < 0] the
    sign is split off first; then "let n be an integer for which
    n / 10^f - x is as close to zero as possible; if there are two such n,
    pick the larger n". *)
Definition nearest_larger (y : Q) : Z := Qfloor (y + (1 # 2)).

Definition pow10 (f : nat) : Z := (10 ^ Z.of_nat f)%Z.

Definition toFixed_units (f : nat) (x : Q) : Z :=
  if ltb x 0
  then (- nearest_larger (- x * inject_Z (pow10 f)))%Z
  else nearest_larger (x * inject_Z (pow10 f)).

(** [Math.round]: the nearest integer, ties towards +infinity. *)
Definition Math_round (x : Q) : Z := Qfloor (x + (1 # 2)).

(** [Math.max], [Math.abs]. *)
Definition Math_max (x y : Q) : Q := if ltb x y then y else x.
Definition Math_abs (x : Q) : Q := if ltb x 0 then - x else x.

End Num.

(** [const currency = (value: number) => Number(value.toFixed(2))] *)
Definition currency (value : Q) : Q := Num.toFixed_units 2 value # 100.

(** [toFixed(2)] prints "-0.00" for a negative value that rounds to zero, and
    [Number] reads it back as the IEEE negative zero. *)
Definition currency_is_negative_zero (value : Q) : bool :=
  Num.ltb value 0 && (Num.toFixed_units 2 value =? 0)%Z.

(** The quotient [deviation / expectedPerDiem] of [evaluateUnlimited] can
    have a zero divisor; IEEE division then yields an infinity or NaN, which
    the later comparison and formatting see. *)
Module Ieee.

Inductive t : Type :=
| Finite (q : Q)
| PosInfinity
| NegInfinity
| NaN.

(** [x / y], where [y_negzero] tells a zero [y] is the negative zero. *)
Definition div (x y : Q) (y_negzero : bool) : t :=
  if Qeq_bool y 0 then
    if Qeq_bool x 0 then NaN
    else if xorb (Num.ltb 0 x) y_negzero then PosInfinity else NegInfinity
  else Finite (x / y).

(** [e * k] for a positive finite [k]. *)
Definition scale (e : t) (k : Q) : t :=
  match e with
  | Finite q => Finite (q * k)
  | other => other
  end.

(** [e > k]. *)
Definition gtb (e : t) (k : Q) : bool :=
  match e with
  | Finite q => Num.ltb k q
  | PosInfinity => true
  | NegInfinity | NaN => false
  end.

End Ieee.

(** ** Binary64 arithmetic

    A JavaScript [number] is an IEEE 754 binary64 value.  Every finite one is
    a rational, and [+], [-], [*], [/] return the exact result rounded to
    the nearest binary64 value, ties to the even significand.  [B64.round]
    is that rounding on [Q].  It is also how a stored decimal is read: the
    amount [241142 # 1000] of a record stands for the number that the literal
    [241.142] denotes, [B64.round (241142 # 1000)].  Results stay below
    [2^1024] in magnitude (no overflow to [Infinity]); a result that
    underflows is the zero, whose sign no operation of the engine looks at
    except the division handled by [Ieee.div]. *)
Module B64.

(** Exponent of the least subnormal. *)
Definition emin : Z := (-1074)%Z.

(** [floor (log2 |x|)], for [x] other than zero. *)
Definition binade (x : Q) : Z :=
  let e0 := (Z.log2 (Z.abs (Qnum x)) - Z.log2 (Zpos (Qden x)))%Z in
  if Qle_bool (2 ^ e0) (Qabs x) then e0 else (e0 - 1)%Z.

(** Exponent of the unit in the last place of the 53-bit significand. *)
Definition ulp_exponent (x : Q) : Z := Z.max emin (binade x - 52).

(** The nearest integer, a tie going to the even one. *)
Definition nearest_even (y : Q) : Z :=
  let k := Qfloor y in
  match Qcompare (y - inject_Z k) (1 # 2) with
  | Lt => k
  | Gt => (k + 1)%Z
  | Eq => if Z.even k then k else (k + 1)%Z
  end.

Definition round (x : Q) : Q :=
  if Qeq_bool x 0 then 0
  else
    let e := ulp_exponent x in
    let m := nearest_even (Qabs x / 2 ^ e) in
    let v := Qred (inject_Z m * 2 ^ e) in
    if Qle_bool 0 x then v else - v.

(** The four operations, on numbers. *)
Definition add (x y : Q) : Q := round (x + y).
Definition sub (x y : Q) : Q := round (x - y).
Definition mul (x y : Q) : Q := round (x * y).
(** [x / y] for a divisor that is not zero. *)
Definition div (x y : Q) : Q := round (x / y).

(** [Number(value.toFixed(2))]: [toFixed] works on the exact value of the
    number, [Number] reads the decimal back as the nearest binary64. *)
Definition currency (value : Q) : Q := round (currency value).

(** [rows.reduce((sum, row) => sum + f(row), 0)] *)
Definition sum_of {T : Type} (f : T -> Q) (rows : list T) : Q :=
  fold_left (fun sum row => add sum (f row)) rows 0.

End B64.

(** ** Strings and regular expressions *)

Module Str.

Definition chars (s : string) : list ascii := list_ascii_of_string s.
Definition of_chars (l : list ascii) : string := string_of_list_ascii l.

Definition code (c : ascii) : nat := nat_of_ascii c.

(** [\s] (and the characters [trim] removes), [\d], line terminators, and
    the characters [\w] accepts, on 7-bit characters. *)
Definition is_space (c : ascii) : bool :=
  ((9 <=? code c) && (code c <=? 13)) || (code c =? 32).
Definition is_digit (c : ascii) : bool :=
  (48 <=? code c) && (code c <=? 57).
Definition is_upper (c : ascii) : bool :=
  (65 <=? code c) && (code c <=? 90).
Definition is_lower (c : ascii) : bool :=
  (97 <=? code c) && (code c <=? 122).
Definition is_line_terminator (c : ascii) : bool :=
  (code c =? 10) || (code c =? 13).
Definition is_word (c : ascii) : bool :=
  is_digit c || is_upper c || is_lower c || (code c =? 95).

Definition lower (c : ascii) : ascii :=
  if is_upper c then ascii_of_nat (code c + 32) else c.

Definition toLowerCase (s : string) : string :=
  of_chars (List.map lower (chars s)).

Fixpoint drop_spaces (l : list ascii) : list ascii :=
  match l with
  | c :: l' => if is_space c then drop_spaces l' else l
  | [] => []
  end.

Definition trim (s : string) : string :=
  of_chars (rev (drop_spaces (rev (drop_spaces (chars s))))).

(** [s.includes(sub)] *)
Fixpoint includes (s sub : string) : bool :=
  String.prefix sub s ||
  match s with
  | EmptyString => false
  | String _ s' => includes s' sub
  end.

(** A string is truthy when it is not empty. *)
Definition truthy (s : string) : bool :=
  match s with EmptyString => false | _ => true end.

(** [a || b] on possibly absent strings. *)
Definition or_else (a : option string) (b : option string) : option string :=
  match a with
  | Some s => if truthy s then a else b
  | None => b
  end.

(** Decimal digits of a natural number, as [`${index}`] prints them. *)
Definition of_nat (n : nat) : string := pretty n.

End Str.

(** Regular expressions by derivatives.  Every pattern of the source is such
    that, at a given start, JavaScript's backtracking search and the longest
    match agree (each repetition is followed by a character outside its
    class, or runs to the end of the input). *)
Module Re.

Inductive t : Type :=
| Void
| Eps
| Chr (p : ascii -> bool)
| Seq (a b : t)
| Alt (a b : t)
| Star (a : t).

Definition Plus (a : t) : t := Seq a (Star a).
Definition Opt (a : t) : t := Alt a Eps.

(** A literal, compared case-insensitively (flag [i]). *)
Fixpoint lit_i (l : list ascii) : t :=
  match l with
  | [] => Eps
  | c :: l' => Seq (Chr (fun x => Ascii.eqb (Str.lower x) (Str.lower c))) (lit_i l')
  end.

Definition space : t := Chr Str.is_space.
Definition digit : t := Chr Str.is_digit.
(** [.] *)
Definition dot : t := Chr (fun c => negb (Str.is_line_terminator c)).

Fixpoint nullable (r : t) : bool :=
  match r with
  | Void => false
  | Eps => true
  | Chr _ => false
  | Seq a b => nullable a && nullable b
  | Alt a b => nullable a || nullable b
  | Star _ => true
  end.

Definition seq (a b : t) : t :=
  match a, b with
  | Void, _ => Void
  | _, Void => Void
  | Eps, _ => b
  | _, _ => Seq a b
  end.

Definition alt (a b : t) : t :=
  match a, b with
  | Void, _ => b
  | _, Void => a
  | _, _ => Alt a b
  end.

Fixpoint deriv (c : ascii) (r : t) : t :=
  match r with
  | Void => Void
  | Eps => Void
  | Chr p => if p c then Eps else Void
  | Seq a b =>
      alt (seq (deriv c a) b) (if nullable a then deriv c b else Void)
  | Alt a b => alt (deriv c a) (deriv c b)
  | Star a => seq (deriv c a) (Star a)
  end.

(** The whole input matches. *)
Fixpoint matches (r : t) (s : list ascii) : bool :=
  match s with
  | [] => nullable r
  | c :: s' => matches (deriv c r) s'
  end.

(** Length of the longest prefix of the input that matches. *)
Fixpoint longest (r : t) (s : list ascii) : option nat :=
  match s with
  | [] => if nullable r then Some 0%nat else None
  | c :: s' =>
      match longest (deriv c r) s' with
      | Some n => Some (S n)
      | None => if nullable r then Some 0%nat else None
      end
  end.

(** [s.replace(/^r/, repl)] *)
Definition replace_at_start (r : t) (repl : list ascii) (s : list ascii)
  : list ascii :=
  match longest r s with
  | Some n => repl ++ skipn n s
  | None => s
  end.

(** [s.replace(/r$/, repl)] for a pattern whose match, from the leftmost
    start that has one, runs to the end of the input. *)
Fixpoint replace_to_end (r : t) (repl : list ascii) (s : list ascii)
  : list ascii :=
  if matches r s then repl
  else match s with
       | [] => []
       | c :: s' => c :: replace_to_end r repl s'
       end.

(** [s.replace(/r/g, repl)] for a pattern that matches no empty string;
    [skip] counts the characters of the current match still to pass. *)
Fixpoint replace_all_from (r : t) (repl : list ascii) (skip : nat)
  (s : list ascii) : list ascii :=
  match s with
  | [] => []
  | c :: s' =>
      match skip with
      | S k => replace_all_from r repl k s'
      | O =>
          match longest r s with
          | Some (S n) => repl ++ replace_all_from r repl n s'
          | _ => c :: replace_all_from r repl 0 s'
          end
      end
  end.

Definition replace_all (r : t) (repl : list ascii) (s : list ascii)
  : list ascii := replace_all_from r repl 0 s.

End Re.

(** ** Data model ([types/trid.ts], [types/backend.ts]) *)

(** A template literal: its literal chunks and its interpolated values, each
    with the conversion the source applies to it. *)
Inductive Chunk : Type :=
| Lit (s : string)                    (* literal text, or a string value *)
| Fixed (digits : nat) (x : Q)        (* [x.toFixed(digits)] *)
| FixedIeee (digits : nat) (x : Ieee.t)
| Usd (x : Q)                         (* [formatUSD(x)] *)
| Plain (x : Q)                       (* [`${x}`] of a number *)
| Whole (z : Z).                      (* [`${z}`] of an integer *)

Definition Text : Type := list Chunk.

Inductive RowStatus : Type := PASS | FAIL | REVIEW.

Inductive ToleranceFlag : Type :=
| ZERO_LINE_OVERAGE
| SECTION_PLACEMENT_MISMATCH
| PROVIDER_OFF_LIST
| LOW_CONFIDENCE
| OFF_LIST_EXCLUDED
| PER_DIEM_OUTLIER
| ESCROW_CUSHION_EXCEEDED
| OPTIONALITY_MISMATCH
| CURED_BY_LENDER
| PER_DIEM_INTEREST_DEVIATION.

Inductive Severity : Type := error | warning.

Inductive GroupStatus : Type := GROUP_PASS | OVER.

Definition RowStatus_eqb (a b : RowStatus) : bool :=
  match a, b with
  | PASS, PASS | FAIL, FAIL | REVIEW, REVIEW => true
  | _, _ => false
  end.

Definition ToleranceFlag_eqb (a b : ToleranceFlag) : bool :=
  match a, b with
  | ZERO_LINE_OVERAGE, ZERO_LINE_OVERAGE
  | SECTION_PLACEMENT_MISMATCH, SECTION_PLACEMENT_MISMATCH
  | PROVIDER_OFF_LIST, PROVIDER_OFF_LIST
  | LOW_CONFIDENCE, LOW_CONFIDENCE
  | OFF_LIST_EXCLUDED, OFF_LIST_EXCLUDED
  | PER_DIEM_OUTLIER, PER_DIEM_OUTLIER
  | ESCROW_CUSHION_EXCEEDED, ESCROW_CUSHION_EXCEEDED
  | OPTIONALITY_MISMATCH, OPTIONALITY_MISMATCH
  | CURED_BY_LENDER, CURED_BY_LENDER
  | PER_DIEM_INTEREST_DEVIATION, PER_DIEM_INTEREST_DEVIATION => true
  | _, _ => false
  end.

Record PayerSplit : Type := {
  borrower : Q;
  seller : option Q;
  other : option Q;
}.

Record FlagDetail : Type := {
  code : ToleranceFlag;
  label : Text;
  severity : Severity;
  details : option string;
}.

(** [bucket: "A" | "B"], the second argument of [evaluateZeroTolerance]. *)
Inductive ZeroBucket : Type := BucketA | BucketB.

Record RuleOptions : Type := {
  zeroThreshold : option Q;
  reviewConfidenceFloor : option Q;
  reviewConfidenceCeil : option Q;
  lenderCredits : option Q;
}.

(** [Required<RuleOptions>] *)
Record Config : Type := {
  cfg_zeroThreshold : Q;
  cfg_reviewConfidenceFloor : Q;
  cfg_reviewConfidenceCeil : Q;
  cfg_lenderCredits : Q;
}.

Definition DEFAULTS : Config := {|
  cfg_zeroThreshold := 1;
  cfg_reviewConfidenceFloor := 8 # 10;
  cfg_reviewConfidenceCeil := 93 # 100;
  cfg_lenderCredits := 0;
|}.

(** [{ ...DEFAULTS, ...options }] *)
Definition spread_options (options : option RuleOptions) : Config :=
  match options with
  | None => DEFAULTS
  | Some o => {|
      cfg_zeroThreshold :=
        default (cfg_zeroThreshold DEFAULTS) (zeroThreshold o);
      cfg_reviewConfidenceFloor :=
        default (cfg_reviewConfidenceFloor DEFAULTS) (reviewConfidenceFloor o);
      cfg_reviewConfidenceCeil :=
        default (cfg_reviewConfidenceCeil DEFAULTS) (reviewConfidenceCeil o);
      cfg_lenderCredits :=
        default (cfg_lenderCredits DEFAULTS) (lenderCredits o);
    |}
  end.

(** Optional chaining, [x?.f]. *)
Definition chain {X Y : Type} (x : option X) (f : X -> option Y) : option Y :=
  match x with
  | Some v => f v
  | None => None
  end.

(** [x || 0] on a number. *)
Definition or_zero (x : Q) : Q := if Num.truthy x then x else 0.

Definition borrowerDelta (le cd : PayerSplit) : Q :=
  currency (borrower cd - borrower le).

Definition buildFlag (code : ToleranceFlag) (label : Text)
  (severity : Severity) (details : option string) : FlagDetail :=
  {| code := code; label := label; severity := severity; details := details |}.

Definition has_flag (c : ToleranceFlag) (flags : list FlagDetail) : bool :=
  existsb (fun f => ToleranceFlag_eqb (code f) c) flags.

(** [flags.push(f)] under a condition. *)
Definition push_if (cond : bool) (f : FlagDetail) (flags : list FlagDetail)
  : list FlagDetail :=
  if cond then flags ++ [f] else flags.

(** [rows.reduce((sum, row) => sum + f(row), 0)] *)
Definition sum_of {T : Type} (f : T -> Q) (rows : list T) : Q :=
  fold_left (fun sum row => sum + f row) rows 0.

(** ** Zero tolerance ([evaluateZeroTolerance]) *)

Module Zero.

Record Fee : Type := {
  id : string;
  fee : string;
  permittedToShop : option bool;
  le : PayerSplit;
  cd : PayerSplit;
  changeReason : Text;
}.

(** [ZeroToleranceDisplayRow extends ZeroToleranceFee]; [base] is the
    spread [...row]. *)
Record DisplayRow : Type := {
  base : Fee;
  delta : Q;
  status : RowStatus;
  flags : list FlagDetail;
  cureAmount : Q;
}.

Record Result : Type := {
  rows : list DisplayRow;
  subtotalLE : Q;
  subtotalCD : Q;
  passCount : nat;
  failCount : nat;
  reviewCount : nat;
  totalCure : Q;          (* the result's own [cureAmount] *)
}.

Definition overage_flag (delta threshold : Q) : FlagDetail :=
  buildFlag ZERO_LINE_OVERAGE
    [Lit "Borrower owes $"; Fixed 2 (delta - threshold);
     Lit " over zero tolerance"]
    error None.

Definition placement_flag : FlagDetail :=
  buildFlag SECTION_PLACEMENT_MISMATCH
    [Lit "Fee marked permitted-to-shop but placed in zero bucket"]
    warning None.

Definition cured_flag (lenderCredits : Q) : FlagDetail :=
  buildFlag CURED_BY_LENDER
    [Lit "Overage offset by lender credit ($"; Fixed 2 lenderCredits;
     Lit ")"]
    warning None.

(** [bucket === "B" && row.permittedToShop] *)
Definition misplaced (bucket : ZeroBucket) (row : Fee) : bool :=
  match bucket with
  | BucketB => default false (permittedToShop row)
  | BucketA => false
  end.

(** The callback of [rows.map]. *)
Definition evaluate_row (bucket : ZeroBucket) (config : Config) (row : Fee)
  : DisplayRow :=
  let delta := borrowerDelta (le row) (cd row) in
  let over := Num.ltb (cfg_zeroThreshold config) delta in
  let status0 := if over then FAIL else PASS in
  let flags0 :=
    push_if over (overage_flag delta (cfg_zeroThreshold config)) [] in
  let flags1 := push_if (misplaced bucket row) placement_flag flags0 in
  let status1 :=
    if misplaced bucket row && RowStatus_eqb status0 PASS
    then REVIEW else status0 in
  let cureAmount :=
    if RowStatus_eqb status1 FAIL
    then currency (delta - cfg_zeroThreshold config) else 0 in
  {| base := row; delta := delta; status := status1; flags := flags1;
     cureAmount := cureAmount |}.

(** The callback of [evaluated.forEach] in the lender-credit block. *)
Definition cure_row (lenderCredits totalCureNeeded : Q) (row : DisplayRow)
  : DisplayRow :=
  if Num.ltb 0 (cureAmount row) && Num.leb totalCureNeeded lenderCredits
  then {| base := base row; delta := delta row; status := status row;
          flags := flags row ++ [cured_flag lenderCredits];
          cureAmount := cureAmount row |}
  else row.

Definition count_status (s : RowStatus) (rows : list DisplayRow) : nat :=
  length (List.filter (fun row => RowStatus_eqb (status row) s) rows).

Definition evaluateZeroTolerance (rows : list Fee) (bucket : ZeroBucket)
  (options : option RuleOptions) : Result :=
  let config := spread_options options in
  let lenderCredits := or_zero (cfg_lenderCredits config) in
  let evaluated := List.map (evaluate_row bucket config) rows in
  let totalCureNeeded := currency (sum_of cureAmount evaluated) in
  let evaluated :=
    if Num.ltb 0 lenderCredits && Num.ltb 0 totalCureNeeded
    then List.map (cure_row lenderCredits totalCureNeeded) evaluated
    else evaluated in
  {| rows := evaluated;
     subtotalLE := currency (sum_of (fun row => borrower (le (base row))) evaluated);
     subtotalCD := currency (sum_of (fun row => borrower (cd (base row))) evaluated);
     passCount := count_status PASS evaluated;
     failCount := count_status FAIL evaluated;
     reviewCount := count_status REVIEW evaluated;
     totalCure := currency (sum_of cureAmount evaluated) |}.

End Zero.

(** ** Ten-percent aggregate ([evaluateTenPercent]) *)

Module Ten.

Record Fee : Type := {
  id : string;
  fee : string;
  provider : string;
  providerType : string;           (* "C" | "E" *)
  whitelistConfidence : Q;
  onWhitelist : bool;
  matchConfidence : Q;
  le : PayerSplit;
  cd : PayerSplit;
  changeReason : Text;
  isRecording : option bool;
}.

Record DisplayRow : Type := {
  base : Fee;
  delta : Q;
  status : RowStatus;
  flags : list FlagDetail;
  effectiveOnWhitelist : bool;
  inTenGroup : bool;
}.

Record Result : Type := {
  rows : list DisplayRow;
  leBase : Q;
  cdTotal : Q;
  allowedMax : Q;
  overage : Q;
  group_status : GroupStatus;      (* the result's own [status] *)
}.

Record Override : Type := { includeInGroup : option bool }.

(** [TenPercentOverrideMap = Record<string, { includeInGroup?: boolean }>] *)
Abbreviation OverrideMap := (gmap string Override).

Definition off_list_flag : FlagDetail :=
  buildFlag PROVIDER_OFF_LIST
    [Lit "Provider chosen off-list; unlimited tolerance"] warning None.

Definition low_confidence_flag (matchConfidence : Q) : FlagDetail :=
  buildFlag LOW_CONFIDENCE
    [Lit "Match confidence ";
     Whole (Num.Math_round (matchConfidence * 100));
     Lit "% - Review"]
    warning None.

Definition cured_flag (lenderCredits : Q) : FlagDetail :=
  buildFlag CURED_BY_LENDER
    [Lit "10% overage offset by lender credit ($"; Fixed 2 lenderCredits;
     Lit ")"]
    warning None.

(** [row.providerType === "E" || Boolean(row.isRecording)] *)
Definition recording (row : Fee) : bool :=
  String.eqb (providerType row) "E" || default false (isRecording row).

(** [typeof override?.includeInGroup === "boolean"
      ? override.includeInGroup : row.onWhitelist] *)
Definition effective (overrides : OverrideMap) (row : Fee) : bool :=
  match overrides !! id row with
  | Some {| includeInGroup := Some b |} => b
  | _ => onWhitelist row
  end.

(** The callback of [rows.map]. *)
Definition evaluate_row (overrides : OverrideMap) (config : Config)
  (row : Fee) : DisplayRow :=
  let delta := borrowerDelta (le row) (cd row) in
  let isRecording := recording row in
  let effectiveOnWhitelist := effective overrides row in
  let isLowConfidence :=
    Num.ltb (matchConfidence row) (cfg_reviewConfidenceFloor config) in
  let needsReview :=
    Num.leb (cfg_reviewConfidenceFloor config) (matchConfidence row) &&
    Num.ltb (matchConfidence row) (cfg_reviewConfidenceCeil config) in
  let flags0 :=
    push_if (negb effectiveOnWhitelist && negb isRecording &&
             negb needsReview && negb isLowConfidence)
      off_list_flag [] in
  let flags1 :=
    push_if needsReview (low_confidence_flag (matchConfidence row)) flags0 in
  let inTenGroup :=
    (effectiveOnWhitelist || isRecording) && negb isLowConfidence in
  let status :=
    if isLowConfidence || needsReview then REVIEW
    else if negb effectiveOnWhitelist && negb isRecording then REVIEW
    else PASS in
  {| base := row; delta := delta; status := status; flags := flags1;
     effectiveOnWhitelist := effectiveOnWhitelist;
     inTenGroup := inTenGroup |}.

(** The callback of [evaluated.forEach] in the lender-credit block. *)
Definition cure_row (lenderCredits : Q) (row : DisplayRow) : DisplayRow :=
  if inTenGroup row && Num.ltb 0 (delta row)
  then {| base := base row; delta := delta row; status := status row;
          flags := flags row ++ [cured_flag lenderCredits];
          effectiveOnWhitelist := effectiveOnWhitelist row;
          inTenGroup := inTenGroup row |}
  else row.

Definition evaluateTenPercent (rows : list Fee) (overrides : OverrideMap)
  (options : option RuleOptions) : Result :=
  let config := spread_options options in
  let evaluated := List.map (evaluate_row overrides config) rows in
  let eligibleRows := List.filter inTenGroup evaluated in
  let leBase :=
    currency (sum_of (fun row => borrower (le (base row))) eligibleRows) in
  let cdTotal :=
    currency (sum_of (fun row => borrower (cd (base row))) eligibleRows) in
  let allowedMax := currency (leBase * (11 # 10)) in
  let overage := currency (Num.Math_max 0 (cdTotal - allowedMax)) in
  let status := if Num.ltb 0 overage then OVER else GROUP_PASS in
  let lenderCredits := or_zero (cfg_lenderCredits config) in
  let evaluated :=
    if Num.ltb 0 overage && Num.leb overage lenderCredits
    then List.map (cure_row lenderCredits) evaluated
    else evaluated in
  {| rows := evaluated; leBase := leBase; cdTotal := cdTotal;
     allowedMax := allowedMax; overage := overage;
     group_status := status |}.

End Ten.

(** ** Unlimited tolerance ([evaluateUnlimited]) *)

Module Unlimited.

Record Fee : Type := {
  id : string;
  bucket : string;                 (* "F" | "G" | "H" *)
  fee : string;
  le : PayerSplit;
  cd : PayerSplit;
  changeReason : Text;
  perDiemDays : option Q;
  escrowMonths : option Q;
  isOptional : option bool;
  lenderRequired : option bool;
  loanAmount : option Q;
  interestRate : option Q;
}.

Record DisplayRow : Type := {
  base : Fee;
  delta : Q;
  status : RowStatus;
  flags : list FlagDetail;
}.

(** A possibly absent number that is present and not zero. *)
Definition truthy (x : option Q) : bool :=
  match x with Some v => Num.truthy v | None => false end.

(** [x > k] on a possibly absent number ([undefined > k] is false). *)
Definition exceeds (x : option Q) (k : Q) : bool :=
  match x with Some v => Num.ltb k v | None => false end.

(** [(loanAmount * interestRate / 100 / 365) * perDiemDays], before
    [currency] rounds it. *)
Definition per_diem_interest (loanAmount interestRate perDiemDays : Q) : Q :=
  (loanAmount * interestRate / 100 / 365) * perDiemDays.

Definition expected_per_diem (row : Fee) : Q :=
  currency (per_diem_interest (default 0 (loanAmount row))
              (default 0 (interestRate row)) (default 0 (perDiemDays row))).

(** [(deviation / expectedPerDiem) * 100] *)
Definition deviation_percent (row : Fee) : Ieee.t :=
  let raw := per_diem_interest (default 0 (loanAmount row))
               (default 0 (interestRate row)) (default 0 (perDiemDays row)) in
  let expectedPerDiem := currency raw in
  let deviation := Num.Math_abs (borrower (cd row) - expectedPerDiem) in
  Ieee.scale
    (Ieee.div deviation expectedPerDiem (currency_is_negative_zero raw)) 100.

(** The guard of the per-diem interest check. *)
Definition per_diem_checked (row : Fee) : bool :=
  String.eqb (bucket row) "F" && truthy (perDiemDays row) &&
  truthy (loanAmount row) && truthy (interestRate row) &&
  Num.ltb 0 (borrower (cd row)).

Definition outlier_flag (days : Q) : FlagDetail :=
  buildFlag PER_DIEM_OUTLIER [Plain days; Lit " per-diem days recorded"]
    warning None.

Definition deviation_flag (row : Fee) : FlagDetail :=
  buildFlag PER_DIEM_INTEREST_DEVIATION
    [Lit "Expected "; Usd (expected_per_diem row);
     Lit ", actual "; Usd (borrower (cd row));
     Lit " ("; FixedIeee 1 (deviation_percent row); Lit "% deviation)"]
    warning None.

Definition escrow_flag (months : Q) : FlagDetail :=
  buildFlag ESCROW_CUSHION_EXCEEDED
    [Plain months; Lit " months collected (max 2 permitted)"]
    warning None.

Definition optionality_flag : FlagDetail :=
  buildFlag OPTIONALITY_MISMATCH
    [Lit "Disclosed optional item appears lender-required"] warning None.

(** The callback of [rows.map]. *)
Definition evaluate_row (row : Fee) : DisplayRow :=
  let delta := borrowerDelta (le row) (cd row) in
  let flags0 :=
    push_if (String.eqb (bucket row) "F" && truthy (perDiemDays row) &&
             exceeds (perDiemDays row) 15)
      (outlier_flag (default 0 (perDiemDays row))) [] in
  let flags1 :=
    push_if (per_diem_checked row &&
             Ieee.gtb (deviation_percent row) 10)
      (deviation_flag row) flags0 in
  let flags2 :=
    push_if (String.eqb (bucket row) "G" && truthy (escrowMonths row) &&
             exceeds (escrowMonths row) 2)
      (escrow_flag (default 0 (escrowMonths row))) flags1 in
  let flags3 :=
    push_if (String.eqb (bucket row) "H" &&
             default false (lenderRequired row) &&
             negb (default false (isOptional row)))
      optionality_flag flags2 in
  let status := if (0 <? length flags3)%nat then REVIEW else PASS in
  {| base := row; delta := delta; status := status; flags := flags3 |}.

Definition evaluateUnlimited (rows : list Fee) : list DisplayRow :=
  List.map evaluate_row rows.

End Unlimited.

(** ** Exceptions ([collectExceptions]) *)

Record ExceptionEntry : Type := {
  exc_id : string;
  exc_section : string;            (* "A" | "B" | "C+E" | "F" | "G" | "H" *)
  exc_fee : string;
  exc_message : Text;
  exc_severity : Severity;
  exc_amount : option Q;
}.

(** [row.flags.forEach((flag) => entries.push({ ... }))] for one row. *)
Definition flag_entries (section : string) (id fee : string) (delta : Q)
  (flags : list FlagDetail) : list ExceptionEntry :=
  List.map (fun flag =>
    {| exc_id := id; exc_section := section; exc_fee := fee;
       exc_message := label flag; exc_severity := severity flag;
       exc_amount := Some delta |}) flags.

Definition overage_entry (overage : Q) : ExceptionEntry :=
  {| exc_id := "ten-percent-overage"; exc_section := "C+E";
     exc_fee := "10% Aggregated";
     exc_message := [Lit "Exceeded by $"; Fixed 2 overage];
     exc_severity := error; exc_amount := Some overage |}.

Definition collectExceptions (a b : Zero.Result) (ten : Ten.Result)
  (unlimited : list Unlimited.DisplayRow) : list ExceptionEntry :=
  let zero_flags section (r : Zero.Result) :=
    flat_map (fun row =>
      flag_entries section (Zero.id (Zero.base row)) (Zero.fee (Zero.base row))
        (Zero.delta row) (Zero.flags row)) (Zero.rows r) in
  zero_flags "A" a ++
  zero_flags "B" b ++
  flat_map (fun row =>
    flag_entries "C+E" (Ten.id (Ten.base row)) (Ten.fee (Ten.base row))
      (Ten.delta row) (Ten.flags row)) (Ten.rows ten) ++
  flat_map (fun row =>
    flag_entries (Unlimited.bucket (Unlimited.base row))
      (Unlimited.id (Unlimited.base row)) (Unlimited.fee (Unlimited.base row))
      (Unlimited.delta row) (Unlimited.flags row)) unlimited ++
  (if Num.ltb 0 (Ten.overage ten) then [overage_entry (Ten.overage ten)] else []).

(** ** Backend records ([types/backend.ts]), the fields the engine reads *)

Module Backend.

Inductive SubLabel : Type :=
| borrower_paid_at_closing
| borrower_paid_before_closing
| seller_paid_at_closing
| seller_paid_before_closing
| paid_by_others.

Inductive Payer : Type := payer_borrower | payer_seller | payer_other.

Inductive Timing : Type := at_closing | before_closing | timing_na.

Definition SubLabel_text (s : SubLabel) : string :=
  match s with
  | borrower_paid_at_closing => "borrower_paid_at_closing"
  | borrower_paid_before_closing => "borrower_paid_before_closing"
  | seller_paid_at_closing => "seller_paid_at_closing"
  | seller_paid_before_closing => "seller_paid_before_closing"
  | paid_by_others => "paid_by_others"
  end.

Definition Payer_eqb (a b : Payer) : bool :=
  match a, b with
  | payer_borrower, payer_borrower
  | payer_seller, payer_seller
  | payer_other, payer_other => true
  | _, _ => false
  end.

Record LineItem : Type := {
  label : option string;
  amount : option Q;
  sub_label : option SubLabel;
  payer : option Payer;
  timing : option Timing;
}.

Record SectionWithItems : Type := {
  section_label : option string;
  total : option Q;
  items : option (list LineItem);
}.

Record LoanCosts : Type := {
  A : option SectionWithItems;
  B : option SectionWithItems;
  C : option SectionWithItems;
  D_total : option Q;
}.

Record OtherCosts : Type := {
  E : option SectionWithItems;
  F : option SectionWithItems;
  G : option SectionWithItems;
  H : option SectionWithItems;
  I_total : option Q;
  J_total : option Q;
  lender_credits : option Q;
}.

Record ClosingCostDetails : Type := {
  loan_costs : option LoanCosts;
  other_costs : option OtherCosts;
}.

Record LoanTerms : Type := {
  loan_amount : option Q;
  interest_rate_pct : option Q;
  monthly_principal_interest : option Q;
}.

Record LoanEstimateRecord : Type := {
  loan_terms : option LoanTerms;
  closing_cost_details : option ClosingCostDetails;
}.

(** ["zero" | "ten_percent" | "unlimited"] *)
Inductive ToleranceCategory : Type :=
| cat_zero
| cat_ten_percent
| cat_unlimited.

Record MatchedFee : Type := {
  fee_name : string;
  section : string;
  le_amount : option Q;
  cd_amount : option Q;
  le_label : option string;
  cd_label : option string;
  match_confidence : Q;
  tolerance_category : ToleranceCategory;
  provider_name : option string;
  is_new : bool;
}.

Record TRIDComparison : Type := {
  matched_fees : option (list MatchedFee);
}.

(** [data?.closing_cost_details?.loan_costs?.X?.items || []] *)
Definition loan_cost_items (pick : LoanCosts -> option SectionWithItems)
  (data : option LoanEstimateRecord) : list LineItem :=
  default []
    (chain (chain (chain (chain data closing_cost_details) loan_costs) pick) items).

(** [data?.closing_cost_details?.other_costs?.X?.items || []] *)
Definition other_cost_items (pick : OtherCosts -> option SectionWithItems)
  (data : option LoanEstimateRecord) : list LineItem :=
  default []
    (chain (chain (chain (chain data closing_cost_details) other_costs) pick) items).

End Backend.

(** A JavaScript [Map] with string keys: entries in insertion order; [set] on
    a key already present keeps its place. *)
Module JsMap.

Definition t (V : Type) : Type := list (string * V).

Definition empty {V : Type} : t V := [].

Fixpoint get {V : Type} (m : t V) (k : string) : option V :=
  match m with
  | [] => None
  | (k', v) :: m' => if String.eqb k' k then Some v else get m' k
  end.

Fixpoint set {V : Type} (m : t V) (k : string) (v : V) : t V :=
  match m with
  | [] => [(k, v)]
  | (k', v') :: m' =>
      if String.eqb k' k then (k', v) :: m' else (k', v') :: set m' k v
  end.

Definition keys {V : Type} (m : t V) : list string := List.map fst m.

End JsMap.

(** ** The raw-document transformer ([lib/trid-transformer]) *)

Module Transformer.
Import Backend.

(** [/^[\d]+[\s\.\-]+/] *)
Definition re_index_prefix : Re.t :=
  Re.Seq (Re.Plus Re.digit)
    (Re.Plus (Re.Chr (fun c =>
       Str.is_space c || Ascii.eqb c "." || Ascii.eqb c "-"))).

(** [/\s+to\s+.+$/i], without its end anchor. *)
Definition re_to_clause : Re.t :=
  Re.Seq (Re.Plus Re.space)
    (Re.Seq (Re.lit_i (Str.chars "to"))
       (Re.Seq (Re.Plus Re.space) (Re.Plus Re.dot))).

Definition normalizeFee (label : option string) : string :=
  match label with
  | None => EmptyString
  | Some label =>
      if Str.truthy label then
        let normalized :=
          Re.replace_at_start re_index_prefix [] (Str.chars label) in
        let normalized := Re.replace_to_end re_to_clause [] normalized in
        let normalized :=
          Str.toLowerCase (Str.trim (Str.of_chars normalized)) in
        Str.of_chars
          (Re.replace_all (Re.Plus Re.space) (Str.chars " ")
             (Str.chars normalized))
      else EmptyString
  end.

(** [item.sub_label?.includes(word)] *)
Definition sub_label_includes (item : LineItem) (word : string) : bool :=
  match sub_label item with
  | Some s => Str.includes (SubLabel_text s) word
  | None => false
  end.

Definition payer_is (item : LineItem) (p : Payer) : bool :=
  match payer item with
  | Some q => Payer_eqb q p
  | None => false
  end.

Definition getBorrowerAmount (item : option LineItem) : Q :=
  match item with
  | None => 0
  | Some item =>
      match amount item with
      | None => 0
      | Some amount =>
          if payer_is item payer_borrower then amount
          else if sub_label_includes item "borrower" then amount
          else amount
      end
  end.

Definition getSellerAmount (item : option LineItem) : Q :=
  match item with
  | None => 0
  | Some item =>
      match amount item with
      | None => 0
      | Some amount =>
          if payer_is item payer_seller || sub_label_includes item "seller"
          then amount else 0
      end
  end.

Definition getOtherAmount (item : option LineItem) : Q :=
  match item with
  | None => 0
  | Some item =>
      match amount item with
      | None => 0
      | Some amount =>
          if payer_is item payer_other || sub_label_includes item "others"
          then amount else 0
      end
  end.

(** [x || undefined] on a number. *)
Definition or_undefined (x : Q) : option Q :=
  if Num.truthy x then Some x else None.

Definition split_of (item : option LineItem) : PayerSplit :=
  {| borrower := getBorrowerAmount item;
     seller := or_undefined (getSellerAmount item);
     other := or_undefined (getOtherAmount item) |}.

(** The integer that a run of decimal digits writes. *)
Definition parse_digits (ds : list ascii) : Z :=
  fold_left (fun acc d => (10 * acc + Z.of_nat (Str.code d - 48))%Z) ds 0%Z.

(** [parseInt(digits, 10)] on a run of digits: the number nearest to the
    integer that the digits write, which is that integer up to [2^53]. *)
Definition parseInt (ds : list ascii) : Q :=
  B64.round (inject_Z (parse_digits ds)).

Fixpoint take_digits (s : list ascii) : list ascii :=
  match s with
  | c :: s' => if Str.is_digit c then c :: take_digits s' else []
  | [] => []
  end.

(** [s.match(/(\d+)rest/i)], group 1 of the leftmost match; no pattern
    [rest] of the source starts with a digit, so group 1 is the whole run
    of digits from the start of the match. *)
Fixpoint leading_number (rest : Re.t) (s : list ascii) : option Q :=
  match s with
  | [] => None
  | _ :: s' =>
      match Re.longest (Re.Seq (Re.Plus Re.digit) rest) s with
      | Some _ => Some (parseInt (take_digits s))
      | None => leading_number rest s'
      end
  end.

(** [/(\d+)\s*(?:day|per.?diem)/i] after the digits. *)
Definition re_per_diem_unit : Re.t :=
  Re.Seq (Re.Star Re.space)
    (Re.Alt (Re.lit_i (Str.chars "day"))
       (Re.Seq (Re.lit_i (Str.chars "per"))
          (Re.Seq (Re.Opt Re.dot) (Re.lit_i (Str.chars "diem"))))).

(** [/(\d+)\s*month/i] after the digits. *)
Definition re_month_unit : Re.t :=
  Re.Seq (Re.Star Re.space) (Re.lit_i (Str.chars "month")).

Definition extractPerDiem (feeName : string) : option Q :=
  leading_number re_per_diem_unit (Str.chars feeName).

Definition extractEscrowMonths (feeName : string) : option Q :=
  leading_number re_month_unit (Str.chars feeName).

(** An item has a label when [if (item.label)] holds. *)
Definition labelled (item : LineItem) : option string :=
  match label item with
  | Some l => if Str.truthy l then Some l else None
  | None => None
  end.

(** *** Sections A and B *)

Record Entry : Type := {
  e_le : option LineItem;
  e_cd : option LineItem;
  displayLabel : string;
}.

(** The callback of [leItems.forEach]. *)
Definition insert_le (itemMap : JsMap.t Entry) (item : LineItem)
  : JsMap.t Entry :=
  match labelled item with
  | Some l =>
      JsMap.set itemMap (normalizeFee (Some l))
        {| e_le := Some item; e_cd := None; displayLabel := l |}
  | None => itemMap
  end.

(** The callback of [cdItems.forEach]. *)
Definition insert_cd (itemMap : JsMap.t Entry) (item : LineItem)
  : JsMap.t Entry :=
  match labelled item with
  | Some l =>
      let normalized := normalizeFee (Some l) in
      match JsMap.get itemMap normalized with
      | Some existing =>
          JsMap.set itemMap normalized
            {| e_le := e_le existing; e_cd := Some item;
               displayLabel := displayLabel existing |}
      | None =>
          JsMap.set itemMap normalized
            {| e_le := None; e_cd := Some item; displayLabel := l |}
      end
  | None => itemMap
  end.

Definition merge_items (leItems cdItems : list LineItem) : JsMap.t Entry :=
  fold_left insert_cd cdItems (fold_left insert_le leItems JsMap.empty).

(** [value.le?.label || value.cd?.label || normalizedLabel] *)
Definition display_label (le cd : option LineItem) (normalizedLabel : string)
  : string :=
  match Str.or_else (chain le label) (chain cd label) with
  | Some l => if Str.truthy l then l else normalizedLabel
  | None => normalizedLabel
  end.

Definition zero_row (prefix : string) (index : nat)
  (normalizedLabel : string) (value : Entry) : Zero.Fee :=
  {| Zero.id := prefix ++ Str.of_nat index;
     Zero.fee := display_label (e_le value) (e_cd value) normalizedLabel;
     Zero.permittedToShop := Some false;
     Zero.le := split_of (e_le value);
     Zero.cd := split_of (e_cd value);
     Zero.changeReason := [] |}.

(** [itemMap.forEach] with its running [index]. *)
Fixpoint zero_rows (prefix : string) (index : nat) (entries : JsMap.t Entry)
  : list Zero.Fee :=
  match entries with
  | [] => []
  | (normalizedLabel, value) :: rest =>
      zero_row prefix index normalizedLabel value ::
      zero_rows prefix (S index) rest
  end.

Definition transformSectionA (leData cdData : option LoanEstimateRecord)
  : list Zero.Fee :=
  zero_rows "a-" 0
    (merge_items (loan_cost_items A leData) (loan_cost_items A cdData)).

Definition transformSectionB (leData cdData : option LoanEstimateRecord)
  : list Zero.Fee :=
  zero_rows "b-" 0
    (merge_items (loan_cost_items B leData) (loan_cost_items B cdData)).

(** *** Sections C and E *)

Record TenEntry : Type := {
  t_le : option LineItem;
  t_cd : option LineItem;
  type : string;                      (* 'C' | 'E' *)
  t_displayLabel : string;
}.

(** The callback of [cItems.forEach]. *)
Definition insert_le_C (itemMap : JsMap.t TenEntry) (item : LineItem)
  : JsMap.t TenEntry :=
  match labelled item with
  | Some l =>
      JsMap.set itemMap (normalizeFee (Some l))
        {| t_le := Some item; t_cd := None; type := "C";
           t_displayLabel := l |}
  | None => itemMap
  end.

(** The callback of [eItems.forEach]. *)
Definition insert_le_E (itemMap : JsMap.t TenEntry) (item : LineItem)
  : JsMap.t TenEntry :=
  match labelled item with
  | Some l =>
      let normalized := normalizeFee (Some l) in
      match JsMap.get itemMap normalized with
      | Some existing =>
          JsMap.set itemMap normalized
            {| t_le := Some item; t_cd := t_cd existing; type := "E";
               t_displayLabel := t_displayLabel existing |}
      | None =>
          JsMap.set itemMap normalized
            {| t_le := Some item; t_cd := None; type := "E";
               t_displayLabel := l |}
      end
  | None => itemMap
  end.

(** The callback of [cdCItems.forEach]. *)
Definition insert_cd_C (itemMap : JsMap.t TenEntry) (item : LineItem)
  : JsMap.t TenEntry :=
  match labelled item with
  | Some l =>
      let normalized := normalizeFee (Some l) in
      match JsMap.get itemMap normalized with
      | Some existing =>
          JsMap.set itemMap normalized
            {| t_le := t_le existing; t_cd := Some item;
               type := type existing;
               t_displayLabel := t_displayLabel existing |}
      | None =>
          JsMap.set itemMap normalized
            {| t_le := None; t_cd := Some item; type := "C";
               t_displayLabel := l |}
      end
  | None => itemMap
  end.

(** The callback of [cdEItems.forEach]. *)
Definition insert_cd_E (itemMap : JsMap.t TenEntry) (item : LineItem)
  : JsMap.t TenEntry :=
  match labelled item with
  | Some l =>
      let normalized := normalizeFee (Some l) in
      match JsMap.get itemMap normalized with
      | Some existing =>
          JsMap.set itemMap normalized
            {| t_le := t_le existing; t_cd := Some item; type := "E";
               t_displayLabel := t_displayLabel existing |}
      | None =>
          JsMap.set itemMap normalized
            {| t_le := None; t_cd := Some item; type := "E";
               t_displayLabel := l |}
      end
  | None => itemMap
  end.

Definition merge_ten (cItems eItems cdCItems cdEItems : list LineItem)
  : JsMap.t TenEntry :=
  fold_left insert_cd_E cdEItems
    (fold_left insert_cd_C cdCItems
       (fold_left insert_le_E eItems
          (fold_left insert_le_C cItems JsMap.empty))).

Definition lit_word (w : string) : Re.t := Re.lit_i (Str.chars w).

(** [/\s+and\s+other\s+taxes?/gi] *)
Definition re_and_other_taxes : Re.t :=
  Re.Seq (Re.Plus Re.space) (Re.Seq (lit_word "and")
    (Re.Seq (Re.Plus Re.space) (Re.Seq (lit_word "other")
       (Re.Seq (Re.Plus Re.space)
          (Re.Seq (lit_word "taxe") (Re.Opt (lit_word "s"))))))).

(** [/\s+and\s+taxes?/gi] *)
Definition re_and_taxes : Re.t :=
  Re.Seq (Re.Plus Re.space) (Re.Seq (lit_word "and")
    (Re.Seq (Re.Plus Re.space)
       (Re.Seq (lit_word "taxe") (Re.Opt (lit_word "s"))))).

(** [/recording fees?/gi] *)
Definition re_recording_fees : Re.t :=
  Re.Seq (lit_word "recording fee") (Re.Opt (lit_word "s")).

Definition tidy_recording_label (displayLabel : string) : string :=
  Str.trim (Str.of_chars
    (Re.replace_all re_recording_fees (Str.chars "Recording Fees")
       (Re.replace_all re_and_taxes []
          (Re.replace_all re_and_other_taxes [] (Str.chars displayLabel))))).

(** [Math.random()]: the sequence of values it returns during a run is an
    input of the model; [calls] counts the values consumed so far. *)
Definition Random : Type := nat -> Q.

(** One step of [itemMap.forEach] in [transformTenPercent]; the row and the
    number of random values consumed by it. *)
Definition ten_row (random : Random) (calls : nat) (index : nat)
  (normalizedLabel : string) (value : TenEntry) : Ten.Fee * nat :=
  let isRecording := String.eqb (type value) "E" in
  let displayLabel := display_label (t_le value) (t_cd value) normalizedLabel in
  let displayLabel :=
    if isRecording && Str.includes (Str.toLowerCase displayLabel) "recording"
    then tidy_recording_label displayLabel else displayLabel in
  let onWhitelist :=
    if isRecording then true else Num.ltb (3 # 10) (random calls) in
  ({| Ten.id := "ten-" ++ Str.of_nat index;
      Ten.fee := displayLabel;
      Ten.provider := "Unknown Provider";
      Ten.providerType := type value;
      Ten.whitelistConfidence := if isRecording then 1 else 85 # 100;
      Ten.onWhitelist := onWhitelist;
      Ten.matchConfidence := 95 # 100;
      Ten.le := split_of (t_le value);
      Ten.cd := split_of (t_cd value);
      Ten.changeReason := [];
      Ten.isRecording := Some isRecording |},
   if isRecording then calls else S calls).

Fixpoint ten_rows (random : Random) (calls : nat) (index : nat)
  (entries : JsMap.t TenEntry) : list Ten.Fee * nat :=
  match entries with
  | [] => ([], calls)
  | (normalizedLabel, value) :: rest =>
      let (row, calls) := ten_row random calls index normalizedLabel value in
      let (rows, calls) := ten_rows random calls (S index) rest in
      (row :: rows, calls)
  end.

(** [transformTenPercent], from a state where [Math.random] has been called
    [calls] times; returns the rows and the new number of calls. *)
Definition transformTenPercent (random : Random) (calls : nat)
  (leData cdData : option LoanEstimateRecord) : list Ten.Fee * nat :=
  ten_rows random calls 0
    (merge_ten (loan_cost_items C leData) (other_cost_items E leData)
       (loan_cost_items C cdData) (other_cost_items E cdData)).

(** *** Sections F, G and H *)

(** [LineItem & { bucket }] *)
Record TaggedItem : Type := {
  item_of : LineItem;
  item_bucket : string;
}.

Record UnlimitedEntry : Type := {
  u_le : option TaggedItem;
  u_cd : option TaggedItem;
  u_bucket : string;                  (* 'F' | 'G' | 'H' *)
  u_displayLabel : string;
}.

Definition tag (bucket : string) (item : LineItem) : TaggedItem :=
  {| item_of := item; item_bucket := bucket |}.

(** The callback of [fItems.forEach]. *)
Definition insert_le_F (itemMap : JsMap.t UnlimitedEntry) (item : LineItem)
  : JsMap.t UnlimitedEntry :=
  match labelled item with
  | Some l =>
      JsMap.set itemMap (normalizeFee (Some l))
        {| u_le := Some (tag "F" item); u_cd := None; u_bucket := "F";
           u_displayLabel := l |}
  | None => itemMap
  end.

(** The callbacks of [gItems.forEach] and [hItems.forEach], which differ in
    the bucket letter only. *)
Definition insert_le_GH (bucket : string) (itemMap : JsMap.t UnlimitedEntry)
  (item : LineItem) : JsMap.t UnlimitedEntry :=
  match labelled item with
  | Some l =>
      let normalized := normalizeFee (Some l) in
      match JsMap.get itemMap normalized with
      | Some existing =>
          JsMap.set itemMap normalized
            {| u_le := Some (tag bucket item); u_cd := u_cd existing;
               u_bucket := bucket;
               u_displayLabel := u_displayLabel existing |}
      | None =>
          JsMap.set itemMap normalized
            {| u_le := Some (tag bucket item); u_cd := None;
               u_bucket := bucket; u_displayLabel := l |}
      end
  | None => itemMap
  end.

(** The callbacks of [cdFItems.forEach], [cdGItems.forEach] and
    [cdHItems.forEach], which differ in the bucket letter only. *)
Definition insert_cd_FGH (bucket : string) (itemMap : JsMap.t UnlimitedEntry)
  (item : LineItem) : JsMap.t UnlimitedEntry :=
  match labelled item with
  | Some l =>
      let normalized := normalizeFee (Some l) in
      match JsMap.get itemMap normalized with
      | Some existing =>
          JsMap.set itemMap normalized
            {| u_le := u_le existing; u_cd := Some (tag bucket item);
               u_bucket := u_bucket existing;
               u_displayLabel := u_displayLabel existing |}
      | None =>
          JsMap.set itemMap normalized
            {| u_le := None; u_cd := Some (tag bucket item);
               u_bucket := bucket; u_displayLabel := l |}
      end
  | None => itemMap
  end.

Definition merge_unlimited (fItems gItems hItems cdFItems cdGItems cdHItems
  : list LineItem) : JsMap.t UnlimitedEntry :=
  fold_left (insert_cd_FGH "H") cdHItems
    (fold_left (insert_cd_FGH "G") cdGItems
       (fold_left (insert_cd_FGH "F") cdFItems
          (fold_left (insert_le_GH "H") hItems
             (fold_left (insert_le_GH "G") gItems
                (fold_left insert_le_F fItems JsMap.empty))))).

(** [a || b || 0] on possibly absent numbers. *)
Definition first_truthy (a b : option Q) : Q :=
  match a with
  | Some x => if Num.truthy x then x else or_zero (default 0 b)
  | None => or_zero (default 0 b)
  end.

(** [x > 0 ? x : undefined] *)
Definition positive_or_undefined (x : Q) : option Q :=
  if Num.ltb 0 x then Some x else None.

Definition unlimited_row (loanAmount interestRate : Q) (index : nat)
  (normalizedLabel : string) (value : UnlimitedEntry) : Unlimited.Fee :=
  let le := option_map item_of (u_le value) in
  let cd := option_map item_of (u_cd value) in
  let displayLabel := display_label le cd normalizedLabel in
  {| Unlimited.id := "unlimited-" ++ Str.of_nat index;
     Unlimited.bucket := u_bucket value;
     Unlimited.fee := displayLabel;
     Unlimited.le := split_of le;
     Unlimited.cd := split_of cd;
     Unlimited.changeReason := [];
     Unlimited.perDiemDays := extractPerDiem displayLabel;
     Unlimited.escrowMonths := extractEscrowMonths displayLabel;
     Unlimited.isOptional := Some (String.eqb (u_bucket value) "H");
     Unlimited.lenderRequired := None;
     Unlimited.loanAmount := positive_or_undefined loanAmount;
     Unlimited.interestRate := positive_or_undefined interestRate |}.

Fixpoint unlimited_rows (loanAmount interestRate : Q) (index : nat)
  (entries : JsMap.t UnlimitedEntry) : list Unlimited.Fee :=
  match entries with
  | [] => []
  | (normalizedLabel, value) :: rest =>
      unlimited_row loanAmount interestRate index normalizedLabel value ::
      unlimited_rows loanAmount interestRate (S index) rest
  end.

Definition transformUnlimited (leData cdData : option LoanEstimateRecord)
  : list Unlimited.Fee :=
  let loanAmount :=
    first_truthy (chain (chain cdData loan_terms) loan_amount)
      (chain (chain leData loan_terms) loan_amount) in
  let interestRate :=
    first_truthy (chain (chain cdData loan_terms) interest_rate_pct)
      (chain (chain leData loan_terms) interest_rate_pct) in
  unlimited_rows loanAmount interestRate 0
    (merge_unlimited
       (other_cost_items F leData) (other_cost_items G leData)
       (other_cost_items H leData) (other_cost_items F cdData)
       (other_cost_items G cdData) (other_cost_items H cdData)).

End Transformer.

(** ** Datasets and the two entry paths *)

Record ToleranceDataset : Type := {
  origination : list Zero.Fee;
  cannotShop : list Zero.Fee;
  tenPercent : list Ten.Fee;
  unlimited : list Unlimited.Fee;
}.

(** [transformTridData]: the four transformers in the order of the object
    literal; the state of [Math.random] is threaded through. *)
Definition transformTridData (random : Transformer.Random) (calls : nat)
  (loanEstimate closingDisclosure : option Backend.LoanEstimateRecord)
  : ToleranceDataset * nat :=
  let origination :=
    Transformer.transformSectionA loanEstimate closingDisclosure in
  let cannotShop :=
    Transformer.transformSectionB loanEstimate closingDisclosure in
  let (tenPercent, calls) :=
    Transformer.transformTenPercent random calls loanEstimate closingDisclosure in
  let unlimited :=
    Transformer.transformUnlimited loanEstimate closingDisclosure in
  ({| origination := origination; cannotShop := cannotShop;
      tenPercent := tenPercent; unlimited := unlimited |}, calls).

(** ** The pre-matched transformer ([lib/ai-trid-transformer]) *)

Module AiTransformer.
Import Backend.

(** [/[^a-z0-9]+/g] *)
Definition re_not_alnum : Re.t :=
  Re.Plus (Re.Chr (fun c => negb (Str.is_lower c || Str.is_digit c))).

(** [s.replace(/^-|-$/g, '')] *)
Definition strip_dashes (s : list ascii) : list ascii :=
  let s :=
    match s with
    | c :: s' => if Ascii.eqb c "-" then s' else s
    | [] => []
    end in
  match rev s with
  | c :: r => if Ascii.eqb c "-" then rev r else s
  | [] => []
  end.

Definition sanitizeId (str : string) : string :=
  Str.of_chars
    (strip_dashes
       (Re.replace_all re_not_alnum (Str.chars "-")
          (Str.chars (Str.toLowerCase str)))).

Definition calculateChangeReason (leAmount cdAmount : Q) (isNew : bool)
  : Text :=
  if isNew then [Lit "NEW FEE - Not in Loan Estimate"]
  else
    let diff := cdAmount - leAmount in
    if Qeq_bool diff 0 then [Lit "No change"]
    else if Num.ltb 0 diff then [Lit "Increased by $"; Fixed 2 diff]
    else [Lit "Decreased by $"; Fixed 2 (Num.Math_abs diff)].

(** [/\bto\s+(.+?)$/i] from the [t] on, without its end anchor. *)
Definition re_to_provider : Re.t :=
  Re.Seq (Re.lit_i (Str.chars "to"))
    (Re.Seq (Re.Plus Re.space) (Re.Plus Re.dot)).

(** Leftmost match of [/\bto\s+(.+?)$/i]; [before] tells whether the
    character before the current position is a word character.  Group 1 is
    preceded by white space only, so its [trim] is the [trim] of all that
    follows the word. *)
Fixpoint provider_after_to (before : bool) (s : list ascii) : option string :=
  match s with
  | [] => None
  | c :: s' =>
      if negb before && Re.matches re_to_provider s
      then Some (Str.trim (Str.of_chars (skipn 2 s)))
      else provider_after_to (Str.is_word c) s'
  end.

Definition extractProvider (label : string) : string :=
  default "Unknown Provider" (provider_after_to false (Str.chars label)).

Definition extractPerDiem (feeName : string) : option Q :=
  Transformer.leading_number Transformer.re_per_diem_unit (Str.chars feeName).

Definition extractEscrowMonths (feeName : string) : option Q :=
  Transformer.leading_number Transformer.re_month_unit (Str.chars feeName).

(** [fee.is_new ? `${fee.fee_name} [NEW]` : fee.fee_name] *)
Definition fee_title (fee : MatchedFee) : string :=
  if is_new fee then fee_name fee ++ " [NEW]" else fee_name fee.

Definition transformToZeroTolerance (fee : MatchedFee) : Zero.Fee :=
  {| Zero.id := "ai-zero-" ++ section fee ++ "-" ++ sanitizeId (fee_name fee);
     Zero.fee := fee_title fee;
     Zero.permittedToShop := Some (String.eqb (section fee) "B");
     Zero.le := {| borrower := default 0 (le_amount fee);
                   seller := None; other := None |};
     Zero.cd := {| borrower := default 0 (cd_amount fee);
                   seller := None; other := None |};
     Zero.changeReason :=
       calculateChangeReason (default 0 (le_amount fee))
         (default 0 (cd_amount fee)) (is_new fee) |}.

Definition transformToTenPercent (fee : MatchedFee) : Ten.Fee :=
  {| Ten.id := "ai-ten-" ++ section fee ++ "-" ++ sanitizeId (fee_name fee);
     Ten.fee := fee_title fee;
     Ten.provider :=
       match Str.or_else (provider_name fee) None with
       | Some p => p
       | None =>
           extractProvider
             (default (fee_name fee)
                (Str.or_else (cd_label fee) (Str.or_else (le_label fee) None)))
       end;
     Ten.providerType := section fee;
     Ten.whitelistConfidence := match_confidence fee;
     Ten.onWhitelist := Num.leb (7 # 10) (match_confidence fee);
     Ten.matchConfidence := match_confidence fee;
     Ten.le := {| borrower := default 0 (le_amount fee);
                  seller := None; other := None |};
     Ten.cd := {| borrower := default 0 (cd_amount fee);
                  seller := None; other := None |};
     Ten.changeReason :=
       calculateChangeReason (default 0 (le_amount fee))
         (default 0 (cd_amount fee)) (is_new fee);
     Ten.isRecording :=
       Some (Str.includes (Str.toLowerCase (fee_name fee)) "recording") |}.

Definition transformToUnlimited (fee : MatchedFee) : Unlimited.Fee :=
  {| Unlimited.id :=
       "ai-unlim-" ++ section fee ++ "-" ++ sanitizeId (fee_name fee);
     Unlimited.bucket := section fee;
     Unlimited.fee := fee_title fee;
     Unlimited.le := {| borrower := default 0 (le_amount fee);
                        seller := None; other := None |};
     Unlimited.cd := {| borrower := default 0 (cd_amount fee);
                        seller := None; other := None |};
     Unlimited.changeReason :=
       calculateChangeReason (default 0 (le_amount fee))
         (default 0 (cd_amount fee)) (is_new fee);
     Unlimited.perDiemDays := extractPerDiem (fee_name fee);
     Unlimited.escrowMonths := extractEscrowMonths (fee_name fee);
     Unlimited.isOptional :=
       Some (Str.includes (Str.toLowerCase (fee_name fee)) "optional");
     Unlimited.lenderRequired :=
       Some (negb (Str.includes (Str.toLowerCase (fee_name fee)) "optional"));
     Unlimited.loanAmount := None;
     Unlimited.interestRate := None |}.

(** [leAmount === 0 && cdAmount === 0], the fees the loop skips. *)
Definition skipped (fee : MatchedFee) : bool :=
  Qeq_bool (default 0 (le_amount fee)) 0 &&
  Qeq_bool (default 0 (cd_amount fee)) 0.

(** One iteration of [for (const fee of tridComparison.matched_fees)]. *)
Definition add_fee (acc : ToleranceDataset) (fee : MatchedFee)
  : ToleranceDataset :=
  if skipped fee then acc
  else
    match tolerance_category fee with
    | cat_zero =>
        let transformedFee := transformToZeroTolerance fee in
        if String.eqb (section fee) "A" then
          {| origination := origination acc ++ [transformedFee];
             cannotShop := cannotShop acc;
             tenPercent := tenPercent acc; unlimited := unlimited acc |}
        else if String.eqb (section fee) "B" then
          {| origination := origination acc;
             cannotShop := cannotShop acc ++ [transformedFee];
             tenPercent := tenPercent acc; unlimited := unlimited acc |}
        else acc
    | cat_ten_percent =>
        {| origination := origination acc; cannotShop := cannotShop acc;
           tenPercent := tenPercent acc ++ [transformToTenPercent fee];
           unlimited := unlimited acc |}
    | cat_unlimited =>
        {| origination := origination acc; cannotShop := cannotShop acc;
           tenPercent := tenPercent acc;
           unlimited := unlimited acc ++ [transformToUnlimited fee] |}
    end.

Definition empty_dataset : ToleranceDataset :=
  {| origination := []; cannotShop := []; tenPercent := []; unlimited := [] |}.

Definition transformAIMatchedData (tridComparison : option TRIDComparison)
  : ToleranceDataset :=
  match chain tridComparison matched_fees with
  | None => empty_dataset
  | Some fees => fold_left add_fee fees empty_dataset
  end.

End AiTransformer.

(** ** The data page: one evaluation run and its headline figure *)

Module Page.

Record Evaluation : Type := {
  zeroA : Zero.Result;
  zeroB : Zero.Result;
  tenPercentResult : Ten.Result;
  unlimitedRows : list Unlimited.DisplayRow;
  exceptions : list ExceptionEntry;
  totalDifference : Q;
}.

(** The body of the [totalDifference] memo. *)
Definition total_difference (zeroA zeroB : Zero.Result) (ten : Ten.Result)
  (unlimitedRows : list Unlimited.DisplayRow) : Q :=
  let zeroADiff := Zero.subtotalCD zeroA - Zero.subtotalLE zeroA in
  let zeroBDiff := Zero.subtotalCD zeroB - Zero.subtotalLE zeroB in
  let tenPercentDiff := Ten.cdTotal ten - Ten.leBase ten in
  let unlimitedDiff :=
    fold_left (fun sum row =>
      sum + (borrower (Unlimited.cd (Unlimited.base row)) -
             borrower (Unlimited.le (Unlimited.base row))))
      unlimitedRows 0 in
  zeroADiff + zeroBDiff + tenPercentDiff + unlimitedDiff.

(** The memos of the page, for a dataset and an override map. *)
Definition evaluate (dataset : ToleranceDataset)
  (tenOverrides : Ten.OverrideMap) : Evaluation :=
  let zeroA := Zero.evaluateZeroTolerance (origination dataset) BucketA None in
  let zeroB := Zero.evaluateZeroTolerance (cannotShop dataset) BucketB None in
  let ten := Ten.evaluateTenPercent (tenPercent dataset) tenOverrides None in
  let unlimitedRows := Unlimited.evaluateUnlimited (unlimited dataset) in
  {| zeroA := zeroA; zeroB := zeroB; tenPercentResult := ten;
     unlimitedRows := unlimitedRows;
     exceptions := collectExceptions zeroA zeroB ten unlimitedRows;
     totalDifference := total_difference zeroA zeroB ten unlimitedRows |}.

End Page.

(** ** The built-in dataset ([lib/trid-data]) *)

Module TridData.

(** [seller ? currency(seller) : undefined] *)
Definition optional_currency (x : option Q) : option Q :=
  match x with
  | Some v => if Num.truthy v then Some (currency v) else None
  | None => None
  end.

Definition split (borrower : Q) (seller other : option Q) : PayerSplit :=
  {| borrower := currency borrower;
     seller := optional_currency seller;
     other := optional_currency other |}.

Definition zero_fee (id fee : string) (le cd : PayerSplit)
  (permittedToShop : option bool) (changeReason : string) : Zero.Fee :=
  {| Zero.id := id; Zero.fee := fee; Zero.permittedToShop := permittedToShop;
     Zero.le := le; Zero.cd := cd; Zero.changeReason := [Lit changeReason] |}.

Definition ten_fee (id fee provider providerType : string)
  (confidence : Q) (onWhitelist : bool) (le cd : PayerSplit)
  (changeReason : string) (isRecording : option bool) : Ten.Fee :=
  {| Ten.id := id; Ten.fee := fee; Ten.provider := provider;
     Ten.providerType := providerType;
     Ten.whitelistConfidence := confidence; Ten.onWhitelist := onWhitelist;
     Ten.matchConfidence := confidence;
     Ten.le := le; Ten.cd := cd; Ten.changeReason := [Lit changeReason];
     Ten.isRecording := isRecording |}.

Definition unlimited_fee (id bucket fee : string) (le cd : PayerSplit)
  (changeReason : string) (perDiemDays escrowMonths : option Q)
  (isOptional lenderRequired : option bool) : Unlimited.Fee :=
  {| Unlimited.id := id; Unlimited.bucket := bucket; Unlimited.fee := fee;
     Unlimited.le := le; Unlimited.cd := cd;
     Unlimited.changeReason := [Lit changeReason];
     Unlimited.perDiemDays := perDiemDays;
     Unlimited.escrowMonths := escrowMonths;
     Unlimited.isOptional := isOptional;
     Unlimited.lenderRequired := lenderRequired;
     Unlimited.loanAmount := None; Unlimited.interestRate := None |}.

Definition buildDummyToleranceData : ToleranceDataset :=
  {| origination :=
       [zero_fee "orig-1" "Origination Charge"
          (split 1950 None None) (split 2105 None None) None
          "Rate lock extended two days";
        zero_fee "orig-2" "Processing Fee"
          (split 675 None None) (split 675 None None) None "No change";
        zero_fee "orig-3" "Underwriting Fee"
          (split 795 None None) (split 795 None None) None "No change"];
     cannotShop :=
       [zero_fee "cant-1" "Appraisal"
          (split 650 None None) (split 725 None None) (Some false)
          "Rush order requested by borrower";
        zero_fee "cant-2" "Credit Report"
          (split 48 None None) (split 48 None None) None "No change";
        zero_fee "cant-3" "Flood Certification"
          (split 32 None None) (split 32 None None) (Some true)
          "Provider flagged as preferred by borrower"];
     tenPercent :=
       [ten_fee "grp-1" "Title - Settlement Agent" "Metro Title Co." "C"
          (96 # 100) true
          (split 1275 None None) (split 1350 (Some 0) (Some 150))
          "Seller requested mobile signing" None;
        ten_fee "grp-2" "Title Search" "Metro Title Co." "C"
          (91 # 100) true
          (split 450 None None) (split 525 None None)
          "Abstractor billed extra trip" None;
        ten_fee "grp-3" "Recording Fees (E)" "County Recorder" "E"
          (99 # 100) true
          (split 210 None None) (split 210 None None) "No change" (Some true);
        ten_fee "grp-4" "Pest Inspection" "Ace Inspectors" "C"
          (84 # 100) false
          (split 125 None None) (split 0 (Some 0) (Some 150))
          "Borrower insisted on preferred vendor" None];
     unlimited :=
       [unlimited_fee "unlim-1" "F" "Daily Interest Charges"
          (split 875 None None) (split 1045 None None)
          "Closing moved to 27th (20 per-diem days)" (Some 20) None None None;
        unlimited_fee "unlim-2" "G" "Escrow Deposit - Taxes"
          (split 1650 None None) (split 1850 None None)
          "County cycle requires three months cushion" None (Some 3) None None;
        unlimited_fee "unlim-3" "H" "Owner's Title Policy"
          (split 0 (Some 0) (Some 980)) (split 0 (Some 0) (Some 980))
          "Optional coverage" None None (Some true) (Some false);
        unlimited_fee "unlim-4" "H" "HOA Capital Contribution"
          (split 0 (Some 600) None) (split 0 (Some 800) None)
          "Association dues increased" None None (Some false) (Some true)] |}.

End TridData.

(** ** Specification-side vocabulary *)

(** Rounding to 2 decimal places, half away from zero, in the words of the
    specification: the nearest multiple of 0.01, a tie going to the one of
    larger magnitude. *)
Definition round2 (x : Q) : Q :=
  let y := x * 100 in
  (if Qle_bool 0 y then Qfloor (y + (1 # 2)) else Qceiling (y - (1 # 2))) # 100.

(** The sum of a list of amounts. *)
Definition total (l : list Q) : Q := fold_right Qplus 0 l.

(** A whole number of cents. *)
Definition is_cents (x : Q) : Prop := exists n : Z, x == n # 100.

(** The override in force for a fee id: the map's [includeInGroup] value,
    when the map has one for that id. *)
Definition override_for (overrides : Ten.OverrideMap) (id : string)
  : option bool :=
  match overrides !! id with
  | Some o => Ten.includeInGroup o
  | None => None
  end.

(** Options that differ from [options] in the lender credit only. *)
Definition set_lender_credits (options : option RuleOptions)
  (credits : option Q) : option RuleOptions :=
  Some {| zeroThreshold := chain options zeroThreshold;
          reviewConfidenceFloor := chain options reviewConfidenceFloor;
          reviewConfidenceCeil := chain options reviewConfidenceCeil;
          lenderCredits := credits |}.

(** A zero-tolerance row [r] is the row [r0] with, when its cureAmount is
    positive, one more flag, a CURED_BY_LENDER warning, and nothing else
    changed (C5). *)
Definition zero_annotated (r0 r : Zero.DisplayRow) : Prop :=
  Zero.base r = Zero.base r0 /\
  Zero.delta r = Zero.delta r0 /\
  Zero.status r = Zero.status r0 /\
  Zero.cureAmount r = Zero.cureAmount r0 /\
  ((0 < Zero.cureAmount r0 /\
    exists f, code f = CURED_BY_LENDER /\ severity f = warning /\
              Zero.flags r = Zero.flags r0 ++ [f]) \/
   (~ 0 < Zero.cureAmount r0 /\ Zero.flags r = Zero.flags r0)).

(** The same for a ten-percent row: the flag is added when the row is in
    the group and its delta is positive. *)
Definition ten_annotated (r0 r : Ten.DisplayRow) : Prop :=
  Ten.base r = Ten.base r0 /\
  Ten.delta r = Ten.delta r0 /\
  Ten.status r = Ten.status r0 /\
  Ten.effectiveOnWhitelist r = Ten.effectiveOnWhitelist r0 /\
  Ten.inTenGroup r = Ten.inTenGroup r0 /\
  ((Ten.inTenGroup r0 = true /\ 0 < Ten.delta r0 /\
    exists f, code f = CURED_BY_LENDER /\ severity f = warning /\
              Ten.flags r = Ten.flags r0 ++ [f]) \/
   (~ (Ten.inTenGroup r0 = true /\ 0 < Ten.delta r0) /\
    Ten.flags r = Ten.flags r0)).

(** Three whitelisted, confidently matched fees: 1000 estimated, 1150
    charged. *)
Definition sample_ten_rows : list Ten.Fee :=
  [TridData.ten_fee "t-1" "Title - Settlement Agent" "Metro Title Co." "C"
     (96 # 100) true (TridData.split 400 None None)
     (TridData.split 460 None None) EmptyString None;
   TridData.ten_fee "t-2" "Title Search" "Metro Title Co." "C"
     (96 # 100) true (TridData.split 350 None None)
     (TridData.split 400 None None) EmptyString None;
   TridData.ten_fee "t-3" "Survey" "Acme Survey" "C"
     (96 # 100) true (TridData.split 250 None None)
     (TridData.split 290 None None) EmptyString None].

(** A Loan Estimate and a Closing Disclosure with one shoppable fee. *)
Definition sample_document (label : string) (amount : Q)
  : Backend.LoanEstimateRecord :=
  {| Backend.loan_terms := None;
     Backend.closing_cost_details := Some
       {| Backend.loan_costs := Some
            {| Backend.A := None; Backend.B := None;
               Backend.C := Some
                 {| Backend.section_label := Some "Services You Can Shop For";
                    Backend.total := Some amount;
                    Backend.items := Some
                      [{| Backend.label := Some label;
                          Backend.amount := Some amount;
                          Backend.sub_label := None;
                          Backend.payer := Some Backend.payer_borrower;
                          Backend.timing := None |}] |};
               Backend.D_total := None |};
          Backend.other_costs := None |} |}.

Definition sample_le : Backend.LoanEstimateRecord :=
  sample_document "Title Search" 450.

Definition sample_cd : Backend.LoanEstimateRecord :=
  sample_document "01 Title Search to Metro Title Co." 525.

(** The merge key of a line item: the normalized label of an item that has
    a (non-empty) label; items without one take no part in the merge. *)
Definition key_of (item : Backend.LineItem) : option string :=
  option_map (fun l => Transformer.normalizeFee (Some l))
    (Transformer.labelled item).

Definition has_key (k : string) (item : Backend.LineItem) : bool :=
  match key_of item with
  | Some k' => String.eqb k' k
  | None => false
  end.

(** The last item of a list whose key is [k]. *)
Definition last_with_key (k : string) (items : list Backend.LineItem)
  : option Backend.LineItem :=
  find (has_key k) (rev items).

(** The entry an LE item makes when it is inserted. *)
Definition le_entry (item : Backend.LineItem) : Transformer.Entry :=
  {| Transformer.e_le := Some item; Transformer.e_cd := None;
     Transformer.displayLabel := default EmptyString (Transformer.labelled item) |}.

(** The sides of the entry of key [k], in terms of the two item lists. *)
Definition sides_agree (m : JsMap.t Transformer.Entry)
  (les cds : list Backend.LineItem) : Prop :=
  forall k,
    (JsMap.get m k = None <->
     last_with_key k les = None /\ last_with_key k cds = None) /\
    (forall e, JsMap.get m k = Some e ->
       Transformer.e_le e = last_with_key k les /\
       Transformer.e_cd e = last_with_key k cds).

(** The rule that C10 states for a returned row of bucket "B". *)
Definition always_flagged (thr : Q) (r : Zero.DisplayRow) : Prop :=
  has_flag SECTION_PLACEMENT_MISMATCH (Zero.flags r) = true /\
  Zero.status r <> PASS /\
  (Zero.delta r <= thr -> Zero.status r = REVIEW) /\
  (thr < Zero.delta r -> Zero.status r = FAIL).

(** A pre-matched comparison with one zero-tolerance fee of section "B",
    unchanged between the two documents. *)
Definition sample_comparison : Backend.TRIDComparison :=
  {| Backend.matched_fees := Some
       [{| Backend.fee_name := "Appraisal Fee";
           Backend.section := "B";
           Backend.le_amount := Some 650;
           Backend.cd_amount := Some 650;
           Backend.le_label := Some "Appraisal Fee";
           Backend.cd_label := Some "Appraisal Fee to ABC Appraisers";
           Backend.match_confidence := 97 # 100;
           Backend.tolerance_category := Backend.cat_zero;
           Backend.provider_name := None;
           Backend.is_new := false |}] |}.

(** ** Vocabulary of the further properties *)

(** The ten-percent row rule, for one returned row: [floor] and [ceil] are
    the confidence band of the run. *)
Definition ten_row_rule (floor ceil : Q) (r : Ten.DisplayRow) : Prop :=
  let row := Ten.base r in
  let mc := Ten.matchConfidence row in
  let rec := Ten.providerType row = "E" \/ Ten.isRecording row = Some true in
  let low := mc < floor in
  let review := floor <= mc /\ mc < ceil in
  let off := Ten.effectiveOnWhitelist r = false /\ ~ rec in
  (Ten.status r = REVIEW <-> low \/ review \/ off) /\
  (Ten.status r = PASS <-> ~ (low \/ review \/ off)) /\
  (has_flag PROVIDER_OFF_LIST (Ten.flags r) = true <->
     off /\ ~ review /\ ~ low) /\
  (has_flag LOW_CONFIDENCE (Ten.flags r) = true <-> review) /\
  (has_flag PROVIDER_OFF_LIST (Ten.flags r) = true ->
     Ten.inTenGroup r = false) /\
  (low -> Ten.flags r = [] /\ Ten.inTenGroup r = false).

(** The unlimited row rule, for one returned row. *)
Definition unlimited_row_rule (r : Unlimited.DisplayRow) : Prop :=
  let row := Unlimited.base r in
  (has_flag PER_DIEM_OUTLIER (Unlimited.flags r) = true <->
     Unlimited.bucket row = "F" /\
     exists d, Unlimited.perDiemDays row = Some d /\ 15 < d) /\
  (has_flag ESCROW_CUSHION_EXCEEDED (Unlimited.flags r) = true <->
     Unlimited.bucket row = "G" /\
     exists m, Unlimited.escrowMonths row = Some m /\ 2 < m) /\
  (has_flag OPTIONALITY_MISMATCH (Unlimited.flags r) = true <->
     Unlimited.bucket row = "H" /\
     Unlimited.lenderRequired row = Some true /\
     Unlimited.isOptional row <> Some true) /\
  (has_flag PER_DIEM_INTEREST_DEVIATION (Unlimited.flags r) = true ->
     Unlimited.bucket row = "F" /\
     (exists d, Unlimited.perDiemDays row = Some d /\ ~ d == 0) /\
     (exists l, Unlimited.loanAmount row = Some l /\ ~ l == 0) /\
     (exists i, Unlimited.interestRate row = Some i /\ ~ i == 0) /\
     0 < borrower (Unlimited.cd row)) /\
  Forall (fun f =>
            severity f = warning /\
            (code f = PER_DIEM_OUTLIER \/
             code f = PER_DIEM_INTEREST_DEVIATION \/
             code f = ESCROW_CUSHION_EXCEEDED \/
             code f = OPTIONALITY_MISMATCH))
    (Unlimited.flags r) /\
  (length (Unlimited.flags r) <= 2)%nat /\
  (Unlimited.status r = REVIEW \/ Unlimited.status r = PASS) /\
  (Unlimited.bucket row <> "F" -> Unlimited.bucket row <> "G" ->
   Unlimited.bucket row <> "H" ->
   Unlimited.flags r = [] /\ Unlimited.status r = PASS).

(** Number of flags carried by a list of rows. *)
Definition flag_count {T : Type} (flags : T -> list FlagDetail)
  (rows : list T) : nat :=
  list_sum (List.map (fun r => length (flags r)) rows).

Definition is_error (e : ExceptionEntry) : bool :=
  match exc_severity e with error => true | warning => false end.

Definition is_error_flag (f : FlagDetail) : bool :=
  match severity f with error => true | warning => false end.

(** The [type] of the entry of key [k] in a ten-percent merge map. *)
Definition type_at (m : JsMap.t Transformer.TenEntry) (k : string)
  : option string :=
  option_map Transformer.type (JsMap.get m k).

(** What the folds of [merge_ten] keep true of the types: [all] are the
    items inserted so far and [es] those of them that came from a section E. *)
Definition types_agree (m : JsMap.t Transformer.TenEntry)
  (all es : list Backend.LineItem) : Prop :=
  forall k,
    (type_at m k = None <-> forall it, In it all -> key_of it <> Some k) /\
    (forall t, type_at m k = Some t ->
       (t = "E" <-> exists it, In it es /\ key_of it = Some k) /\
       (t = "C" \/ t = "E")).

(** What every fee built by [transformTenPercent] looks like. *)
Definition raw_ten_fee (row : Ten.Fee) : Prop :=
  Ten.matchConfidence row = 95 # 100 /\
  Ten.provider row = "Unknown Provider" /\
  Ten.changeReason row = [] /\
  Ten.isRecording row = Some (String.eqb (Ten.providerType row) "E") /\
  (Ten.providerType row = "E" ->
   Ten.onWhitelist row = true /\ Ten.whitelistConfidence row = 1).

(** How [evaluateTenPercent] treats such a fee under the default options
    and without overrides. *)
Definition raw_ten_outcome (r : Ten.DisplayRow) : Prop :=
  let listed := Ten.onWhitelist (Ten.base r) in
  Ten.inTenGroup r = listed /\
  has_flag LOW_CONFIDENCE (Ten.flags r) = false /\
  has_flag PROVIDER_OFF_LIST (Ten.flags r) = negb listed /\
  Ten.status r = (if listed then PASS else REVIEW).

(** What every fee built by [transformUnlimited] looks like. *)
Definition raw_unlimited_fee (row : Unlimited.Fee) : Prop :=
  (Unlimited.bucket row = "F" \/ Unlimited.bucket row = "G" \/
   Unlimited.bucket row = "H") /\
  Unlimited.lenderRequired row = None /\
  Unlimited.isOptional row = Some (String.eqb (Unlimited.bucket row) "H") /\
  Unlimited.changeReason row = [] /\
  (forall l, Unlimited.loanAmount row = Some l -> 0 < l) /\
  (forall i, Unlimited.interestRate row = Some i -> 0 < i).

Definition FGH (bucket : string) : Prop :=
  bucket = "F" \/ bucket = "G" \/ bucket = "H".

(** The branch of the loop of [transformAIMatchedData] a fee takes: [cat] is
    the category tested and [sections] the test on the section. *)
Definition category_eqb (a b : Backend.ToleranceCategory) : bool :=
  match a, b with
  | Backend.cat_zero, Backend.cat_zero
  | Backend.cat_ten_percent, Backend.cat_ten_percent
  | Backend.cat_unlimited, Backend.cat_unlimited => true
  | _, _ => false
  end.

Definition ai_kept (cat : Backend.ToleranceCategory) (sections : string -> bool)
  (fee : Backend.MatchedFee) : bool :=
  negb (AiTransformer.skipped fee) &&
  category_eqb (Backend.tolerance_category fee) cat &&
  sections (Backend.section fee).

Definition ai_partition (fees : list Backend.MatchedFee) : ToleranceDataset :=
  {| origination :=
       List.map AiTransformer.transformToZeroTolerance
         (List.filter (ai_kept Backend.cat_zero (fun s => String.eqb s "A"))
            fees);
     cannotShop :=
       List.map AiTransformer.transformToZeroTolerance
         (List.filter (ai_kept Backend.cat_zero (fun s => String.eqb s "B"))
            fees);
     tenPercent :=
       List.map AiTransformer.transformToTenPercent
         (List.filter (ai_kept Backend.cat_ten_percent (fun _ => true)) fees);
     unlimited :=
       List.map AiTransformer.transformToUnlimited
         (List.filter (ai_kept Backend.cat_unlimited (fun _ => true)) fees) |}.

(** A comparison with one ten-percent fee of confidence 0.8. *)
Definition sample_ten_comparison : Backend.TRIDComparison :=
  {| Backend.matched_fees := Some
       [ {| Backend.fee_name := "Title - Settlement Fee";
            Backend.section := "C";
            Backend.le_amount := Some 500;
            Backend.cd_amount := Some 525;
            Backend.le_label := Some "Title - Settlement Fee";
            Backend.cd_label := Some "Title - Settlement Fee to Acme Title";
            Backend.match_confidence := 8 # 10;
            Backend.tolerance_category := Backend.cat_ten_percent;
            Backend.provider_name := None;
            Backend.is_new := false |} ] |}.

(** The characters an id fragment may hold: [a-z0-9-]. *)
Definition is_id_char (c : ascii) : bool :=
  Str.is_lower c || Str.is_digit c || Ascii.eqb c "-".

(** A key character: not an upper-case letter, and a blank only when it is
    the space character. *)
Definition is_key_char (c : ascii) : bool :=
  negb (Str.is_upper c) && (negb (Str.is_space c) || Ascii.eqb c " ").

(** [v] is the number read from a non-empty run of decimal digits of [s]
    that writes the integer [n]. *)
Definition digit_run_value (s : list ascii) (n : Z) (v : Q) : Prop :=
  exists before ds after,
    s = before ++ ds ++ after /\ ds <> [] /\
    forallb Str.is_digit ds = true /\
    n = Transformer.parse_digits ds /\
    v = B64.round (inject_Z n).

(** ** The evaluators in binary64 arithmetic

    The evaluators above read [+], [-], [*], [/] as the operations on the
    rationals.  Here they are again with the arithmetic of JavaScript: the
    same callbacks, an amount, a confidence or an option read from a record
    as the number it denotes ([B64.round]), the four operations as
    [B64.add], [B64.sub], [B64.mul], [B64.div], and the literal [1.1] as the
    number nearest to 11/10.  The records, the flags without a number and
    the tests on strings and booleans are shared. *)

Definition borrowerDelta64 (le cd : PayerSplit) : Q :=
  B64.currency (B64.sub (B64.round (borrower cd)) (B64.round (borrower le))).

Module Zero64.

Definition overage_flag (delta threshold : Q) : FlagDetail :=
  buildFlag ZERO_LINE_OVERAGE
    [Lit "Borrower owes $"; Fixed 2 (B64.sub delta threshold);
     Lit " over zero tolerance"]
    error None.

(** The callback of [rows.map]; [zeroThreshold] is [config.zeroThreshold]. *)
Definition evaluate_row (bucket : ZeroBucket) (config : Config)
  (row : Zero.Fee) : Zero.DisplayRow :=
  let zeroThreshold := B64.round (cfg_zeroThreshold config) in
  let delta := borrowerDelta64 (Zero.le row) (Zero.cd row) in
  let over := Num.ltb zeroThreshold delta in
  let status0 := if over then FAIL else PASS in
  let flags0 := push_if over (overage_flag delta zeroThreshold) [] in
  let flags1 :=
    push_if (Zero.misplaced bucket row) Zero.placement_flag flags0 in
  let status1 :=
    if Zero.misplaced bucket row && RowStatus_eqb status0 PASS
    then REVIEW else status0 in
  let cureAmount :=
    if RowStatus_eqb status1 FAIL
    then B64.currency (B64.sub delta zeroThreshold) else 0 in
  {| Zero.base := row; Zero.delta := delta; Zero.status := status1;
     Zero.flags := flags1; Zero.cureAmount := cureAmount |}.

Definition evaluateZeroTolerance (rows : list Zero.Fee) (bucket : ZeroBucket)
  (options : option RuleOptions) : Zero.Result :=
  let config := spread_options options in
  let lenderCredits := or_zero (B64.round (cfg_lenderCredits config)) in
  let evaluated := List.map (evaluate_row bucket config) rows in
  let totalCureNeeded :=
    B64.currency (B64.sum_of Zero.cureAmount evaluated) in
  let evaluated :=
    if Num.ltb 0 lenderCredits && Num.ltb 0 totalCureNeeded
    then List.map (Zero.cure_row lenderCredits totalCureNeeded) evaluated
    else evaluated in
  {| Zero.rows := evaluated;
     Zero.subtotalLE :=
       B64.currency
         (B64.sum_of
            (fun row => B64.round (borrower (Zero.le (Zero.base row))))
            evaluated);
     Zero.subtotalCD :=
       B64.currency
         (B64.sum_of
            (fun row => B64.round (borrower (Zero.cd (Zero.base row))))
            evaluated);
     Zero.passCount := Zero.count_status PASS evaluated;
     Zero.failCount := Zero.count_status FAIL evaluated;
     Zero.reviewCount := Zero.count_status REVIEW evaluated;
     Zero.totalCure := B64.currency (B64.sum_of Zero.cureAmount evaluated) |}.

End Zero64.

Module Ten64.

Definition low_confidence_flag (matchConfidence : Q) : FlagDetail :=
  buildFlag LOW_CONFIDENCE
    [Lit "Match confidence ";
     Whole (Num.Math_round (B64.mul matchConfidence 100));
     Lit "% - Review"]
    warning None.

(** The callback of [rows.map]. *)
Definition evaluate_row (overrides : Ten.OverrideMap) (config : Config)
  (row : Ten.Fee) : Ten.DisplayRow :=
  let matchConfidence := B64.round (Ten.matchConfidence row) in
  let reviewConfidenceFloor := B64.round (cfg_reviewConfidenceFloor config) in
  let reviewConfidenceCeil := B64.round (cfg_reviewConfidenceCeil config) in
  let delta := borrowerDelta64 (Ten.le row) (Ten.cd row) in
  let isRecording := Ten.recording row in
  let effectiveOnWhitelist := Ten.effective overrides row in
  let isLowConfidence := Num.ltb matchConfidence reviewConfidenceFloor in
  let needsReview :=
    Num.leb reviewConfidenceFloor matchConfidence &&
    Num.ltb matchConfidence reviewConfidenceCeil in
  let flags0 :=
    push_if (negb effectiveOnWhitelist && negb isRecording &&
             negb needsReview && negb isLowConfidence)
      Ten.off_list_flag [] in
  let flags1 :=
    push_if needsReview (low_confidence_flag matchConfidence) flags0 in
  let inTenGroup :=
    (effectiveOnWhitelist || isRecording) && negb isLowConfidence in
  let status :=
    if isLowConfidence || needsReview then REVIEW
    else if negb effectiveOnWhitelist && negb isRecording then REVIEW
    else PASS in
  {| Ten.base := row; Ten.delta := delta; Ten.status := status;
     Ten.flags := flags1; Ten.effectiveOnWhitelist := effectiveOnWhitelist;
     Ten.inTenGroup := inTenGroup |}.

Definition evaluateTenPercent (rows : list Ten.Fee)
  (overrides : Ten.OverrideMap) (options : option RuleOptions)
  : Ten.Result :=
  let config := spread_options options in
  let evaluated := List.map (evaluate_row overrides config) rows in
  let eligibleRows := List.filter Ten.inTenGroup evaluated in
  let leBase :=
    B64.currency
      (B64.sum_of (fun row => B64.round (borrower (Ten.le (Ten.base row))))
         eligibleRows) in
  let cdTotal :=
    B64.currency
      (B64.sum_of (fun row => B64.round (borrower (Ten.cd (Ten.base row))))
         eligibleRows) in
  let allowedMax := B64.currency (B64.mul leBase (B64.round (11 # 10))) in
  let overage :=
    B64.currency (Num.Math_max 0 (B64.sub cdTotal allowedMax)) in
  let status := if Num.ltb 0 overage then OVER else GROUP_PASS in
  let lenderCredits := or_zero (B64.round (cfg_lenderCredits config)) in
  let evaluated :=
    if Num.ltb 0 overage && Num.leb overage lenderCredits
    then List.map (Ten.cure_row lenderCredits) evaluated
    else evaluated in
  {| Ten.rows := evaluated; Ten.leBase := leBase; Ten.cdTotal := cdTotal;
     Ten.allowedMax := allowedMax; Ten.overage := overage;
     Ten.group_status := status |}.

End Ten64.

Module Unlimited64.

(** A field that may be absent, as the number it denotes. *)
Definition number (x : option Q) : option Q := option_map B64.round x.

(** [(loanAmount * interestRate / 100 / 365) * perDiemDays], before
    [currency] rounds it. *)
Definition per_diem_interest (loanAmount interestRate perDiemDays : Q) : Q :=
  B64.mul (B64.div (B64.div (B64.mul loanAmount interestRate) 100) 365)
    perDiemDays.

Definition raw_per_diem (row : Unlimited.Fee) : Q :=
  per_diem_interest
    (B64.round (default 0 (Unlimited.loanAmount row)))
    (B64.round (default 0 (Unlimited.interestRate row)))
    (B64.round (default 0 (Unlimited.perDiemDays row))).

Definition expected_per_diem (row : Unlimited.Fee) : Q :=
  B64.currency (raw_per_diem row).

(** [Math.abs(row.cd.borrower - expectedPerDiem)] *)
Definition deviation (row : Unlimited.Fee) : Q :=
  Num.Math_abs
    (B64.sub (B64.round (borrower (Unlimited.cd row)))
       (expected_per_diem row)).

(** [x / y] with a divisor that may be a zero; [y_negzero] tells a zero [y]
    is the negative zero. *)
Definition div (x y : Q) (y_negzero : bool) : Ieee.t :=
  if Qeq_bool y 0 then
    if Qeq_bool x 0 then Ieee.NaN
    else if xorb (Num.ltb 0 x) y_negzero
         then Ieee.PosInfinity else Ieee.NegInfinity
  else Ieee.Finite (B64.div x y).

(** [e * k] for a positive finite [k]. *)
Definition scale (e : Ieee.t) (k : Q) : Ieee.t :=
  match e with
  | Ieee.Finite q => Ieee.Finite (B64.mul q k)
  | other => other
  end.

(** [(deviation / expectedPerDiem) * 100] *)
Definition deviation_percent (row : Unlimited.Fee) : Ieee.t :=
  scale
    (div (deviation row) (expected_per_diem row)
       (currency_is_negative_zero (raw_per_diem row)))
    100.

(** The guard of the per-diem interest check. *)
Definition per_diem_checked (row : Unlimited.Fee) : bool :=
  String.eqb (Unlimited.bucket row) "F" &&
  Unlimited.truthy (number (Unlimited.perDiemDays row)) &&
  Unlimited.truthy (number (Unlimited.loanAmount row)) &&
  Unlimited.truthy (number (Unlimited.interestRate row)) &&
  Num.ltb 0 (B64.round (borrower (Unlimited.cd row))).

Definition deviation_flag (row : Unlimited.Fee) : FlagDetail :=
  buildFlag PER_DIEM_INTEREST_DEVIATION
    [Lit "Expected "; Usd (expected_per_diem row);
     Lit ", actual "; Usd (B64.round (borrower (Unlimited.cd row)));
     Lit " ("; FixedIeee 1 (deviation_percent row); Lit "% deviation)"]
    warning None.

(** The callback of [rows.map]. *)
Definition evaluate_row (row : Unlimited.Fee) : Unlimited.DisplayRow :=
  let perDiemDays := number (Unlimited.perDiemDays row) in
  let escrowMonths := number (Unlimited.escrowMonths row) in
  let delta := borrowerDelta64 (Unlimited.le row) (Unlimited.cd row) in
  let flags0 :=
    push_if (String.eqb (Unlimited.bucket row) "F" &&
             Unlimited.truthy perDiemDays &&
             Unlimited.exceeds perDiemDays 15)
      (Unlimited.outlier_flag (default 0 perDiemDays)) [] in
  let flags1 :=
    push_if (per_diem_checked row && Ieee.gtb (deviation_percent row) 10)
      (deviation_flag row) flags0 in
  let flags2 :=
    push_if (String.eqb (Unlimited.bucket row) "G" &&
             Unlimited.truthy escrowMonths &&
             Unlimited.exceeds escrowMonths 2)
      (Unlimited.escrow_flag (default 0 escrowMonths)) flags1 in
  let flags3 :=
    push_if (String.eqb (Unlimited.bucket row) "H" &&
             default false (Unlimited.lenderRequired row) &&
             negb (default false (Unlimited.isOptional row)))
      Unlimited.optionality_flag flags2 in
  let status := if (0 <? length flags3)%nat then REVIEW else PASS in
  {| Unlimited.base := row; Unlimited.delta := delta;
     Unlimited.status := status; Unlimited.flags := flags3 |}.

Definition evaluateUnlimited (rows : list Unlimited.Fee)
  : list Unlimited.DisplayRow :=
  List.map evaluate_row rows.

End Unlimited64.

Module Page64.

(** The body of the [totalDifference] memo. *)
Definition total_difference (zeroA zeroB : Zero.Result) (ten : Ten.Result)
  (unlimitedRows : list Unlimited.DisplayRow) : Q :=
  let zeroADiff :=
    B64.sub (B64.round (Zero.subtotalCD zeroA))
      (B64.round (Zero.subtotalLE zeroA)) in
  let zeroBDiff :=
    B64.sub (B64.round (Zero.subtotalCD zeroB))
      (B64.round (Zero.subtotalLE zeroB)) in
  let tenPercentDiff :=
    B64.sub (B64.round (Ten.cdTotal ten)) (B64.round (Ten.leBase ten)) in
  let unlimitedDiff :=
    fold_left (fun sum row =>
      B64.add sum
        (B64.sub (B64.round (borrower (Unlimited.cd (Unlimited.base row))))
           (B64.round (borrower (Unlimited.le (Unlimited.base row))))))
      unlimitedRows 0 in
  B64.add (B64.add (B64.add zeroADiff zeroBDiff) tenPercentDiff) unlimitedDiff.

(** The memos of the page, for a dataset and an override map. *)
Definition evaluate (dataset : ToleranceDataset)
  (tenOverrides : Ten.OverrideMap) : Page.Evaluation :=
  let zeroA :=
    Zero64.evaluateZeroTolerance (origination dataset) BucketA None in
  let zeroB :=
    Zero64.evaluateZeroTolerance (cannotShop dataset) BucketB None in
  let ten :=
    Ten64.evaluateTenPercent (tenPercent dataset) tenOverrides None in
  let unlimitedRows := Unlimited64.evaluateUnlimited (unlimited dataset) in
  {| Page.zeroA := zeroA; Page.zeroB := zeroB; Page.tenPercentResult := ten;
     Page.unlimitedRows := unlimitedRows;
     Page.exceptions := collectExceptions zeroA zeroB ten unlimitedRows;
     Page.totalDifference :=
       total_difference zeroA zeroB ten unlimitedRows |}.

End Page64.

(** ** Vocabulary of the claims on binary64 figures *)

(** The decimal [x] is [n] cents, at most ten billion in magnitude. *)
Definition cents_amount (x : Q) (n : Z) : Prop :=
  x == n # 100 /\ (Z.abs n <= 10 ^ 12)%Z.

(** The delta rule (C1): [delta] is the number read from the two-decimal
    rounding of the binary64 difference [d] of the two amounts; [d] is
    within one rounding error of their real difference; and on whole-cent
    amounts [delta] is their difference in cents. *)
Definition delta_rule (le cd : PayerSplit) (delta : Q) : Prop :=
  let x := B64.round (borrower cd) - B64.round (borrower le) in
  let d := B64.sub (B64.round (borrower cd)) (B64.round (borrower le)) in
  delta = B64.round (round2 d) /\
  Qabs (d - x) <= Qabs x * 2 ^ (-53) + 2 ^ (-1075) /\
  (forall c l : Z,
     cents_amount (borrower cd) c -> cents_amount (borrower le) l ->
     delta = B64.round ((c - l) # 100)).

(** A zero-tolerance fee with the two borrower amounts. *)
Definition zero_fee_of (le cd : Q) : Zero.Fee :=
  {| Zero.id := "zero-1"; Zero.fee := "Origination Charge";
     Zero.permittedToShop := None;
     Zero.le := {| borrower := le; seller := None; other := None |};
     Zero.cd := {| borrower := cd; seller := None; other := None |};
     Zero.changeReason := [] |}.

(** The zero-tolerance row rule (C2), for one returned row; [thr] is the
    option zeroThreshold and [threshold] the number it denotes.  The last
    clause is the rule in whole cents: the delta is [k] cents, and against a
    threshold of [t] cents the row fails exactly when [k > t], with a cure
    of [k - t] cents. *)
Definition zero_row_rule64 (bucket : ZeroBucket) (thr : Q)
  (r : Zero.DisplayRow) : Prop :=
  let threshold := B64.round thr in
  (Zero.status r = FAIL <-> threshold < Zero.delta r) /\
  (bucket = BucketB /\ Zero.permittedToShop (Zero.base r) = Some true ->
     (exists f, In f (Zero.flags r) /\
        code f = SECTION_PLACEMENT_MISMATCH /\ severity f = warning) /\
     Zero.status r <> PASS /\
     (Zero.delta r <= threshold -> Zero.status r = REVIEW)) /\
  (~ (bucket = BucketB /\ Zero.permittedToShop (Zero.base r) = Some true) ->
     has_flag SECTION_PLACEMENT_MISMATCH (Zero.flags r) = false /\
     (Zero.delta r <= threshold -> Zero.status r = PASS)) /\
  (Zero.status r = FAIL ->
     (exists f, In f (Zero.flags r) /\
        code f = ZERO_LINE_OVERAGE /\ severity f = error /\
        label f = [Lit "Borrower owes $";
                   Fixed 2 (B64.sub (Zero.delta r) threshold);
                   Lit " over zero tolerance"]) /\
     Zero.cureAmount r =
       B64.round (round2 (B64.sub (Zero.delta r) threshold))) /\
  (Zero.status r <> FAIL ->
     has_flag ZERO_LINE_OVERAGE (Zero.flags r) = false /\
     Zero.cureAmount r = 0) /\
  (exists k : Z,
     Zero.delta r = B64.round (k # 100) /\
     forall t : Z,
       (Z.abs k <= 10 ^ 12)%Z -> (Z.abs t <= 10 ^ 12)%Z ->
       threshold = B64.round (t # 100) ->
       (Zero.status r = FAIL <-> (t < k)%Z) /\
       (Zero.status r = FAIL ->
        Zero.cureAmount r = B64.round ((k - t) # 100))).

(** The binary64 sum of a list of numbers, taken from the left as [reduce]
    does. *)
Definition total64 (l : list Q) : Q := fold_left B64.add l 0.

(** The ten-percent membership rule (C3), for one returned row. *)
Definition ten_group_rule64 (overrides : Ten.OverrideMap) (floor : Q)
  (r : Ten.DisplayRow) : Prop :=
  let row := Ten.base r in
  Ten.effectiveOnWhitelist r =
    default (Ten.onWhitelist row) (override_for overrides (Ten.id row)) /\
  (Ten.inTenGroup r = true <->
     (Ten.effectiveOnWhitelist r = true \/
      Ten.providerType row = "E" \/ Ten.isRecording row = Some true) /\
     ~ B64.round (Ten.matchConfidence row) < B64.round floor).

(** A whitelisted, confidently matched ten-percent fee. *)
Definition ten_fee_of (le cd : Q) : Ten.Fee :=
  TridData.ten_fee "ten-1" "Title - Settlement Agent" "Metro Title Co." "C"
    (96 # 100) true (TridData.split le None None)
    (TridData.split cd None None) EmptyString None.

(** The per-diem interest rule (C8), for the row [out] returned for the fee
    [row]: [raw] is the binary64 value of
    [(loanAmount * interestRate / 100 / 365) * perDiemDays], [expected] its
    currency rounding and [percent] the binary64 value of
    [(|cd.borrower - expected| / expected) * 100].  A zero field counts as
    absent, as in the source. *)
Definition per_diem_rule64 (row : Unlimited.Fee)
  (out : Unlimited.DisplayRow) : Prop :=
  (forall d l r : Q,
     Unlimited.bucket row = "F" ->
     Unlimited.perDiemDays row = Some d ->
     Unlimited.loanAmount row = Some l ->
     Unlimited.interestRate row = Some r ->
     let days := B64.round d in
     let loan := B64.round l in
     let rate := B64.round r in
     let charged := B64.round (borrower (Unlimited.cd row)) in
     ~ days == 0 -> ~ loan == 0 -> ~ rate == 0 -> 0 < charged ->
     let raw := B64.mul (B64.div (B64.div (B64.mul loan rate) 100) 365) days in
     let expected := B64.round (round2 raw) in
     let percent :=
       B64.mul (B64.div (Qabs (B64.sub charged expected)) expected) 100 in
     (has_flag PER_DIEM_INTEREST_DEVIATION (Unlimited.flags out) = true <->
        (~ expected == 0 /\ 10 < percent) \/ (expected == 0 /\ 0 <= raw)) /\
     (forall f, In f (Unlimited.flags out) ->
        code f = PER_DIEM_INTEREST_DEVIATION ->
        severity f = warning /\
        exists shown,
          label f = [Lit "Expected "; Usd expected; Lit ", actual ";
                     Usd charged; Lit " ("; FixedIeee 1 shown;
                     Lit "% deviation)"])) /\
  (has_flag PER_DIEM_INTEREST_DEVIATION (Unlimited.flags out) = true ->
   Unlimited.bucket row = "F" /\
   (exists d, Unlimited.perDiemDays row = Some d /\ ~ B64.round d == 0) /\
   (exists l, Unlimited.loanAmount row = Some l /\ ~ B64.round l == 0) /\
   (exists r, Unlimited.interestRate row = Some r /\ ~ B64.round r == 0) /\
   0 < B64.round (borrower (Unlimited.cd row))) /\
  (Unlimited.status out = REVIEW <-> Unlimited.flags out <> []) /\
  (Unlimited.status out = PASS <-> Unlimited.flags out = []).

(** A prepaid-interest fee of bucket "F". *)
Definition per_diem_fee_of (loanAmount interestRate perDiemDays le cd : Q)
  : Unlimited.Fee :=
  {| Unlimited.id := "unlimited-0"; Unlimited.bucket := "F";
     Unlimited.fee := "Prepaid Interest";
     Unlimited.le := {| borrower := le; seller := None; other := None |};
     Unlimited.cd := {| borrower := cd; seller := None; other := None |};
     Unlimited.changeReason := [];
     Unlimited.perDiemDays := Some perDiemDays;
     Unlimited.escrowMonths := None;
     Unlimited.isOptional := Some false;
     Unlimited.lenderRequired := None;
     Unlimited.loanAmount := Some loanAmount;
     Unlimited.interestRate := Some interestRate |}.

(** An unlimited fee of bucket "H" with the two borrower amounts. *)
Definition other_fee_of (id : string) (le cd : Q) : Unlimited.Fee :=
  {| Unlimited.id := id; Unlimited.bucket := "H";
     Unlimited.fee := "Owner's Title Insurance (optional)";
     Unlimited.le := {| borrower := le; seller := None; other := None |};
     Unlimited.cd := {| borrower := cd; seller := None; other := None |};
     Unlimited.changeReason := [];
     Unlimited.perDiemDays := None; Unlimited.escrowMonths := None;
     Unlimited.isOptional := Some true; Unlimited.lenderRequired := None;
     Unlimited.loanAmount := None; Unlimited.interestRate := None |}.

(** Two unlimited fees in whole cents whose changes cancel: 125.10 to
    149.30 (+24.20) and 80.20 to 56.00 (-24.20). *)
Definition sample_offsetting_dataset : ToleranceDataset :=
  {| origination := []; cannotShop := []; tenPercent := [];
     unlimited := [other_fee_of "unlimited-0" (12510 # 100) (14930 # 100);
                   other_fee_of "unlimited-1" (8020 # 100) (5600 # 100)] |}.

(** A run in which every call of [Math.random()] returns [c]. *)
Definition constant_draws (c : Q) : Transformer.Random := fun _ => c.

(** ** Basic facts on the numeric layer *)

Lemma ltb_lt (x y : Q) : Num.ltb x y = true <-> x < y.
Proof.
  unfold Num.ltb. rewrite negb_true_iff.
  split; intros H.
  - apply Qnot_le_lt. intros Hle. apply Qle_bool_iff in Hle. congruence.
  - destruct (Qle_bool y x) eqn:E; [|reflexivity].
    apply Qle_bool_iff in E. exfalso. apply (Qlt_not_le _ _ H E).
Qed.

Lemma ltb_ge (x y : Q) : Num.ltb x y = false <-> y <= x.
Proof.
  unfold Num.ltb. rewrite negb_false_iff. apply Qle_bool_iff.
Qed.

Lemma leb_le (x y : Q) : Num.leb x y = true <-> x <= y.
Proof. apply Qle_bool_iff. Qed.

Lemma truthy_nonzero (x : Q) : Num.truthy x = true <-> ~ x == 0.
Proof.
  unfold Num.truthy. rewrite negb_true_iff. split; intros H.
  - now apply Qeq_bool_neq.
  - destruct (Qeq_bool x 0) eqn:E; [|reflexivity].
    apply Qeq_bool_iff in E. contradiction.
Qed.

Lemma nearest_larger_bounds (y : Q) :
  y - (1 # 2) < inject_Z (Num.nearest_larger y) /\
  inject_Z (Num.nearest_larger y) <= y + (1 # 2).
Proof.
  unfold Num.nearest_larger. split.
  - pose proof (Qlt_floor (y + (1 # 2))) as H.
    rewrite inject_Z_plus in H. change (inject_Z 1) with 1 in H. lra.
  - apply Qfloor_le.
Qed.

Lemma nearest_larger_mono (x y : Q) :
  x <= y -> (Num.nearest_larger x <= Num.nearest_larger y)%Z.
Proof.
  intros H. unfold Num.nearest_larger. apply Qfloor_resp_le. lra.
Qed.

Lemma nearest_larger_Z (z : Z) : Num.nearest_larger (inject_Z z) = z.
Proof.
  unfold Num.nearest_larger.
  assert (H1 : (z <= Qfloor (inject_Z z + (1 # 2)))%Z).
  { rewrite <- (Qfloor_Z z) at 1. apply Qfloor_resp_le. lra. }
  assert (H2 : (Qfloor (inject_Z z + (1 # 2)) < z + 1)%Z).
  { rewrite Zlt_Qlt. eapply Qle_lt_trans; [apply Qfloor_le|].
    rewrite inject_Z_plus. change (inject_Z 1) with 1. lra. }
  lia.
Qed.

Lemma nearest_larger_nonneg (y : Q) : 0 <= y -> (0 <= Num.nearest_larger y)%Z.
Proof.
  intros H. rewrite <- (nearest_larger_Z 0) at 1.
  apply nearest_larger_mono. exact H.
Qed.

Lemma toFixed_units_mono (f : nat) (x y : Q) :
  x <= y -> (Num.toFixed_units f x <= Num.toFixed_units f y)%Z.
Proof.
  intros Hxy. unfold Num.toFixed_units.
  assert (Hp : 0 < inject_Z (Num.pow10 f)).
  { change 0 with (inject_Z 0). rewrite <- Zlt_Qlt. unfold Num.pow10.
    apply Z.pow_pos_nonneg; lia. }
  destruct (Num.ltb x 0) eqn:Ex; destruct (Num.ltb y 0) eqn:Ey.
  - apply ltb_lt in Ex, Ey.
    apply Z.opp_le_mono. rewrite !Z.opp_involutive.
    apply nearest_larger_mono. nra.
  - apply ltb_lt in Ex. apply ltb_ge in Ey.
    pose proof (nearest_larger_nonneg (- x * inject_Z (Num.pow10 f))) as H1.
    pose proof (nearest_larger_nonneg (y * inject_Z (Num.pow10 f))) as H2.
    assert (0 <= - x * inject_Z (Num.pow10 f)) by nra.
    assert (0 <= y * inject_Z (Num.pow10 f)) by nra.
    specialize (H1 ltac:(assumption)). specialize (H2 ltac:(assumption)). lia.
  - apply ltb_ge in Ex. apply ltb_lt in Ey. lra.
  - apply ltb_ge in Ex, Ey. apply nearest_larger_mono. nra.
Qed.

Lemma ltb_comp (x x' y y' : Q) : x == x' -> y == y' -> Num.ltb x y = Num.ltb x' y'.
Proof. intros Hx Hy. unfold Num.ltb. now rewrite Hx, Hy. Qed.

Lemma nearest_larger_comp (x y : Q) :
  x == y -> Num.nearest_larger x = Num.nearest_larger y.
Proof. intros H. unfold Num.nearest_larger. now rewrite H. Qed.

Lemma toFixed_units_comp (f : nat) (x y : Q) :
  x == y -> Num.toFixed_units f x = Num.toFixed_units f y.
Proof.
  intros H. unfold Num.toFixed_units.
  rewrite (ltb_comp x y 0 0 H (Qeq_refl 0)).
  destruct (Num.ltb y 0).
  - f_equal. apply nearest_larger_comp. now rewrite H.
  - apply nearest_larger_comp. now rewrite H.
Qed.

Lemma currency_comp (x y : Q) : x == y -> currency x = currency y.
Proof. intros H. unfold currency. now rewrite (toFixed_units_comp 2 x y H). Qed.

Lemma currency_mono (x y : Q) : x <= y -> currency x <= currency y.
Proof.
  intros H. unfold currency, Qle. simpl.
  apply Z.mul_le_mono_nonneg_r; [lia|]. now apply toFixed_units_mono.
Qed.

Lemma toFixed_units_cents (n : Z) : Num.toFixed_units 2 (n # 100) = n.
Proof.
  unfold Num.toFixed_units.
  assert (E : (n # 100) * inject_Z (Num.pow10 2) == inject_Z n).
  { unfold Qeq, Num.pow10. simpl. lia. }
  destruct (Num.ltb (n # 100) 0) eqn:Ex.
  - assert (E' : - (n # 100) * inject_Z (Num.pow10 2) == inject_Z (- n)).
    { rewrite inject_Z_opp, <- E. ring. }
    rewrite (nearest_larger_comp _ _ E'), nearest_larger_Z. lia.
  - now rewrite (nearest_larger_comp _ _ E), nearest_larger_Z.
Qed.

Lemma currency_idempotent (x : Q) : currency (currency x) = currency x.
Proof. unfold currency. now rewrite toFixed_units_cents. Qed.

Lemma currency_of_cents (x : Q) : is_cents x -> currency x == x.
Proof.
  intros [n Hn]. rewrite (currency_comp _ _ Hn). unfold currency.
  rewrite toFixed_units_cents. now symmetry.
Qed.

Lemma currency_is_cents (x : Q) : is_cents (currency x).
Proof. exists (Num.toFixed_units 2 x). reflexivity. Qed.

Lemma currency_zero : currency 0 == 0.
Proof. reflexivity. Qed.

Lemma currency_nonneg (x : Q) : 0 <= x -> 0 <= currency x.
Proof. intros H. rewrite <- currency_zero. now apply currency_mono. Qed.

Lemma currency_nonpos (x : Q) : x <= 0 -> currency x <= 0.
Proof. intros H. rewrite <- currency_zero. now apply currency_mono. Qed.

(** [currency] is the rounding of the specification. *)
Lemma currency_round2 (x : Q) : currency x = round2 x.
Proof.
  unfold currency, round2, Num.toFixed_units. cbv zeta.
  change (inject_Z (Num.pow10 2)) with 100.
  unfold Num.ltb.
  assert (E : Qle_bool 0 x = Qle_bool 0 (x * 100)).
  { apply eq_true_iff_eq. rewrite !Qle_bool_iff. split; intros; nra. }
  rewrite <- E. destruct (Qle_bool 0 x); cbn [negb].
  - reflexivity.
  - f_equal. unfold Qceiling, Num.nearest_larger. f_equal.
    apply Qfloor_comp. ring.
Qed.

(** [round2 x] is a nearest multiple of 0.01 ... *)
Lemma round2_nearest (x : Q) : Qabs (round2 x - x) <= 1 # 200.
Proof.
  rewrite <- currency_round2. unfold currency, Num.toFixed_units.
  change (inject_Z (Num.pow10 2)) with 100.
  apply Qabs_Qle_condition.
  destruct (Num.ltb x 0).
  - destruct (nearest_larger_bounds (- x * 100)) as [H1 H2].
    remember (Num.nearest_larger (- x * 100)) as n eqn:Hn; clear Hn.
    assert (E : (- n # 100) == - inject_Z n * (1 # 100)).
    { unfold Qeq. simpl. lia. }
    rewrite E. split; lra.
  - destruct (nearest_larger_bounds (x * 100)) as [H1 H2].
    remember (Num.nearest_larger (x * 100)) as n eqn:Hn; clear Hn.
    assert (E : (n # 100) == inject_Z n * (1 # 100)).
    { unfold Qeq. simpl. lia. }
    rewrite E. split; lra.
Qed.

(** ... and on a tie it is the one away from zero. *)
Lemma round2_tie_away (x : Q) :
  Qabs (round2 x - x) == 1 # 200 -> Qabs x < Qabs (round2 x).
Proof.
  rewrite <- currency_round2. unfold currency, Num.toFixed_units.
  change (inject_Z (Num.pow10 2)) with 100.
  destruct (Num.ltb x 0) eqn:Ex.
  - apply ltb_lt in Ex.
    destruct (nearest_larger_bounds (- x * 100)) as [H1 H2].
    remember (Num.nearest_larger (- x * 100)) as n eqn:Hn; clear Hn.
    assert (E : (- n # 100) == - inject_Z n * (1 # 100)).
    { unfold Qeq. simpl. lia. }
    rewrite E. intros H.
    assert (Hn : - inject_Z n * (1 # 100) < x).
    { destruct (Qlt_le_dec (- inject_Z n * (1 # 100)) x) as [L|L]; [exact L|].
      rewrite Qabs_pos in H by lra. lra. }
    rewrite (Qabs_neg x) by lra. rewrite Qabs_neg by lra. lra.
  - apply ltb_ge in Ex.
    destruct (nearest_larger_bounds (x * 100)) as [H1 H2].
    remember (Num.nearest_larger (x * 100)) as n eqn:Hn; clear Hn.
    assert (E : (n # 100) == inject_Z n * (1 # 100)).
    { unfold Qeq. simpl. lia. }
    rewrite E. intros H.
    assert (Hn : x < inject_Z n * (1 # 100)).
    { destruct (Qlt_le_dec x (inject_Z n * (1 # 100))) as [L|L]; [exact L|].
      rewrite Qabs_neg in H by lra. lra. }
    rewrite (Qabs_pos x) by lra. rewrite Qabs_pos by lra. lra.
Qed.

(** ** Shape of the evaluators' output *)

Lemma Zero_cure_row_frame (L T : Q) (r : Zero.DisplayRow) :
  Zero.base (Zero.cure_row L T r) = Zero.base r /\
  Zero.delta (Zero.cure_row L T r) = Zero.delta r /\
  Zero.status (Zero.cure_row L T r) = Zero.status r /\
  Zero.cureAmount (Zero.cure_row L T r) = Zero.cureAmount r.
Proof. unfold Zero.cure_row. destruct (_ && _); cbn; auto. Qed.

Lemma Ten_cure_row_frame (L : Q) (r : Ten.DisplayRow) :
  Ten.base (Ten.cure_row L r) = Ten.base r /\
  Ten.delta (Ten.cure_row L r) = Ten.delta r /\
  Ten.status (Ten.cure_row L r) = Ten.status r /\
  Ten.effectiveOnWhitelist (Ten.cure_row L r) = Ten.effectiveOnWhitelist r /\
  Ten.inTenGroup (Ten.cure_row L r) = Ten.inTenGroup r.
Proof. unfold Ten.cure_row. destruct (_ && _); cbn; auto 6. Qed.

(** The rows of a zero-tolerance result are the evaluated input rows, each
    possibly passed through the lender-credit annotation. *)
Lemma Zero_rows_shape (rows : list Zero.Fee) (bucket : ZeroBucket)
  (options : option RuleOptions) :
  exists g : Zero.DisplayRow -> Zero.DisplayRow,
    (forall r, g r = r \/ exists L T, g r = Zero.cure_row L T r) /\
    Zero.rows (Zero.evaluateZeroTolerance rows bucket options) =
    List.map (fun row => g (Zero.evaluate_row bucket (spread_options options) row))
      rows.
Proof.
  unfold Zero.evaluateZeroTolerance. cbn [Zero.rows].
  destruct (_ && _).
  - eexists (Zero.cure_row _ _). split.
    + intros r. right. eauto.
    + now rewrite map_map.
  - exists (fun r => r). split; [now left|]. reflexivity.
Qed.

Lemma Ten_rows_shape (rows : list Ten.Fee) (overrides : Ten.OverrideMap)
  (options : option RuleOptions) :
  exists g : Ten.DisplayRow -> Ten.DisplayRow,
    (forall r, g r = r \/ exists L, g r = Ten.cure_row L r) /\
    Ten.rows (Ten.evaluateTenPercent rows overrides options) =
    List.map (fun row => g (Ten.evaluate_row overrides (spread_options options) row))
      rows.
Proof.
  unfold Ten.evaluateTenPercent. cbn [Ten.rows].
  destruct (_ && _).
  - eexists (Ten.cure_row _). split.
    + intros r. right. eauto.
    + now rewrite map_map.
  - exists (fun r => r). split; [now left|]. reflexivity.
Qed.

(** A property of evaluated rows that the annotation cannot see holds of
    every row of the result. *)
Lemma Zero_rows_Forall_in (P : Zero.DisplayRow -> Prop)
  (rows : list Zero.Fee) (bucket : ZeroBucket) (options : option RuleOptions) :
  (forall r L T, P r -> P (Zero.cure_row L T r)) ->
  (forall row, In row rows ->
     P (Zero.evaluate_row bucket (spread_options options) row)) ->
  Forall P (Zero.rows (Zero.evaluateZeroTolerance rows bucket options)).
Proof.
  intros Hcure Hrow.
  destruct (Zero_rows_shape rows bucket options) as (g & Hg & ->).
  apply List.Forall_map, List.Forall_forall. intros row Hin.
  destruct (Hg (Zero.evaluate_row bucket (spread_options options) row))
    as [-> | (L & T & ->)];
    [apply Hrow | apply Hcure, Hrow]; exact Hin.
Qed.

Lemma Zero_rows_Forall (P : Zero.DisplayRow -> Prop) (rows : list Zero.Fee)
  (bucket : ZeroBucket) (options : option RuleOptions) :
  (forall r L T, P r -> P (Zero.cure_row L T r)) ->
  (forall row, P (Zero.evaluate_row bucket (spread_options options) row)) ->
  Forall P (Zero.rows (Zero.evaluateZeroTolerance rows bucket options)).
Proof. intros Hcure Hrow. apply Zero_rows_Forall_in; auto. Qed.

Lemma Ten_rows_Forall (P : Ten.DisplayRow -> Prop) (rows : list Ten.Fee)
  (overrides : Ten.OverrideMap) (options : option RuleOptions) :
  (forall r L, P r -> P (Ten.cure_row L r)) ->
  (forall row, P (Ten.evaluate_row overrides (spread_options options) row)) ->
  Forall P (Ten.rows (Ten.evaluateTenPercent rows overrides options)).
Proof.
  intros Hcure Hrow.
  destruct (Ten_rows_shape rows overrides options) as (g & Hg & ->).
  apply List.Forall_map, List.Forall_forall. intros row _.
  destruct (Hg (Ten.evaluate_row overrides (spread_options options) row))
    as [-> | (L & ->)]; auto.
Qed.


(** ** The rows of [evaluateZeroTolerance] *)

Lemma has_flag_app (c : ToleranceFlag) (l1 l2 : list FlagDetail) :
  has_flag c (l1 ++ l2) = has_flag c l1 || has_flag c l2.
Proof. unfold has_flag. apply existsb_app. Qed.

Lemma RowStatus_eqb_eq (a b : RowStatus) : RowStatus_eqb a b = true <-> a = b.
Proof. destruct a, b; cbn; split; congruence. Qed.

(** What [evaluate_row] returns, by cases on the two tests it makes. *)
Lemma Zero_evaluate_row_cases (bucket : ZeroBucket) (config : Config)
  (row : Zero.Fee) :
  let delta := borrowerDelta (Zero.le row) (Zero.cd row) in
  let thr := cfg_zeroThreshold config in
  Zero.evaluate_row bucket config row =
  match Num.ltb thr delta, Zero.misplaced bucket row with
  | true, true =>
      {| Zero.base := row; Zero.delta := delta; Zero.status := FAIL;
         Zero.flags := [Zero.overage_flag delta thr; Zero.placement_flag];
         Zero.cureAmount := currency (delta - thr) |}
  | true, false =>
      {| Zero.base := row; Zero.delta := delta; Zero.status := FAIL;
         Zero.flags := [Zero.overage_flag delta thr];
         Zero.cureAmount := currency (delta - thr) |}
  | false, true =>
      {| Zero.base := row; Zero.delta := delta; Zero.status := REVIEW;
         Zero.flags := [Zero.placement_flag]; Zero.cureAmount := 0 |}
  | false, false =>
      {| Zero.base := row; Zero.delta := delta; Zero.status := PASS;
         Zero.flags := []; Zero.cureAmount := 0 |}
  end.
Proof.
  cbv zeta. unfold Zero.evaluate_row. cbv zeta.
  destruct (Num.ltb _ _), (Zero.misplaced bucket row); reflexivity.
Qed.

Lemma Zero_misplaced_iff (bucket : ZeroBucket) (row : Zero.Fee) :
  Zero.misplaced bucket row = true <->
  bucket = BucketB /\ Zero.permittedToShop row = Some true.
Proof.
  unfold Zero.misplaced. destruct bucket.
  - split; [discriminate|]. intros [H _]. discriminate.
  - destruct (Zero.permittedToShop row) as [[|]|]; cbn; split;
      intros; try discriminate; intuition congruence.
Qed.

(** ** The ten-percent group *)

Lemma sum_of_total {T : Type} (f : T -> Q) (l : list T) :
  sum_of f l == total (List.map f l).
Proof.
  unfold sum_of.
  assert (H : forall a, fold_left (fun sum row => sum + f row) l a
                        == a + total (List.map f l)).
  { induction l as [|x l IH]; intros a; cbn [List.map fold_left].
    - unfold total. cbn [fold_right]. ring.
    - rewrite IH. unfold total. cbn [fold_right]. ring. }
  rewrite H. ring.
Qed.

Lemma Ten_recording_iff (row : Ten.Fee) :
  Ten.recording row = true <->
  Ten.providerType row = "E" \/ Ten.isRecording row = Some true.
Proof.
  unfold Ten.recording. rewrite orb_true_iff, String.eqb_eq.
  destruct (Ten.isRecording row) as [[|]|]; cbn; intuition congruence.
Qed.

Lemma Ten_effective_override (overrides : Ten.OverrideMap) (row : Ten.Fee) :
  Ten.effective overrides row =
  default (Ten.onWhitelist row) (override_for overrides (Ten.id row)).
Proof.
  unfold Ten.effective, override_for.
  destruct (overrides !! Ten.id row) as [[[b|]]|]; reflexivity.
Qed.

Lemma Math_max_zero_currency (d : Q) :
  currency (Num.Math_max 0 d) == Qmax 0 (currency d).
Proof.
  unfold Num.Math_max. destruct (Num.ltb 0 d) eqn:E.
  - apply ltb_lt in E. rewrite Q.max_r; [reflexivity|].
    apply currency_nonneg. lra.
  - apply ltb_ge in E. rewrite Q.max_l; [reflexivity|].
    now apply currency_nonpos.
Qed.

(** ** C4: the payer-split getters *)

(** [getBorrowerAmount] returns the amount of every item that has one,
    whatever its payer and sub-label say. *)
Lemma getBorrowerAmount_ignores_tags (item : Backend.LineItem) (a : Q) :
  Backend.amount item = Some a ->
  Transformer.getBorrowerAmount (Some item) = a.
Proof.
  intros H. unfold Transformer.getBorrowerAmount. rewrite H.
  destruct (Transformer.payer_is _ _); [reflexivity|].
  now destruct (Transformer.sub_label_includes _ _).
Qed.

(** The parts of C4 the code does satisfy: 0 for an absent item or amount,
    and seller/other amounts on an explicit tag only. *)
Lemma payer_getters_absent_and_tagged :
  Transformer.getBorrowerAmount None = 0 /\
  Transformer.getSellerAmount None = 0 /\
  Transformer.getOtherAmount None = 0 /\
  (forall item, Backend.amount item = None ->
     Transformer.getBorrowerAmount (Some item) = 0 /\
     Transformer.getSellerAmount (Some item) = 0 /\
     Transformer.getOtherAmount (Some item) = 0) /\
  (forall item a, Backend.amount item = Some a ->
     Transformer.getSellerAmount (Some item) =
       (if Transformer.payer_is item Backend.payer_seller ||
           Transformer.sub_label_includes item "seller" then a else 0) /\
     Transformer.getOtherAmount (Some item) =
       (if Transformer.payer_is item Backend.payer_other ||
           Transformer.sub_label_includes item "others" then a else 0)).
Proof.
  repeat split; try reflexivity;
    unfold Transformer.getBorrowerAmount, Transformer.getSellerAmount,
      Transformer.getOtherAmount;
    match goal with H : Backend.amount _ = _ |- _ => now rewrite H end.
Qed.

(** C4, the code at the failing input: an item tagged seller-paid, by its
    payer and by its sub-label, is attributed in full to the borrower (and
    to the seller as well), where C4 gives the borrower 0. *)
Theorem C4_seller_tagged_item_counts_for_borrower :
  let item :=
    {| Backend.label := Some "Transfer Taxes";
       Backend.amount := Some 500;
       Backend.sub_label := Some Backend.seller_paid_at_closing;
       Backend.payer := Some Backend.payer_seller;
       Backend.timing := Some Backend.at_closing |} in
  Transformer.getBorrowerAmount (Some item) = 500 /\
  Transformer.getSellerAmount (Some item) = 500 /\
  Transformer.getOtherAmount (Some item) = 0.
Proof. repeat split; reflexivity. Qed.

(** ** C5: lender credits only annotate *)

Lemma spread_set_lender_credits (options : option RuleOptions)
  (credits : option Q) :
  let c := spread_options (set_lender_credits options credits) in
  cfg_zeroThreshold c = cfg_zeroThreshold (spread_options options) /\
  cfg_reviewConfidenceFloor c =
    cfg_reviewConfidenceFloor (spread_options options) /\
  cfg_reviewConfidenceCeil c =
    cfg_reviewConfidenceCeil (spread_options options) /\
  cfg_lenderCredits c = default 0 credits.
Proof. destruct options as [o|]; cbn; auto. Qed.

Lemma Zero_evaluate_row_config (bucket : ZeroBucket) (c1 c2 : Config)
  (row : Zero.Fee) :
  cfg_zeroThreshold c1 = cfg_zeroThreshold c2 ->
  Zero.evaluate_row bucket c1 row = Zero.evaluate_row bucket c2 row.
Proof. intros H. unfold Zero.evaluate_row. now rewrite H. Qed.

Lemma Ten_evaluate_row_config (overrides : Ten.OverrideMap) (c1 c2 : Config)
  (row : Ten.Fee) :
  cfg_reviewConfidenceFloor c1 = cfg_reviewConfidenceFloor c2 ->
  cfg_reviewConfidenceCeil c1 = cfg_reviewConfidenceCeil c2 ->
  Ten.evaluate_row overrides c1 row = Ten.evaluate_row overrides c2 row.
Proof. intros H1 H2. unfold Ten.evaluate_row. now rewrite H1, H2. Qed.

Lemma sum_of_map_ext {T : Type} (f : T -> Q) (g : T -> T) (l : list T) :
  (forall r, f (g r) = f r) -> sum_of f (List.map g l) = sum_of f l.
Proof.
  intros H. unfold sum_of. generalize 0.
  induction l as [|x l IH]; intros a; cbn [List.map fold_left];
    [reflexivity|].
  now rewrite H, IH.
Qed.

Lemma Zero_count_status_map (s : RowStatus)
  (g : Zero.DisplayRow -> Zero.DisplayRow) (l : list Zero.DisplayRow) :
  (forall r, Zero.status (g r) = Zero.status r) ->
  Zero.count_status s (List.map g l) = Zero.count_status s l.
Proof.
  intros H. unfold Zero.count_status.
  induction l as [|x l IH]; [reflexivity|]. cbn [List.map List.filter].
  rewrite H. destruct (RowStatus_eqb _ _); cbn [length]; now rewrite IH.
Qed.

Lemma total_member_le (l : list Q) (x : Q) :
  Forall (fun y => 0 <= y) l -> In x l -> x <= total l.
Proof.
  unfold total. induction 1 as [|y l Hy Hl IH]; intros Hin; [destruct Hin|].
  assert (Hnn : 0 <= fold_right Qplus 0 l).
  { clear IH Hin. induction Hl as [|z l Hz _ IH]; cbn [fold_right]; lra. }
  cbn [fold_right]. destruct Hin as [<- | Hin]; [lra|].
  specialize (IH Hin). lra.
Qed.

Lemma Zero_cure_nonneg_cents (bucket : ZeroBucket) (config : Config)
  (row : Zero.Fee) :
  let r := Zero.evaluate_row bucket config row in
  0 <= Zero.cureAmount r /\ currency (Zero.cureAmount r) == Zero.cureAmount r.
Proof.
  cbv zeta. rewrite Zero_evaluate_row_cases. cbv zeta.
  destruct (Num.ltb _ _) eqn:E; destruct (Zero.misplaced _ _);
    cbn [Zero.cureAmount];
    try (split; [lra | reflexivity]);
    apply ltb_lt in E;
    (split; [apply currency_nonneg; lra | now rewrite currency_idempotent]).
Qed.

(** A row with a positive cure makes the total cure positive. *)
Lemma Zero_positive_cure_total (bucket : ZeroBucket) (config : Config)
  (rows : list Zero.Fee) (r : Zero.DisplayRow) :
  In r (List.map (Zero.evaluate_row bucket config) rows) ->
  0 < Zero.cureAmount r ->
  0 < currency (sum_of Zero.cureAmount
                  (List.map (Zero.evaluate_row bucket config) rows)).
Proof.
  intros Hin Hpos.
  assert (Hr : currency (Zero.cureAmount r) == Zero.cureAmount r).
  { apply in_map_iff in Hin as (row & <- & _).
    apply Zero_cure_nonneg_cents. }
  rewrite <- Hr in Hpos. eapply Qlt_le_trans; [exact Hpos|].
  apply currency_mono. rewrite sum_of_total.
  apply total_member_le.
  - apply List.Forall_map, List.Forall_map, List.Forall_forall. intros row _.
    apply Zero_cure_nonneg_cents.
  - now apply in_map.
Qed.

Lemma Forall2_map_r {T : Type} (R : T -> T -> Prop) (g : T -> T)
  (l : list T) :
  (forall x, In x l -> R x (g x)) -> Forall2 R l (List.map g l).
Proof.
  induction l as [|x l IH]; intros H; cbn [List.map]; constructor.
  - apply H. now left.
  - apply IH. intros y Hy. apply H. now right.
Qed.

Lemma or_zero_positive (x : Q) : 0 < x -> or_zero x = x.
Proof.
  intros H. unfold or_zero.
  destruct (Num.truthy x) eqn:E; [reflexivity|].
  exfalso. assert (Ht : Num.truthy x = true) by (apply truthy_nonzero; lra).
  congruence.
Qed.

Lemma Zero_cure_row_annotated (L T : Q) (r : Zero.DisplayRow) :
  T <= L -> zero_annotated r (Zero.cure_row L T r).
Proof.
  intros HT. unfold Zero.cure_row, zero_annotated.
  apply leb_le in HT. rewrite HT, andb_true_r.
  destruct (Num.ltb 0 (Zero.cureAmount r)) eqn:E;
    cbn [Zero.base Zero.delta Zero.status Zero.cureAmount Zero.flags];
    repeat (split; [reflexivity|]).
  - left. apply ltb_lt in E. split; [exact E|].
    exists (Zero.cured_flag L). now cbn.
  - right. apply ltb_ge in E. split; [lra | reflexivity].
Qed.

Lemma Ten_cure_row_annotated (L : Q) (r : Ten.DisplayRow) :
  ten_annotated r (Ten.cure_row L r).
Proof.
  unfold Ten.cure_row, ten_annotated.
  destruct (Ten.inTenGroup r) eqn:Eg; cbn [andb];
    [destruct (Num.ltb 0 (Ten.delta r)) eqn:E|];
    cbn [Ten.base Ten.delta Ten.status Ten.effectiveOnWhitelist
         Ten.inTenGroup Ten.flags];
    repeat (split; [solve [reflexivity | assumption]|]).
  - left. apply ltb_lt in E. repeat (split; [solve [reflexivity | assumption]|]).
    exists (Ten.cured_flag L). now cbn.
  - right. apply ltb_ge in E. split; [|reflexivity]. intros [_ H]. lra.
  - right. split; [|reflexivity]. intros [H _]. congruence.
Qed.

(** C5.  Both evaluators, run with a lender credit [L > 0] that covers the
    cure (zero tolerance: [L >= totalCureNeeded]; ten percent:
    [overage > 0] and [L >= overage]), return what they return without any
    credit, except that every affected row (positive cureAmount, resp.
    in-group with positive delta) has one more flag, a CURED_BY_LENDER
    warning: row statuses, deltas, cure amounts, group membership and every
    aggregate figure, the OVER status included, are unchanged. *)
Theorem C5_lender_credit_only_annotates :
  (forall (rows : list Zero.Fee) (bucket : ZeroBucket)
          (options : option RuleOptions) (L : Q),
     let res0 := Zero.evaluateZeroTolerance rows bucket
                   (set_lender_credits options None) in
     let res := Zero.evaluateZeroTolerance rows bucket
                  (set_lender_credits options (Some L)) in
     0 < L -> Zero.totalCure res0 <= L ->
     Forall2 zero_annotated (Zero.rows res0) (Zero.rows res) /\
     Zero.subtotalLE res = Zero.subtotalLE res0 /\
     Zero.subtotalCD res = Zero.subtotalCD res0 /\
     Zero.passCount res = Zero.passCount res0 /\
     Zero.failCount res = Zero.failCount res0 /\
     Zero.reviewCount res = Zero.reviewCount res0 /\
     Zero.totalCure res = Zero.totalCure res0) /\
  (forall (rows : list Ten.Fee) (overrides : Ten.OverrideMap)
          (options : option RuleOptions) (L : Q),
     let res0 := Ten.evaluateTenPercent rows overrides
                   (set_lender_credits options None) in
     let res := Ten.evaluateTenPercent rows overrides
                  (set_lender_credits options (Some L)) in
     0 < L -> 0 < Ten.overage res0 -> Ten.overage res0 <= L ->
     Forall2 ten_annotated (Ten.rows res0) (Ten.rows res) /\
     Ten.leBase res = Ten.leBase res0 /\
     Ten.cdTotal res = Ten.cdTotal res0 /\
     Ten.allowedMax res = Ten.allowedMax res0 /\
     Ten.overage res = Ten.overage res0 /\
     Ten.group_status res = OVER /\
     Ten.group_status res0 = OVER).
Proof.
  split.
  - intros rows bucket options L res0 res HL Hcover.
    subst res0 res. revert Hcover. unfold Zero.evaluateZeroTolerance.
    destruct (spread_set_lender_credits options None) as (Ht0 & _ & _ & HL0).
    destruct (spread_set_lender_credits options (Some L))
      as (Ht1 & _ & _ & HL1).
    rewrite HL0, HL1.
    change (default 0 (Some L)) with L. change (default 0 None) with 0.
    rewrite (or_zero_positive L HL).
    change (or_zero 0) with 0. change (Num.ltb 0 0) with false. cbn [andb].
    set (config := spread_options (set_lender_credits options None)).
    assert (Heval :
      List.map (Zero.evaluate_row bucket
        (spread_options (set_lender_credits options (Some L)))) rows =
      List.map (Zero.evaluate_row bucket config) rows).
    { apply map_ext. intros row. apply Zero_evaluate_row_config.
      exact (eq_trans Ht1 (eq_sym Ht0)). }
    rewrite Heval. clear Heval.
    set (evaluated := List.map (Zero.evaluate_row bucket config) rows).
    cbn [Zero.totalCure Zero.rows Zero.subtotalLE Zero.subtotalCD
         Zero.passCount Zero.failCount Zero.reviewCount].
    intros Hcover.
    assert (HL' : Num.ltb 0 L = true) by now apply ltb_lt.
    rewrite HL'. cbn [andb].
    destruct (Num.ltb 0 (currency (sum_of Zero.cureAmount evaluated))) eqn:ET.
    + assert (Hf : forall r,
        Zero.base (Zero.cure_row L
          (currency (sum_of Zero.cureAmount evaluated)) r) = Zero.base r /\
        Zero.status (Zero.cure_row L
          (currency (sum_of Zero.cureAmount evaluated)) r) = Zero.status r /\
        Zero.cureAmount (Zero.cure_row L
          (currency (sum_of Zero.cureAmount evaluated)) r) = Zero.cureAmount r).
      { intros r. destruct (Zero_cure_row_frame L
          (currency (sum_of Zero.cureAmount evaluated)) r) as (? & _ & ? & ?).
        auto. }
      split; [|repeat split].
      * apply Forall2_map_r. intros r _. now apply Zero_cure_row_annotated.
      * f_equal. apply sum_of_map_ext. intros r.
        now destruct (Hf r) as (-> & _).
      * f_equal. apply sum_of_map_ext. intros r.
        now destruct (Hf r) as (-> & _).
      * apply Zero_count_status_map. intros r. apply Hf.
      * apply Zero_count_status_map. intros r. apply Hf.
      * apply Zero_count_status_map. intros r. apply Hf.
      * f_equal. apply sum_of_map_ext. intros r. apply Hf.
    + split; [|repeat split; reflexivity].
      rewrite <- (map_id evaluated) at 2.
      apply Forall2_map_r. intros r Hin. unfold zero_annotated.
      repeat (split; [reflexivity|]). right. split; [|reflexivity].
      intros Hpos. apply ltb_ge in ET.
      pose proof (Zero_positive_cure_total bucket config rows r Hin Hpos).
      fold evaluated in H. lra.
  - intros rows overrides options L res0 res HL.
    subst res0 res. unfold Ten.evaluateTenPercent.
    destruct (spread_set_lender_credits options None) as (_ & Hf0 & Hc0 & HL0).
    destruct (spread_set_lender_credits options (Some L))
      as (_ & Hf1 & Hc1 & HL1).
    rewrite HL0, HL1.
    change (default 0 (Some L)) with L. change (default 0 None) with 0.
    rewrite (or_zero_positive L HL). change (or_zero 0) with 0.
    set (config := spread_options (set_lender_credits options None)).
    assert (Heval :
      List.map (Ten.evaluate_row overrides
        (spread_options (set_lender_credits options (Some L)))) rows =
      List.map (Ten.evaluate_row overrides config) rows).
    { apply map_ext. intros row. apply Ten_evaluate_row_config.
      - exact (eq_trans Hf1 (eq_sym Hf0)).
      - exact (eq_trans Hc1 (eq_sym Hc0)). }
    rewrite Heval. clear Heval.
    set (evaluated := List.map (Ten.evaluate_row overrides config) rows).
    cbn [Ten.rows Ten.leBase Ten.cdTotal Ten.allowedMax Ten.overage
         Ten.group_status].
    set (overage := currency (Num.Math_max 0 _)).
    intros Hover Hcover.
    assert (E1 : Num.ltb 0 overage = true) by now apply ltb_lt.
    assert (E2 : Num.leb overage L = true) by now apply leb_le.
    assert (E3 : Num.leb overage 0 = false).
    { destruct (Num.leb overage 0) eqn:E; [|reflexivity].
      apply leb_le in E. exfalso. lra. }
    rewrite E1, E2, E3. cbn [andb].
    split; [|repeat split; reflexivity].
    apply Forall2_map_r. intros r _. apply Ten_cure_row_annotated.
Qed.

(** C5 at the built-in origination rows (one FAIL row, cure 154.00) with a
    credit of 200, and at three in-group rows 15% over their estimate
    (overage 50.00) with a credit of 50. *)
Lemma C5_lender_credit_witness :
  (0 < 200 /\
   Zero.totalCure (Zero.evaluateZeroTolerance
     (origination TridData.buildDummyToleranceData) BucketA
     (set_lender_credits None None)) <= 200 /\
   Forall2 zero_annotated
     (Zero.rows (Zero.evaluateZeroTolerance
        (origination TridData.buildDummyToleranceData) BucketA
        (set_lender_credits None None)))
     (Zero.rows (Zero.evaluateZeroTolerance
        (origination TridData.buildDummyToleranceData) BucketA
        (set_lender_credits None (Some 200))))) /\
  (0 < 50 /\
   0 < Ten.overage (Ten.evaluateTenPercent sample_ten_rows ∅
         (set_lender_credits None None)) /\
   Ten.overage (Ten.evaluateTenPercent sample_ten_rows ∅
     (set_lender_credits None None)) <= 50 /\
   Ten.group_status (Ten.evaluateTenPercent sample_ten_rows ∅
     (set_lender_credits None (Some 50))) = OVER).
Proof.
  assert (Z1 : 0 < 200) by reflexivity.
  assert (Z2 : Zero.totalCure (Zero.evaluateZeroTolerance
     (origination TridData.buildDummyToleranceData) BucketA
     (set_lender_credits None None)) <= 200)
    by (apply Qle_bool_iff; vm_compute; reflexivity).
  assert (T1 : 0 < 50) by reflexivity.
  assert (T2 : 0 < Ten.overage (Ten.evaluateTenPercent sample_ten_rows ∅
         (set_lender_credits None None)))
    by (vm_compute; reflexivity).
  assert (T3 : Ten.overage (Ten.evaluateTenPercent sample_ten_rows ∅
     (set_lender_credits None None)) <= 50)
    by (apply Qle_bool_iff; vm_compute; reflexivity).
  split.
  - split; [exact Z1|]. split; [exact Z2|].
    exact (proj1 (proj1 C5_lender_credit_only_annotates
      (origination TridData.buildDummyToleranceData) BucketA None 200 Z1 Z2)).
  - split; [exact T1|]. split; [exact T2|]. split; [exact T3|].
    exact (proj1 (proj2 (proj2 (proj2 (proj2 (proj2
      (proj2 C5_lender_credit_only_annotates sample_ten_rows ∅ None 50
         T1 T2 T3))))))).
Defined.

(** ** C7: the merge of one tolerance bucket *)

Lemma JsMap_get_set_eq {V : Type} (m : JsMap.t V) (k : string) (v : V) :
  JsMap.get (JsMap.set m k v) k = Some v.
Proof.
  induction m as [|[k' v'] m IH]; cbn [JsMap.set JsMap.get].
  - now rewrite String.eqb_refl.
  - destruct (String.eqb k' k) eqn:E; cbn [JsMap.get]; now rewrite E.
Qed.

Lemma JsMap_get_set_ne {V : Type} (m : JsMap.t V) (k k0 : string) (v : V) :
  k0 <> k -> JsMap.get (JsMap.set m k0 v) k = JsMap.get m k.
Proof.
  intros Hne. induction m as [|[k' v'] m IH]; cbn [JsMap.set JsMap.get].
  - apply String.eqb_neq in Hne. now rewrite Hne.
  - destruct (String.eqb k' k0) eqn:E; cbn [JsMap.get].
    + apply String.eqb_eq in E. subst k'.
      apply String.eqb_neq in Hne. now rewrite Hne.
    + now rewrite IH.
Qed.

Lemma JsMap_get_None {V : Type} (m : JsMap.t V) (k : string) :
  JsMap.get m k = None <-> ~ In k (JsMap.keys m).
Proof.
  induction m as [|[k' v'] m IH]; cbn [JsMap.get JsMap.keys List.map fst].
  - split; [intros _ []|reflexivity].
  - destruct (String.eqb k' k) eqn:E.
    + apply String.eqb_eq in E. split; [discriminate|].
      intros H. exfalso. apply H. now left.
    + apply String.eqb_neq in E. rewrite IH. cbn [In].
      unfold JsMap.keys. tauto.
Qed.

Lemma JsMap_get_In {V : Type} (m : JsMap.t V) (k : string) (v : V) :
  JsMap.get m k = Some v -> In (k, v) m.
Proof.
  induction m as [|[k' v'] m IH]; cbn [JsMap.get]; [discriminate|].
  destruct (String.eqb k' k) eqn:E.
  - apply String.eqb_eq in E. intros [= <-]. subst. now left.
  - intros H. right. now apply IH.
Qed.

Lemma JsMap_In_get {V : Type} (m : JsMap.t V) (k : string) (v : V) :
  List.NoDup (JsMap.keys m) -> In (k, v) m -> JsMap.get m k = Some v.
Proof.
  induction m as [|[k' v'] m IH]; cbn [JsMap.get JsMap.keys List.map fst];
    intros Hnd Hin; [destruct Hin|].
  apply List.NoDup_cons_iff in Hnd as [Hk Hnd].
  destruct Hin as [[= -> ->] | Hin].
  - now rewrite String.eqb_refl.
  - destruct (String.eqb k' k) eqn:E.
    + apply String.eqb_eq in E. subst k'. exfalso. apply Hk.
      change k with (fst (k, v)). now apply in_map.
    + now apply IH.
Qed.

Lemma JsMap_set_present {V : Type} (m : JsMap.t V) (k : string) (v : V) :
  In k (JsMap.keys m) -> JsMap.keys (JsMap.set m k v) = JsMap.keys m.
Proof.
  induction m as [|[k' v'] m IH]; cbn [JsMap.set JsMap.keys List.map fst];
    intros Hin; [destruct Hin|].
  destruct (String.eqb k' k) eqn:E; cbn [List.map fst]; [reflexivity|].
  f_equal. apply IH. destruct Hin as [-> | Hin]; [|exact Hin].
  now rewrite String.eqb_refl in E.
Qed.

Lemma JsMap_set_absent {V : Type} (m : JsMap.t V) (k : string) (v : V) :
  ~ In k (JsMap.keys m) -> JsMap.set m k v = m ++ [(k, v)].
Proof.
  induction m as [|[k' v'] m IH]; cbn [JsMap.set JsMap.keys List.map fst];
    intros Hin; [reflexivity|].
  destruct (String.eqb k' k) eqn:E.
  - apply String.eqb_eq in E. exfalso. apply Hin. now left.
  - cbn [app]. f_equal. apply IH. intros H. apply Hin. now right.
Qed.

Lemma JsMap_keys_set {V : Type} (m : JsMap.t V) (k : string) (v : V) :
  JsMap.keys (JsMap.set m k v) =
  JsMap.keys m ++ (match JsMap.get m k with Some _ => [] | None => [k] end).
Proof.
  destruct (JsMap.get m k) eqn:E.
  - rewrite app_nil_r. apply JsMap_set_present.
    destruct (in_dec string_dec k (JsMap.keys m)) as [H|H]; [exact H|].
    apply JsMap_get_None in H. congruence.
  - apply JsMap_get_None in E. rewrite (JsMap_set_absent m k v E).
    unfold JsMap.keys. now rewrite map_app.
Qed.

Lemma JsMap_NoDup_set {V : Type} (m : JsMap.t V) (k : string) (v : V) :
  List.NoDup (JsMap.keys m) -> List.NoDup (JsMap.keys (JsMap.set m k v)).
Proof.
  intros Hnd. rewrite JsMap_keys_set.
  destruct (JsMap.get m k) eqn:E; [now rewrite app_nil_r|].
  apply JsMap_get_None in E.
  apply List.NoDup_app.
  - exact Hnd.
  - constructor; [intros []|constructor].
  - intros x Hx [-> | []]. contradiction.
Qed.

Lemma has_key_iff (k : string) (item : Backend.LineItem) :
  has_key k item = true <-> key_of item = Some k.
Proof.
  unfold has_key. destruct (key_of item) as [k'|].
  - rewrite String.eqb_eq. split; congruence.
  - split; discriminate.
Qed.

Lemma last_with_key_snoc (k : string) (items : list Backend.LineItem)
  (item : Backend.LineItem) :
  last_with_key k (items ++ [item]) =
  if has_key k item then Some item else last_with_key k items.
Proof. unfold last_with_key. now rewrite rev_app_distr. Qed.

Lemma last_with_key_Some (k : string) (items : list Backend.LineItem)
  (item : Backend.LineItem) :
  last_with_key k items = Some item -> In item items /\ key_of item = Some k.
Proof.
  unfold last_with_key. intros H. apply find_some in H as [H1 H2].
  split; [now apply in_rev | now apply has_key_iff].
Qed.

Lemma last_with_key_None (k : string) (items : list Backend.LineItem)
  (item : Backend.LineItem) :
  last_with_key k items = None -> In item items -> key_of item <> Some k.
Proof.
  unfold last_with_key. intros H Hin Hk.
  apply in_rev in Hin. apply (find_none _ _ H item) in Hin.
  apply has_key_iff in Hk. congruence.
Qed.

Lemma key_of_labelled (item : Backend.LineItem) (l : string) :
  Transformer.labelled item = Some l ->
  key_of item = Some (Transformer.normalizeFee (Some l)).
Proof. unfold key_of. now intros ->. Qed.

Lemma insert_le_get (m : JsMap.t Transformer.Entry) (item : Backend.LineItem)
  (k : string) :
  JsMap.get (Transformer.insert_le m item) k =
  if has_key k item then Some (le_entry item) else JsMap.get m k.
Proof.
  unfold Transformer.insert_le, has_key, key_of, le_entry.
  destruct (Transformer.labelled item) as [l|]; cbn [option_map];
    [|reflexivity].
  destruct (String.eqb (Transformer.normalizeFee (Some l)) k) eqn:E.
  - apply String.eqb_eq in E. subst k. apply JsMap_get_set_eq.
  - apply String.eqb_neq in E. now apply JsMap_get_set_ne.
Qed.

Lemma insert_cd_get (m : JsMap.t Transformer.Entry) (item : Backend.LineItem)
  (k : string) :
  JsMap.get (Transformer.insert_cd m item) k =
  if has_key k item then
    Some {| Transformer.e_le := chain (JsMap.get m k) Transformer.e_le;
            Transformer.e_cd := Some item;
            Transformer.displayLabel :=
              match JsMap.get m k with
              | Some existing => Transformer.displayLabel existing
              | None => default EmptyString (Transformer.labelled item)
              end |}
  else JsMap.get m k.
Proof.
  unfold Transformer.insert_cd, has_key, key_of.
  destruct (Transformer.labelled item) as [l|]; cbn [option_map];
    [|reflexivity].
  cbv zeta.
  destruct (String.eqb (Transformer.normalizeFee (Some l)) k) eqn:E.
  - apply String.eqb_eq in E. subst k.
    destruct (JsMap.get m _) as [existing|]; apply JsMap_get_set_eq.
  - apply String.eqb_neq in E.
    destruct (JsMap.get m (Transformer.normalizeFee (Some l)));
      now apply JsMap_get_set_ne.
Qed.

Lemma insert_le_NoDup (m : JsMap.t Transformer.Entry)
  (item : Backend.LineItem) :
  List.NoDup (JsMap.keys m) ->
  List.NoDup (JsMap.keys (Transformer.insert_le m item)).
Proof.
  intros H. unfold Transformer.insert_le.
  destruct (Transformer.labelled item); [now apply JsMap_NoDup_set|exact H].
Qed.

Lemma insert_cd_NoDup (m : JsMap.t Transformer.Entry)
  (item : Backend.LineItem) :
  List.NoDup (JsMap.keys m) ->
  List.NoDup (JsMap.keys (Transformer.insert_cd m item)).
Proof.
  intros H. unfold Transformer.insert_cd.
  destruct (Transformer.labelled item); [|exact H]. cbv zeta.
  destruct (JsMap.get m _); now apply JsMap_NoDup_set.
Qed.

Lemma insert_cd_keys (m : JsMap.t Transformer.Entry)
  (item : Backend.LineItem) :
  exists extra,
    JsMap.keys (Transformer.insert_cd m item) = JsMap.keys m ++ extra.
Proof.
  unfold Transformer.insert_cd.
  destruct (Transformer.labelled item);
    [|exists []; now rewrite app_nil_r]. cbv zeta.
  destruct (JsMap.get m _) eqn:E; rewrite JsMap_keys_set, E; eauto.
Qed.

(** After the LE items: one LE-only entry per key, made from the last LE
    item with that key. *)
Lemma fold_insert_le (les : list Backend.LineItem) :
  forall (m : JsMap.t Transformer.Entry) (done : list Backend.LineItem),
    List.NoDup (JsMap.keys m) ->
    (forall k, JsMap.get m k = option_map le_entry (last_with_key k done)) ->
    List.NoDup (JsMap.keys (fold_left Transformer.insert_le les m)) /\
    (forall k, JsMap.get (fold_left Transformer.insert_le les m) k =
               option_map le_entry (last_with_key k (done ++ les))).
Proof.
  induction les as [|item rest IH]; intros m done Hnd Hget.
  - rewrite app_nil_r. now split.
  - cbn [fold_left].
    replace (done ++ item :: rest) with ((done ++ [item]) ++ rest)
      by now rewrite <- app_assoc.
    apply IH; [now apply insert_le_NoDup|].
    intros k. rewrite insert_le_get, last_with_key_snoc.
    destruct (has_key k item); [reflexivity | apply Hget].
Qed.

Lemma fold_insert_cd (les cds : list Backend.LineItem) :
  forall (m : JsMap.t Transformer.Entry) (done : list Backend.LineItem),
    List.NoDup (JsMap.keys m) ->
    sides_agree m les done ->
    List.NoDup (JsMap.keys (fold_left Transformer.insert_cd cds m)) /\
    sides_agree (fold_left Transformer.insert_cd cds m) les (done ++ cds) /\
    exists extra,
      JsMap.keys (fold_left Transformer.insert_cd cds m) =
      JsMap.keys m ++ extra.
Proof.
  induction cds as [|item rest IH]; intros m done Hnd Hs.
  - rewrite app_nil_r. split; [assumption|]. split; [assumption|].
    exists []. cbn [fold_left]. now rewrite app_nil_r.
  - cbn [fold_left].
    replace (done ++ item :: rest) with ((done ++ [item]) ++ rest)
      by now rewrite <- app_assoc.
    assert (Hstep : sides_agree (Transformer.insert_cd m item) les
                      (done ++ [item])).
    { intros k. rewrite insert_cd_get, last_with_key_snoc.
      destruct (Hs k) as [HN HS].
      destruct (has_key k item); [|split; assumption].
      split.
      - split; [discriminate|]. intros [_ H]. discriminate.
      - intros e [= <-]. cbn [Transformer.e_le Transformer.e_cd].
        split; [|reflexivity].
        destruct (JsMap.get m k) as [existing|] eqn:E; cbn [chain].
        + now destruct (HS existing eq_refl).
        + symmetry. now apply HN. }
    destruct (IH (Transformer.insert_cd m item) (done ++ [item])
                (insert_cd_NoDup m item Hnd) Hstep)
      as (H1 & H2 & extra & H3).
    split; [exact H1|]. split; [exact H2|].
    destruct (insert_cd_keys m item) as [extra0 E0].
    exists (extra0 ++ extra). now rewrite H3, E0, app_assoc.
Qed.

Lemma NoDup_app_disjoint {T : Type} (a b : list T) (x : T) :
  List.NoDup (a ++ b) -> In x a -> In x b -> False.
Proof.
  induction a as [|y a IH]; cbn [app]; intros Hnd Ha Hb; [destruct Ha|].
  apply List.NoDup_cons_iff in Hnd as [Hy Hnd].
  destruct Ha as [-> | Ha]; [|now apply IH].
  apply Hy, in_or_app. now right.
Qed.

(** LE items with pairwise different keys: each becomes a new entry, in the
    order of the list. *)
Lemma fold_insert_le_keys (les : list Backend.LineItem) :
  forall (m : JsMap.t Transformer.Entry),
    List.NoDup (JsMap.keys m ++ omap key_of les) ->
    JsMap.keys (fold_left Transformer.insert_le les m) =
    JsMap.keys m ++ omap key_of les.
Proof.
  induction les as [|item rest IH]; intros m Hnd; cbn [fold_left].
  - cbn. now rewrite app_nil_r.
  - assert (Hstep : JsMap.keys (Transformer.insert_le m item) ++
                    omap key_of rest =
                    JsMap.keys m ++ omap key_of (item :: rest)).
    { cbn [omap list_omap] in *. unfold Transformer.insert_le.
      unfold key_of at 2. unfold key_of at 1 in Hnd.
      destruct (Transformer.labelled item) as [l|]; cbn [option_map] in *;
        [|reflexivity].
      rewrite JsMap_keys_set.
      destruct (JsMap.get m (Transformer.normalizeFee (Some l))) eqn:E.
      - exfalso. apply JsMap_get_In in E.
        apply (NoDup_app_disjoint _ _ (Transformer.normalizeFee (Some l)) Hnd).
        + change (Transformer.normalizeFee (Some l))
            with (fst (Transformer.normalizeFee (Some l), e)).
          now apply in_map.
        + now left.
      - now rewrite <- app_assoc. }
    rewrite IH; [exact Hstep|]. now rewrite Hstep.
Qed.

(** C7.  The merge of [transformSectionA] (the other buckets repeat it):
    the map has one entry per normalized key; the LE side of an entry is the
    last LE item with that key and its CD side the last CD item with that
    key.  Hence an LE item and a CD item whose labels normalize to the same
    key share exactly one entry, with both sides populated by items of that
    key: by the two items themselves when no other item of their list has
    the key, and otherwise by the last such item of each list, which
    replaces the earlier ones.  An entry with both sides populated never
    joins items of different keys.  The LE items go in first, each as a new
    LE-only entry when the keys of the LE items are pairwise different (an
    LE item whose key repeats replaces the entry of that key); a CD item
    then fills the CD side of the entry of its key, or is appended as a new
    CD-only entry.  Items without a label take no part. *)
Theorem C7_merge_by_normalized_key :
  forall (leItems cdItems : list Backend.LineItem),
    let le_phase := fold_left Transformer.insert_le leItems JsMap.empty in
    let m := Transformer.merge_items leItems cdItems in
    List.NoDup (JsMap.keys m) /\
    (forall k e, In (k, e) m ->
       Transformer.e_le e = last_with_key k leItems /\
       Transformer.e_cd e = last_with_key k cdItems /\
       (Transformer.e_le e <> None \/ Transformer.e_cd e <> None)) /\
    (forall l c k,
       In l leItems -> In c cdItems ->
       key_of l = Some k -> key_of c = Some k ->
       exists e l' c',
         In (k, e) m /\ (forall e', In (k, e') m -> e' = e) /\
         Transformer.e_le e = Some l' /\ Transformer.e_cd e = Some c' /\
         last_with_key k leItems = Some l' /\
         last_with_key k cdItems = Some c' /\
         In l' leItems /\ In c' cdItems /\
         key_of l' = Some k /\ key_of c' = Some k /\
         ((forall l0, In l0 leItems -> key_of l0 = Some k -> l0 = l) ->
          l' = l) /\
         ((forall c0, In c0 cdItems -> key_of c0 = Some k -> c0 = c) ->
          c' = c)) /\
    (forall k e l c,
       In (k, e) m ->
       Transformer.e_le e = Some l -> Transformer.e_cd e = Some c ->
       In l leItems /\ In c cdItems /\
       key_of l = Some k /\ key_of c = Some k) /\
    (forall k e, In (k, e) le_phase ->
       Transformer.e_le e = last_with_key k leItems /\
       Transformer.e_le e <> None /\ Transformer.e_cd e = None) /\
    (List.NoDup (omap key_of leItems) ->
     JsMap.keys le_phase = omap key_of leItems) /\
    (exists cd_only,
       JsMap.keys m = JsMap.keys le_phase ++ cd_only /\
       forall k e, In k cd_only -> In (k, e) m ->
         Transformer.e_le e = None /\ Transformer.e_cd e <> None) /\
    (forall m0 item l,
       Transformer.labelled item = Some l ->
       JsMap.get (Transformer.insert_le m0 item)
         (Transformer.normalizeFee (Some l)) =
       Some {| Transformer.e_le := Some item; Transformer.e_cd := None;
               Transformer.displayLabel := l |}) /\
    (forall m0 item l,
       Transformer.labelled item = Some l ->
       let key := Transformer.normalizeFee (Some l) in
       match JsMap.get m0 key with
       | Some existing =>
           Transformer.insert_cd m0 item =
           JsMap.set m0 key
             {| Transformer.e_le := Transformer.e_le existing;
                Transformer.e_cd := Some item;
                Transformer.displayLabel := Transformer.displayLabel existing |}
       | None =>
           Transformer.insert_cd m0 item =
           m0 ++ [(key, {| Transformer.e_le := None;
                           Transformer.e_cd := Some item;
                           Transformer.displayLabel := l |})]
       end).
Proof.
  intros leItems cdItems le_phase m.
  destruct (fold_insert_le leItems JsMap.empty [] (List.NoDup_nil _)
              (fun k => eq_refl)) as [Hnd_le Hget_le].
  fold le_phase in Hnd_le, Hget_le. cbn [app] in Hget_le.
  assert (Hs0 : sides_agree le_phase leItems []).
  { intros k. rewrite Hget_le. change (last_with_key k []) with (@None Backend.LineItem).
    destruct (last_with_key k leItems) as [it|]; cbn [option_map].
    - split; [split; [discriminate|intros [? _]; discriminate]|].
      now intros e [= <-].
    - split; [tauto|discriminate]. }
  destruct (fold_insert_cd leItems cdItems le_phase [] Hnd_le Hs0)
    as (Hnd & Hs & cd_only & Hkeys).
  cbn [app] in Hs.
  change (fold_left Transformer.insert_cd cdItems le_phase) with m
    in Hnd, Hs, Hkeys.
  assert (Hside : forall k e, In (k, e) m ->
     Transformer.e_le e = last_with_key k leItems /\
     Transformer.e_cd e = last_with_key k cdItems /\
     (Transformer.e_le e <> None \/ Transformer.e_cd e <> None)).
  { intros k e Hin. apply (JsMap_In_get m k e Hnd) in Hin.
    destruct (Hs k) as [HN HS]. destruct (HS e Hin) as [E1 E2].
    split; [exact E1|]. split; [exact E2|].
    rewrite E1, E2.
    destruct (last_with_key k leItems); [left; discriminate|].
    destruct (last_with_key k cdItems); [right; discriminate|].
    assert (JsMap.get m k = None) by now apply HN. congruence. }
  split; [exact Hnd|]. split; [exact Hside|].
  split; [|split; [|split; [|split; [|split; [|split]]]]].
  - intros l c k Hl Hc Kl Kc.
    destruct (last_with_key k leItems) as [l'|] eqn:EL;
      [|exfalso; exact (last_with_key_None k leItems l EL Hl Kl)].
    destruct (last_with_key k cdItems) as [c'|] eqn:EC;
      [|exfalso; exact (last_with_key_None k cdItems c EC Hc Kc)].
    destruct (JsMap.get m k) as [e|] eqn:E.
    + exists e, l', c'. pose proof (JsMap_get_In m k e E) as Hin.
      destruct (Hside k e Hin) as (E1 & E2 & _).
      rewrite EL in E1. rewrite EC in E2.
      pose proof (last_with_key_Some k leItems l' EL) as [Hl' Kl'].
      pose proof (last_with_key_Some k cdItems c' EC) as [Hc' Kc'].
      split; [exact Hin|]. split.
      { intros e' Hin'. apply (JsMap_In_get m k e' Hnd) in Hin'.
        congruence. }
      repeat (split; [assumption || reflexivity|]).
      split; intros Honly; now apply Honly.
    + exfalso. apply (Hs k) in E as [HN _]. congruence.
  - intros k e l c Hin El Ec.
    destruct (Hside k e Hin) as (E1 & E2 & _).
    rewrite El in E1. rewrite Ec in E2. symmetry in E1, E2.
    apply last_with_key_Some in E1 as [? ?].
    apply last_with_key_Some in E2 as [? ?]. auto.
  - intros k e Hin. apply (JsMap_In_get le_phase k e Hnd_le) in Hin.
    rewrite Hget_le in Hin.
    destruct (last_with_key k leItems) as [it|]; [|discriminate].
    cbn [option_map] in Hin. injection Hin as <-.
    cbn. repeat split. discriminate.
  - intros Hkeys_le.
    apply (fold_insert_le_keys leItems JsMap.empty Hkeys_le).
  - exists cd_only. split; [exact Hkeys|].
    intros k e Hk Hin.
    destruct (Hside k e Hin) as (E1 & E2 & Hor).
    assert (HN : last_with_key k leItems = None).
    { destruct (last_with_key k leItems) as [it|] eqn:EL; [|reflexivity].
      exfalso. rewrite Hkeys in Hnd.
      apply (NoDup_app_disjoint _ _ k Hnd); [|exact Hk].
      destruct (in_dec string_dec k (JsMap.keys le_phase)) as [H|H];
        [exact H|].
      apply JsMap_get_None in H. rewrite Hget_le, EL in H. discriminate. }
    rewrite HN in E1. split; [exact E1|].
    destruct Hor as [H|H]; [congruence|exact H].
  - intros m0 item l Hl. rewrite insert_le_get.
    assert (Hk : has_key (Transformer.normalizeFee (Some l)) item = true)
      by (apply has_key_iff; now apply key_of_labelled).
    rewrite Hk. unfold le_entry. now rewrite Hl.
  - intros m0 item l Hl key. unfold Transformer.insert_cd.
    rewrite Hl. cbv zeta. fold key.
    destruct (JsMap.get m0 key) eqn:E; [reflexivity|].
    apply JsMap_set_absent. now apply JsMap_get_None.
Qed.

(** C7 on a small pair of lists: "01 Appraisal Fee to ABC Appraisers" of
    the CD joins "Appraisal Fee" of the LE; "Credit Report" stays LE-only and
    "Flood Certification" is appended CD-only. *)
Example merge_items_example :
  let item l a :=
    {| Backend.label := Some l; Backend.amount := Some a;
       Backend.sub_label := None; Backend.payer := None;
       Backend.timing := None |} in
  List.map (fun '(k, e) =>
      (k, option_map Backend.amount (Transformer.e_le e),
          option_map Backend.amount (Transformer.e_cd e)))
    (Transformer.merge_items
       [item "Appraisal Fee" 650; item "Credit Report" 48]
       [item "Flood Certification" 32;
        item "01 Appraisal Fee to ABC Appraisers" 725]) =
  [("appraisal fee", Some (Some 650), Some (Some 725));
   ("credit report", Some (Some 48), None);
   ("flood certification", None, Some (Some 32))].
Proof. vm_compute. reflexivity. Qed.

(** C7, an LE list in which a key repeats: "Title Fee" (100) and
    "01 Title Fee to Metro Title" (200) are two LE items with the key
    "title fee", and the CD has "Title Fee" (300).  The second LE item
    replaces the entry of the first: the LE items make one entry, not two,
    and the one entry of the merge holds the second LE item with the CD item,
    so the first LE item and the CD item, whose keys are the same, are in no
    common entry. *)
Lemma C7_repeated_key_replaces_entry :
  let item l a :=
    {| Backend.label := Some l; Backend.amount := Some a;
       Backend.sub_label := None; Backend.payer := None;
       Backend.timing := None |} in
  let first := item "Title Fee" 100 in
  let second := item "01 Title Fee to Metro Title" 200 in
  let closing := item "Title Fee" 300 in
  let leItems := [first; second] in
  let cdItems := [closing] in
  key_of first = Some "title fee" /\
  key_of closing = Some "title fee" /\
  length (fold_left Transformer.insert_le leItems JsMap.empty) = 1%nat /\
  Transformer.merge_items leItems cdItems =
  [("title fee",
    {| Transformer.e_le := Some second; Transformer.e_cd := Some closing;
       Transformer.displayLabel := "01 Title Fee to Metro Title" |})] /\
  ~ (exists k e, In (k, e) (Transformer.merge_items leItems cdItems) /\
                 Transformer.e_le e = Some first).
Proof.
  cbv zeta.
  assert (E : Transformer.merge_items
                [{| Backend.label := Some "Title Fee";
                    Backend.amount := Some 100;
                    Backend.sub_label := None; Backend.payer := None;
                    Backend.timing := None |};
                 {| Backend.label := Some "01 Title Fee to Metro Title";
                    Backend.amount := Some 200;
                    Backend.sub_label := None; Backend.payer := None;
                    Backend.timing := None |}]
                [{| Backend.label := Some "Title Fee";
                    Backend.amount := Some 300;
                    Backend.sub_label := None; Backend.payer := None;
                    Backend.timing := None |}] = _)
    by (vm_compute; reflexivity).
  split; [vm_compute; reflexivity|].
  split; [vm_compute; reflexivity|].
  split; [vm_compute; reflexivity|].
  split; [exact E|].
  rewrite E. intros (k & e & [[= <- <-] | []] & He).
  cbn in He. discriminate.
Qed.

(** ** The flags of [evaluateUnlimited] *)

Lemma has_flag_push_if (c : ToleranceFlag) (b : bool) (f : FlagDetail)
  (flags : list FlagDetail) :
  has_flag c (push_if b f flags) =
  has_flag c flags || (b && ToleranceFlag_eqb (code f) c).
Proof.
  unfold push_if. destruct b; cbn [andb].
  - rewrite has_flag_app. cbn. now rewrite orb_false_r.
  - now rewrite orb_false_r.
Qed.

Lemma In_push_if (b : bool) (f g : FlagDetail) (flags : list FlagDetail) :
  In g (push_if b f flags) <-> In g flags \/ (b = true /\ g = f).
Proof.
  unfold push_if. destruct b.
  - rewrite in_app_iff. cbn. intuition congruence.
  - intuition congruence.
Qed.

Lemma Unlimited_status_flags (row : Unlimited.Fee) :
  let out := Unlimited.evaluate_row row in
  (Unlimited.status out = REVIEW <-> Unlimited.flags out <> []) /\
  (Unlimited.status out = PASS <-> Unlimited.flags out = []).
Proof.
  cbv zeta. unfold Unlimited.evaluate_row.
  cbn [Unlimited.status Unlimited.flags].
  match goal with |- context [length ?l] => destruct l as [|f fl] end;
    cbn; split; split; congruence.
Qed.

Lemma is_cents_minus (x y : Q) : is_cents x -> is_cents y -> is_cents (x - y).
Proof.
  intros [n Hn] [m Hm]. exists (n - m)%Z. rewrite Hn, Hm.
  unfold Qeq, Qminus, Qplus, Qopp. simpl. lia.
Qed.

(** ** C10: bucket "B" on the pre-matched path *)

Lemma add_fee_cannotShop (acc : ToleranceDataset) (fee : Backend.MatchedFee) :
  cannotShop (AiTransformer.add_fee acc fee) = cannotShop acc \/
  (cannotShop (AiTransformer.add_fee acc fee) =
     cannotShop acc ++ [AiTransformer.transformToZeroTolerance fee] /\
   AiTransformer.skipped fee = false /\
   Backend.tolerance_category fee = Backend.cat_zero /\
   Backend.section fee = "B").
Proof.
  unfold AiTransformer.add_fee.
  destruct (AiTransformer.skipped fee); [now left|].
  destruct (Backend.tolerance_category fee); cbn [cannotShop]; try now left.
  destruct (String.eqb (Backend.section fee) "A") eqn:EA;
    cbn [cannotShop]; [now left|].
  destruct (String.eqb (Backend.section fee) "B") eqn:EB;
    cbn [cannotShop]; [|now left].
  right. apply String.eqb_eq in EB. auto.
Qed.

Lemma add_fee_cannotShop_B (acc : ToleranceDataset)
  (fee : Backend.MatchedFee) :
  AiTransformer.skipped fee = false ->
  Backend.tolerance_category fee = Backend.cat_zero ->
  Backend.section fee = "B" ->
  cannotShop (AiTransformer.add_fee acc fee) =
  cannotShop acc ++ [AiTransformer.transformToZeroTolerance fee].
Proof.
  intros Hs Hc Hb. unfold AiTransformer.add_fee. now rewrite Hs, Hc, Hb.
Qed.

Lemma fold_add_fee_cannotShop (fees : list Backend.MatchedFee) :
  forall acc : ToleranceDataset,
    (forall row, In row (cannotShop acc) ->
       In row (cannotShop (fold_left AiTransformer.add_fee fees acc))) /\
    (forall fee, In fee fees ->
       AiTransformer.skipped fee = false ->
       Backend.tolerance_category fee = Backend.cat_zero ->
       Backend.section fee = "B" ->
       In (AiTransformer.transformToZeroTolerance fee)
         (cannotShop (fold_left AiTransformer.add_fee fees acc))) /\
    (Forall (fun row => Zero.permittedToShop row = Some true)
       (cannotShop acc) ->
     Forall (fun row => Zero.permittedToShop row = Some true)
       (cannotShop (fold_left AiTransformer.add_fee fees acc))).
Proof.
  induction fees as [|fee0 fees IH]; intros acc; cbn [fold_left].
  - split; [auto|]. split; [intros fee []|auto].
  - destruct (IH (AiTransformer.add_fee acc fee0)) as (IH1 & IH2 & IH3).
    split; [|split].
    + intros row Hin. apply IH1.
      destruct (add_fee_cannotShop acc fee0) as [-> | (-> & _)];
        [exact Hin | apply in_or_app; now left].
    + intros fee [<- | Hin] Hs Hc Hb; [|now apply IH2].
      apply IH1. rewrite (add_fee_cannotShop_B acc fee0 Hs Hc Hb).
      apply in_or_app. right. now left.
    + intros Hall. apply IH3.
      destruct (add_fee_cannotShop acc fee0) as [-> | (-> & _ & _ & Hb)];
        [exact Hall|].
      apply Forall_app. split; [exact Hall|].
      constructor; [|constructor].
      cbn [AiTransformer.transformToZeroTolerance Zero.permittedToShop].
      now rewrite Hb.
Qed.

Lemma always_flagged_evaluate_row (config : Config) (row : Zero.Fee) :
  Zero.permittedToShop row = Some true ->
  always_flagged (cfg_zeroThreshold config)
    (Zero.evaluate_row BucketB config row).
Proof.
  intros Hp. rewrite Zero_evaluate_row_cases. cbv zeta.
  assert (Hm : Zero.misplaced BucketB row = true)
    by (apply Zero_misplaced_iff; auto).
  rewrite Hm. unfold always_flagged.
  destruct (Num.ltb _ _) eqn:E;
    [apply ltb_lt in E | apply ltb_ge in E];
    cbn [Zero.flags Zero.status Zero.delta];
    repeat split; try reflexivity; try discriminate; intros; exfalso; lra.
Qed.

Lemma always_flagged_cure_row (thr L T : Q) (r : Zero.DisplayRow) :
  always_flagged thr r -> always_flagged thr (Zero.cure_row L T r).
Proof.
  unfold always_flagged.
  destruct (Zero_cure_row_frame L T r) as (_ & -> & -> & _).
  intros (H1 & H2). split; [|exact H2].
  unfold Zero.cure_row. destruct (_ && _); [|exact H1].
  cbn [Zero.flags]. rewrite has_flag_app, H1. reflexivity.
Qed.

(** C10.  On the pre-matched path every matched fee of category zero and
    section "B" becomes a zero-tolerance fee with permittedToShop = true, in
    the cannot-shop list (unless both its amounts are zero, which drops it);
    so every row that [evaluateZeroTolerance] returns for bucket "B" of that
    dataset carries a SECTION_PLACEMENT_MISMATCH flag and is never PASS: it
    is REVIEW when delta <= zeroThreshold and FAIL otherwise. *)
Theorem C10_ai_bucket_B_always_flagged :
  forall (tridComparison : Backend.TRIDComparison)
         (options : option RuleOptions),
    let dataset := AiTransformer.transformAIMatchedData (Some tridComparison) in
    (forall fee, Backend.section fee = "B" ->
       Zero.permittedToShop (AiTransformer.transformToZeroTolerance fee) =
       Some true) /\
    (forall fees fee,
       Backend.matched_fees tridComparison = Some fees -> In fee fees ->
       Backend.tolerance_category fee = Backend.cat_zero ->
       Backend.section fee = "B" ->
       AiTransformer.skipped fee = false ->
       In (AiTransformer.transformToZeroTolerance fee) (cannotShop dataset)) /\
    Forall (fun row => Zero.permittedToShop row = Some true)
      (cannotShop dataset) /\
    Forall (always_flagged (cfg_zeroThreshold (spread_options options)))
      (Zero.rows
         (Zero.evaluateZeroTolerance (cannotShop dataset) BucketB options)).
Proof.
  intros cmp options dataset.
  assert (Hall : Forall (fun row => Zero.permittedToShop row = Some true)
                   (cannotShop dataset)).
  { subst dataset. unfold AiTransformer.transformAIMatchedData. cbn [chain].
    destruct (Backend.matched_fees cmp) as [fees|]; [|constructor].
    apply fold_add_fee_cannotShop. constructor. }
  split; [|split; [|split; [exact Hall|]]].
  - intros fee Hb. cbn. now rewrite Hb.
  - intros fees fee Hf Hin Hc Hb Hs. subst dataset.
    unfold AiTransformer.transformAIMatchedData. cbn [chain]. rewrite Hf.
    now apply fold_add_fee_cannotShop.
  - apply Zero_rows_Forall_in.
    + intros r L T. apply always_flagged_cure_row.
    + intros row Hin. apply always_flagged_evaluate_row.
      rewrite List.Forall_forall in Hall. now apply Hall.
Qed.

(** C10 at a comparison with one unchanged appraisal fee in section "B":
    the fee reaches the cannot-shop list marked permittedToShop, and its row
    is REVIEW with the placement flag, although its delta is 0. *)
Lemma C10_ai_bucket_B_witness :
  let dataset := AiTransformer.transformAIMatchedData (Some sample_comparison) in
  Forall (fun row => Zero.permittedToShop row = Some true)
    (cannotShop dataset) /\
  Forall (always_flagged 1)
    (Zero.rows (Zero.evaluateZeroTolerance (cannotShop dataset) BucketB None)) /\
  List.map (fun r => (Zero.id (Zero.base r), Zero.status r,
                      List.map code (Zero.flags r)))
    (Zero.rows (Zero.evaluateZeroTolerance (cannotShop dataset) BucketB None)) =
  [("ai-zero-B-appraisal-fee", REVIEW, [SECTION_PLACEMENT_MISMATCH])].
Proof.
  cbv zeta. split; [|split].
  - exact (proj1 (proj2 (proj2
      (C10_ai_bucket_B_always_flagged sample_comparison None)))).
  - exact (proj2 (proj2 (proj2
      (C10_ai_bucket_B_always_flagged sample_comparison None)))).
  - vm_compute. reflexivity.
Defined.

(** ** The worked examples of the specification *)

Example zero_tolerance_examples :
  let row cd :=
    TridData.zero_fee "orig-1" "Origination Charge"
      (TridData.split 1000 None None) (TridData.split cd None None) None
      EmptyString in
  let run cd :=
    List.map (fun r => (Zero.status r, Zero.cureAmount r))
      (Zero.rows (Zero.evaluateZeroTolerance [row cd] BucketA None)) in
  run (100050 # 100) = [(PASS, 0)] /\
  run 1002 = [(FAIL, 100 # 100)].
Proof. cbv zeta. split; vm_compute; reflexivity. Qed.

Example ten_percent_examples :
  let res := Ten.evaluateTenPercent sample_ten_rows ∅ None in
  Ten.leBase res == 1000 /\ Ten.cdTotal res == 1150 /\
  Ten.allowedMax res == 1100 /\ Ten.overage res == 50 /\
  Ten.group_status res = OVER.
Proof. cbv zeta. repeat split; vm_compute; reflexivity. Qed.

Example low_confidence_example :
  let row :=
    TridData.ten_fee "t-1" "Pest Inspection" "Ace Inspectors" "C"
      (1 # 2) false (TridData.split 125 None None)
      (TridData.split 150 None None) EmptyString None in
  List.map (fun r => (Ten.inTenGroup r, Ten.status r,
                      List.map code (Ten.flags r)))
    (Ten.rows (Ten.evaluateTenPercent [row] ∅ None)) =
  [(false, REVIEW, [])].
Proof. vm_compute. reflexivity. Qed.

(** * Further properties of the engine *)

(** ** Currency rounding *)

(** X1.  [currency] returns a whole number of cents at most half a cent away
    from its argument, and rounding a rounded amount changes nothing. *)
Theorem X1_currency_nearest_cent_idempotent :
  forall x : Q,
    is_cents (currency x) /\
    Qabs (currency x - x) <= 1 # 200 /\
    currency (currency x) = currency x.
Proof.
  intros x. split; [apply currency_is_cents|].
  split; [|apply currency_idempotent].
  rewrite currency_round2. apply round2_nearest.
Qed.

Lemma toFixed_units_opp (f : nat) (x : Q) :
  Num.toFixed_units f (- x) = (- Num.toFixed_units f x)%Z.
Proof.
  unfold Num.toFixed_units.
  destruct (Num.ltb x 0) eqn:Ex; destruct (Num.ltb (- x) 0) eqn:Eo.
  - apply ltb_lt in Ex, Eo. exfalso. lra.
  - now rewrite Z.opp_involutive.
  - f_equal. apply nearest_larger_comp. ring.
  - apply ltb_ge in Ex, Eo.
    assert (E0 : x == 0) by lra.
    assert (E1 : - x * inject_Z (Num.pow10 f) == inject_Z 0)
      by (rewrite E0; ring).
    assert (E2 : x * inject_Z (Num.pow10 f) == inject_Z 0)
      by (rewrite E0; ring).
    rewrite (nearest_larger_comp _ _ E1), (nearest_larger_comp _ _ E2).
    now rewrite nearest_larger_Z.
Qed.

(** X2.  [currency] is monotone and symmetric about zero: a larger amount
    never rounds to a smaller one, and a negative amount rounds to the
    negation of the rounding of its magnitude. *)
Theorem X2_currency_monotone_symmetric :
  forall x y : Q,
    (x <= y -> currency x <= currency y) /\
    currency (- x) == - currency x.
Proof.
  intros x y. split; [apply currency_mono|].
  unfold currency. rewrite toFixed_units_opp.
  unfold Qeq, Qopp. simpl. lia.
Qed.

(** ** Zero tolerance: counts and totals *)





(** X4.  The total cure of [evaluateZeroTolerance] is the rounded sum of
    the rows' cure amounts; no cure amount is negative, none exceeds the
    total, and the total is zero when no row fails. *)
Theorem X4_zero_tolerance_total_cure :
  forall (rows : list Zero.Fee) (bucket : ZeroBucket)
         (options : option RuleOptions),
    let res := Zero.evaluateZeroTolerance rows bucket options in
    Zero.totalCure res =
      round2 (total (List.map Zero.cureAmount (Zero.rows res))) /\
    Forall (fun r => 0 <= Zero.cureAmount r /\
                     Zero.cureAmount r <= Zero.totalCure res)
      (Zero.rows res) /\
    (Zero.failCount res = 0%nat -> Zero.totalCure res == 0).
Proof.
  intros rows bucket options res.
  assert (Htot : Zero.totalCure res =
            currency (sum_of Zero.cureAmount (Zero.rows res))).
  { subst res. unfold Zero.evaluateZeroTolerance.
    cbn [Zero.totalCure Zero.rows]. reflexivity. }
  assert (Hrows : Forall (fun r => 0 <= Zero.cureAmount r /\
                    currency (Zero.cureAmount r) == Zero.cureAmount r /\
                    (Zero.status r <> FAIL -> Zero.cureAmount r = 0))
                    (Zero.rows res)).
  { subst res. apply Zero_rows_Forall.
    - intros r L T.
      now destruct (Zero_cure_row_frame L T r) as (_ & _ & -> & ->).
    - intros row.
      destruct (Zero_cure_nonneg_cents bucket (spread_options options) row)
        as [H1 H2].
      split; [exact H1|]. split; [exact H2|].
      rewrite Zero_evaluate_row_cases. cbv zeta.
      destruct (Num.ltb _ _), (Zero.misplaced bucket row);
        cbn [Zero.status Zero.cureAmount]; congruence. }
  split; [|split].
  - rewrite Htot, <- currency_round2. apply currency_comp, sum_of_total.
  - rewrite List.Forall_forall in Hrows. apply List.Forall_forall.
    intros r Hin. destruct (Hrows r Hin) as (H1 & H2 & _).
    split; [exact H1|].
    rewrite Htot, <- H2. apply currency_mono. rewrite sum_of_total.
    apply total_member_le; [|now apply in_map].
    apply List.Forall_map, List.Forall_forall. intros r' Hin'.
    apply (Hrows r' Hin').
  - intros Hfail. rewrite Htot.
    assert (Hf : Zero.count_status FAIL (Zero.rows res) = 0%nat).
    { rewrite <- Hfail. subst res. unfold Zero.evaluateZeroTolerance.
      reflexivity. }
    assert (E : sum_of Zero.cureAmount (Zero.rows res) == 0);
      [|rewrite (currency_comp _ _ E); apply currency_zero].
    rewrite sum_of_total.
    clear Htot Hfail. unfold Zero.count_status in Hf.
    induction Hrows as [|r l (H1 & H2 & H3) _ IH];
      cbn [List.map]; unfold total; cbn [fold_right]; [reflexivity|].
    cbn [List.filter] in Hf.
    destruct (RowStatus_eqb (Zero.status r) FAIL) eqn:E;
      [discriminate Hf|].
    fold (total (List.map Zero.cureAmount l)). rewrite (IH Hf).
    rewrite H3; [ring|]. intros HF. rewrite HF in E. discriminate.
Qed.

(** ** Lender credits that do not cover the cure *)

Lemma ltb_or_zero (L : Q) : Num.ltb 0 (or_zero L) = Num.ltb 0 L.
Proof.
  unfold or_zero. destruct (Num.truthy L) eqn:E; [reflexivity|].
  assert (H : L == 0).
  { destruct (Qeq_dec L 0) as [H|H]; [exact H|].
    apply truthy_nonzero in H. congruence. }
  symmetry. apply ltb_ge. lra.
Qed.

Lemma leb_or_zero (x L : Q) :
  0 < x -> Num.leb x (or_zero L) = Num.leb x L.
Proof.
  intros Hx. unfold or_zero. destruct (Num.truthy L) eqn:E; [reflexivity|].
  assert (H : L == 0).
  { destruct (Qeq_dec L 0) as [H|H]; [exact H|].
    apply truthy_nonzero in H. congruence. }
  unfold Num.leb. now rewrite H.
Qed.

Lemma map_id_ext {T : Type} (g : T -> T) (l : list T) :
  (forall x, g x = x) -> List.map g l = l.
Proof.
  intros H. rewrite <- (map_id l) at 2. now apply map_ext.
Qed.

(** X5.  A lender credit that is not positive, or that is smaller than the
    cure it would have to cover, changes nothing: [evaluateZeroTolerance]
    and [evaluateTenPercent] return exactly what they return without any
    credit, and no row is flagged CURED_BY_LENDER for a partial cover. *)
Theorem X5_uncovering_credit_changes_nothing :
  (forall (rows : list Zero.Fee) (bucket : ZeroBucket)
          (options : option RuleOptions) (L : Q),
     let res0 := Zero.evaluateZeroTolerance rows bucket
                   (set_lender_credits options None) in
     ~ (0 < L /\ Zero.totalCure res0 <= L) ->
     Zero.evaluateZeroTolerance rows bucket
       (set_lender_credits options (Some L)) = res0) /\
  (forall (rows : list Ten.Fee) (overrides : Ten.OverrideMap)
          (options : option RuleOptions) (L : Q),
     let res0 := Ten.evaluateTenPercent rows overrides
                   (set_lender_credits options None) in
     ~ (0 < Ten.overage res0 /\ Ten.overage res0 <= L) ->
     Ten.evaluateTenPercent rows overrides
       (set_lender_credits options (Some L)) = res0).
Proof.
  split.
  - intros rows bucket options L res0. subst res0.
    unfold Zero.evaluateZeroTolerance.
    destruct (spread_set_lender_credits options None) as (Ht0 & _ & _ & HL0).
    destruct (spread_set_lender_credits options (Some L))
      as (Ht1 & _ & _ & HL1).
    rewrite HL0, HL1.
    change (default 0 (Some L)) with L. change (default 0 None) with 0.
    change (or_zero 0) with 0. change (Num.ltb 0 0) with false. cbn [andb].
    set (config := spread_options (set_lender_credits options None)).
    assert (Heval :
      List.map (Zero.evaluate_row bucket
        (spread_options (set_lender_credits options (Some L)))) rows =
      List.map (Zero.evaluate_row bucket config) rows).
    { apply map_ext. intros row. apply Zero_evaluate_row_config.
      exact (eq_trans Ht1 (eq_sym Ht0)). }
    rewrite Heval. clear Heval.
    set (evaluated := List.map (Zero.evaluate_row bucket config) rows).
    cbn [Zero.totalCure]. intros Hno.
    set (T := currency (sum_of Zero.cureAmount evaluated)) in *.
    assert (Hid : (if Num.ltb 0 (or_zero L) && Num.ltb 0 T
                   then List.map (Zero.cure_row (or_zero L) T) evaluated
                   else evaluated) = evaluated).
    { rewrite ltb_or_zero.
      destruct (Num.ltb 0 L) eqn:EL; cbn [andb]; [|reflexivity].
      destruct (Num.ltb 0 T) eqn:ET; [|reflexivity].
      apply ltb_lt in EL, ET.
      apply map_id_ext. intros r. unfold Zero.cure_row.
      rewrite (leb_or_zero T L ET).
      destruct (Num.leb T L) eqn:E; [|now rewrite andb_false_r].
      apply leb_le in E. exfalso. apply Hno. now split. }
    now rewrite Hid.
  - intros rows overrides options L res0. subst res0.
    unfold Ten.evaluateTenPercent.
    destruct (spread_set_lender_credits options None) as (_ & Hf0 & Hc0 & HL0).
    destruct (spread_set_lender_credits options (Some L))
      as (_ & Hf1 & Hc1 & HL1).
    rewrite HL0, HL1.
    change (default 0 (Some L)) with L. change (default 0 None) with 0.
    change (or_zero 0) with 0.
    set (config := spread_options (set_lender_credits options None)).
    assert (Heval :
      List.map (Ten.evaluate_row overrides
        (spread_options (set_lender_credits options (Some L)))) rows =
      List.map (Ten.evaluate_row overrides config) rows).
    { apply map_ext. intros row. apply Ten_evaluate_row_config.
      - exact (eq_trans Hf1 (eq_sym Hf0)).
      - exact (eq_trans Hc1 (eq_sym Hc0)). }
    rewrite Heval. clear Heval.
    set (evaluated := List.map (Ten.evaluate_row overrides config) rows).
    cbn [Ten.overage].
    set (overage := currency (Num.Math_max 0 _)).
    intros Hno.
    assert (H0 : Num.ltb 0 overage && Num.leb overage 0 = false).
    { destruct (Num.ltb 0 overage) eqn:E1; [|reflexivity].
      destruct (Num.leb overage 0) eqn:E2; [|reflexivity].
      apply ltb_lt in E1. apply leb_le in E2. exfalso. lra. }
    assert (H1 : Num.ltb 0 overage && Num.leb overage (or_zero L) = false).
    { destruct (Num.ltb 0 overage) eqn:E1; [|reflexivity].
      apply ltb_lt in E1. rewrite (leb_or_zero overage L E1).
      destruct (Num.leb overage L) eqn:E2; [|reflexivity].
      apply leb_le in E2. exfalso. apply Hno. now split. }
    now rewrite H0, H1.
Qed.

(** X5 at the built-in origination rows (cure 154.00) with a credit of
    100, and at the rows 15% over their estimate (overage 50.00) with a
    credit of 20. *)
Lemma X5_uncovering_credit_witness :
  ~ (0 < 100 /\
     Zero.totalCure (Zero.evaluateZeroTolerance
       (origination TridData.buildDummyToleranceData) BucketA
       (set_lender_credits None None)) <= 100) /\
  Zero.evaluateZeroTolerance
    (origination TridData.buildDummyToleranceData) BucketA
    (set_lender_credits None (Some 100)) =
  Zero.evaluateZeroTolerance
    (origination TridData.buildDummyToleranceData) BucketA
    (set_lender_credits None None) /\
  ~ (0 < Ten.overage (Ten.evaluateTenPercent sample_ten_rows ∅
           (set_lender_credits None None)) /\
     Ten.overage (Ten.evaluateTenPercent sample_ten_rows ∅
       (set_lender_credits None None)) <= 20) /\
  Ten.evaluateTenPercent sample_ten_rows ∅ (set_lender_credits None (Some 20))
  = Ten.evaluateTenPercent sample_ten_rows ∅ (set_lender_credits None None).
Proof.
  assert (H1 : ~ (0 < 100 /\
     Zero.totalCure (Zero.evaluateZeroTolerance
       (origination TridData.buildDummyToleranceData) BucketA
       (set_lender_credits None None)) <= 100)).
  { intros [_ H]. apply Qle_bool_iff in H. vm_compute in H. discriminate. }
  assert (H2 : ~ (0 < Ten.overage (Ten.evaluateTenPercent sample_ten_rows ∅
           (set_lender_credits None None)) /\
     Ten.overage (Ten.evaluateTenPercent sample_ten_rows ∅
       (set_lender_credits None None)) <= 20)).
  { intros [_ H]. apply Qle_bool_iff in H. vm_compute in H. discriminate. }
  split; [exact H1|]. split.
  - exact (proj1 X5_uncovering_credit_changes_nothing
      (origination TridData.buildDummyToleranceData) BucketA None 100 H1).
  - split; [exact H2|].
    exact (proj2 X5_uncovering_credit_changes_nothing
      sample_ten_rows ∅ None 20 H2).
Defined.

(** ** Ten percent: row status, flags and the aggregate *)

Lemma ten_row_rule_evaluate_row (overrides : Ten.OverrideMap)
  (config : Config) (row : Ten.Fee) :
  ten_row_rule (cfg_reviewConfidenceFloor config)
    (cfg_reviewConfidenceCeil config)
    (Ten.evaluate_row overrides config row).
Proof.
  unfold ten_row_rule, Ten.evaluate_row. cbv zeta.
  cbn [Ten.base Ten.status Ten.flags Ten.effectiveOnWhitelist Ten.inTenGroup].
  pose proof (Ten_recording_iff row) as Hrec.
  generalize dependent (Ten.recording row). intros rec Hrec.
  generalize (Ten.effective overrides row). intros eff.
  rewrite !has_flag_push_if.
  cbn [has_flag existsb code Ten.off_list_flag Ten.low_confidence_flag
       buildFlag ToleranceFlag_eqb orb].
  rewrite !andb_false_r, !andb_true_r, ?orb_false_r.
  set (mc := Ten.matchConfidence row).
  set (floor := cfg_reviewConfidenceFloor config).
  set (ceil := cfg_reviewConfidenceCeil config).
  assert (Hf : (Num.leb floor mc = true /\ Num.ltb mc floor = false /\
                floor <= mc) \/
               (Num.leb floor mc = false /\ Num.ltb mc floor = true /\
                mc < floor)).
  { destruct (Qlt_le_dec mc floor) as [H|H]; [right|left].
    - split; [|split; [now apply ltb_lt|exact H]].
      destruct (Num.leb floor mc) eqn:E; [|reflexivity].
      apply leb_le in E. exfalso. lra.
    - split; [now apply leb_le|]. split; [now apply ltb_ge|exact H]. }
  assert (Hc : (Num.ltb mc ceil = true /\ mc < ceil) \/
               (Num.ltb mc ceil = false /\ ceil <= mc)).
  { destruct (Qlt_le_dec mc ceil) as [H|H]; [left|right].
    - split; [now apply ltb_lt|exact H].
    - split; [now apply ltb_ge|exact H]. }
  assert (Hrec' : rec = false -> ~ (Ten.providerType row = "E" \/
                                    Ten.isRecording row = Some true)).
  { intros -> H. apply Hrec in H. discriminate. }
  assert (Hrec'' : rec = true -> (Ten.providerType row = "E" \/
                                  Ten.isRecording row = Some true)).
  { intros ->. now apply Hrec. }
  clear Hrec.
  destruct Hf as [(-> & -> & Hf) | (-> & -> & Hf)];
    destruct Hc as [(-> & Hc) | (-> & Hc)];
    destruct eff; destruct rec;
    try specialize (Hrec' eq_refl); try specialize (Hrec'' eq_refl);
    cbn [andb orb negb];
    try (exfalso; lra);
    repeat split; intros;
    try reflexivity; try discriminate; try congruence; try tauto;
    try (exfalso; lra);
    try (exfalso; tauto);
    try (intuition (try congruence; try lra)).
Qed.

Lemma ten_row_rule_cure_row (floor ceil L : Q) (r : Ten.DisplayRow) :
  ten_row_rule floor ceil r -> ten_row_rule floor ceil (Ten.cure_row L r).
Proof.
  unfold Ten.cure_row.
  destruct (Ten.inTenGroup r && Num.ltb 0 (Ten.delta r)) eqn:E; [|auto].
  apply andb_true_iff in E as [Eg _].
  unfold ten_row_rule.
  cbn [Ten.base Ten.status Ten.flags Ten.effectiveOnWhitelist Ten.inTenGroup].
  rewrite !has_flag_app. cbn [has_flag existsb code Ten.cured_flag buildFlag
    ToleranceFlag_eqb orb]. rewrite !orb_false_r.
  intros (H1 & H2 & H3 & H4 & H5 & H6).
  repeat (split; [assumption|]).
  intros Hlow. destruct (H6 Hlow) as [_ Hg]. congruence.
Qed.

(** X6.  For every row returned by [evaluateTenPercent]: the status is
    REVIEW exactly when the match is low-confidence, or in the review band,
    or off the whitelist without being a recording fee, and PASS otherwise
    (never FAIL); PROVIDER_OFF_LIST is raised exactly for a confident
    off-list non-recording row, and such a row is never in the group;
    LOW_CONFIDENCE is raised exactly in the review band; a low-confidence
    row carries no flag at all and is out of the group. *)
Theorem X6_ten_percent_row_rule :
  forall (rows : list Ten.Fee) (overrides : Ten.OverrideMap)
         (options : option RuleOptions),
    Forall (ten_row_rule
              (cfg_reviewConfidenceFloor (spread_options options))
              (cfg_reviewConfidenceCeil (spread_options options)))
      (Ten.rows (Ten.evaluateTenPercent rows overrides options)).
Proof.
  intros. apply Ten_rows_Forall.
  - intros r L. apply ten_row_rule_cure_row.
  - intros row. apply ten_row_rule_evaluate_row.
Qed.

(** X7.  In the result of [evaluateTenPercent], leBase, cdTotal and
    allowedMax are whole numbers of cents, so the final rounding of the
    overage is exact: overage = max (0, cdTotal - allowedMax); it is never
    negative, and the status is OVER exactly when cdTotal > allowedMax. *)
Theorem X7_ten_percent_overage_exact :
  forall (rows : list Ten.Fee) (overrides : Ten.OverrideMap)
         (options : option RuleOptions),
    let res := Ten.evaluateTenPercent rows overrides options in
    is_cents (Ten.leBase res) /\ is_cents (Ten.cdTotal res) /\
    is_cents (Ten.allowedMax res) /\
    Ten.overage res == Qmax 0 (Ten.cdTotal res - Ten.allowedMax res) /\
    0 <= Ten.overage res /\
    (Ten.group_status res = OVER <-> Ten.allowedMax res < Ten.cdTotal res) /\
    (Ten.group_status res = GROUP_PASS <->
       Ten.cdTotal res <= Ten.allowedMax res).
Proof.
  intros rows overrides options res. subst res.
  unfold Ten.evaluateTenPercent.
  cbn [Ten.leBase Ten.cdTotal Ten.allowedMax Ten.overage Ten.group_status].
  set (leBase := currency (sum_of _ _)).
  set (cdTotal := currency (sum_of _ _)).
  set (allowedMax := currency (leBase * (11 # 10))).
  assert (Hd : is_cents (cdTotal - allowedMax))
    by (apply is_cents_minus; apply currency_is_cents).
  assert (Hov : currency (Num.Math_max 0 (cdTotal - allowedMax)) ==
                Qmax 0 (cdTotal - allowedMax)).
  { rewrite Math_max_zero_currency.
    now rewrite (currency_of_cents _ Hd). }
  split; [apply currency_is_cents|]. split; [apply currency_is_cents|].
  split; [apply currency_is_cents|]. split; [exact Hov|].
  split; [rewrite Hov; apply Q.le_max_l|].
  destruct (Num.ltb 0 _) eqn:E;
    [apply ltb_lt in E | apply ltb_ge in E]; rewrite Hov in E.
  - assert (H : allowedMax < cdTotal).
    { destruct (Qlt_le_dec allowedMax cdTotal) as [H|H]; [exact H|].
      rewrite Q.max_l in E by lra. exfalso. lra. }
    split; split; intros; try discriminate; try assumption;
      try reflexivity; exfalso; lra.
  - assert (H : cdTotal <= allowedMax).
    { destruct (Qlt_le_dec allowedMax cdTotal) as [H|H]; [|exact H].
      rewrite Q.max_r in E by lra. exfalso. lra. }
    split; split; intros; try discriminate; try assumption;
      try reflexivity; exfalso; lra.
Qed.

(** ** Manual overrides *)

(** X8.  An override only reaches the fee whose id it names: adding an
    override under an id that no row carries leaves the whole result of
    [evaluateTenPercent] unchanged; and an override entry without an
    includeInGroup value is the same as no entry. *)
Theorem X8_override_reaches_only_its_fee :
  (forall (rows : list Ten.Fee) (overrides : Ten.OverrideMap)
          (options : option RuleOptions) (k : string) (o : Ten.Override),
     Forall (fun row => Ten.id row <> k) rows ->
     Ten.evaluateTenPercent rows (<[k := o]> overrides) options =
     Ten.evaluateTenPercent rows overrides options) /\
  (forall (rows : list Ten.Fee) (overrides : Ten.OverrideMap)
          (options : option RuleOptions) (k : string),
     Ten.evaluateTenPercent rows
       (<[k := {| Ten.includeInGroup := None |}]> overrides) options =
     Ten.evaluateTenPercent rows (delete k overrides) options).
Proof.
  assert (Hrow : forall (ov1 ov2 : Ten.OverrideMap) config row,
            Ten.effective ov1 row = Ten.effective ov2 row ->
            Ten.evaluate_row ov1 config row = Ten.evaluate_row ov2 config row).
  { intros ov1 ov2 config row H. unfold Ten.evaluate_row. now rewrite H. }
  split.
  - intros rows overrides options k o Hall.
    unfold Ten.evaluateTenPercent.
    assert (E : List.map (Ten.evaluate_row (<[k := o]> overrides)
                            (spread_options options)) rows =
                List.map (Ten.evaluate_row overrides
                            (spread_options options)) rows).
    { rewrite List.Forall_forall in Hall.
      apply map_ext_in. intros row Hin. apply Hrow.
      unfold Ten.effective.
      rewrite lookup_insert_ne; [reflexivity|].
      intros ->. now apply (Hall row Hin). }
    now rewrite E.
  - intros rows overrides options k.
    unfold Ten.evaluateTenPercent.
    assert (E : List.map (Ten.evaluate_row
                            (<[k := {| Ten.includeInGroup := None |}]> overrides)
                            (spread_options options)) rows =
                List.map (Ten.evaluate_row (delete k overrides)
                            (spread_options options)) rows).
    { apply map_ext. intros row. apply Hrow. unfold Ten.effective.
      destruct (decide (k = Ten.id row)) as [->|Hne].
      - now rewrite lookup_insert_eq, lookup_delete_eq.
      - now rewrite lookup_insert_ne, lookup_delete_ne. }
    now rewrite E.
Qed.

(** X8 at the built-in ten-percent rows, none of which has the id
    "grp-9". *)
Lemma X8_override_witness :
  Forall (fun row => Ten.id row <> "grp-9")
    (tenPercent TridData.buildDummyToleranceData) /\
  Ten.evaluateTenPercent (tenPercent TridData.buildDummyToleranceData)
    (<["grp-9" := {| Ten.includeInGroup := Some true |}]> ∅) None =
  Ten.evaluateTenPercent (tenPercent TridData.buildDummyToleranceData) ∅ None.
Proof.
  assert (H : Forall (fun row => Ten.id row <> "grp-9")
                (tenPercent TridData.buildDummyToleranceData)).
  { repeat (apply List.Forall_cons; [cbn; discriminate|]).
    apply List.Forall_nil. }
  split; [exact H|].
  exact (proj1 X8_override_reaches_only_its_fee
    (tenPercent TridData.buildDummyToleranceData) ∅ None "grp-9"
    {| Ten.includeInGroup := Some true |} H).
Defined.

(** ** Unlimited tolerance: the heuristics *)

Lemma Unlimited_truthy_iff (x : option Q) :
  Unlimited.truthy x = true <-> exists v, x = Some v /\ ~ v == 0.
Proof.
  unfold Unlimited.truthy. destruct x as [v|].
  - rewrite truthy_nonzero. split; [eauto|]. now intros (w & [= <-] & H).
  - split; [discriminate|]. now intros (w & H & _).
Qed.

Lemma Unlimited_exceeds_iff (x : option Q) (k : Q) :
  0 <= k ->
  (Unlimited.truthy x && Unlimited.exceeds x k = true <->
   exists v, x = Some v /\ k < v).
Proof.
  intros Hk. unfold Unlimited.truthy, Unlimited.exceeds.
  destruct x as [v|].
  - rewrite andb_true_iff, truthy_nonzero, ltb_lt. split.
    + intros [_ H]. eauto.
    + intros (w & [= <-] & H). split; [lra|exact H].
  - split; [discriminate|]. now intros (w & H & _).
Qed.

Lemma string_eqb_cases (s t : string) :
  (String.eqb s t = true /\ s = t) \/ (String.eqb s t = false /\ s <> t).
Proof.
  destruct (String.eqb s t) eqn:E.
  - left. split; [reflexivity|]. now apply String.eqb_eq.
  - right. split; [reflexivity|]. now apply String.eqb_neq.
Qed.

Lemma Forall_push_if (P : FlagDetail -> Prop) (c : bool) (f : FlagDetail)
  (flags : list FlagDetail) :
  Forall P flags -> P f -> Forall P (push_if c f flags).
Proof.
  intros H Hf. unfold push_if. destruct c; [|exact H].
  apply Forall_app. split; [exact H|]. now constructor.
Qed.

Lemma length_push_if (c : bool) (f : FlagDetail) (flags : list FlagDetail) :
  length (push_if c f flags) =
  (length flags + if c then 1 else 0)%nat.
Proof.
  unfold push_if. destruct c; [|lia]. rewrite length_app. reflexivity.
Qed.

Lemma push_if_false (f : FlagDetail) (flags : list FlagDetail) :
  push_if false f flags = flags.
Proof. reflexivity. Qed.

Lemma unlimited_row_rule_evaluate_row (row : Unlimited.Fee) :
  unlimited_row_rule (Unlimited.evaluate_row row).
Proof.
  unfold unlimited_row_rule, Unlimited.evaluate_row. cbv zeta.
  cbn [Unlimited.base Unlimited.flags Unlimited.status].
  pose proof (Unlimited_exceeds_iff (Unlimited.perDiemDays row) 15
                ltac:(discriminate)) as HD.
  pose proof (Unlimited_exceeds_iff (Unlimited.escrowMonths row) 2
                ltac:(discriminate)) as HM.
  assert (HC : Unlimited.per_diem_checked row = true ->
     Unlimited.bucket row = "F" /\
     (exists d, Unlimited.perDiemDays row = Some d /\ ~ d == 0) /\
     (exists l, Unlimited.loanAmount row = Some l /\ ~ l == 0) /\
     (exists i, Unlimited.interestRate row = Some i /\ ~ i == 0) /\
     0 < borrower (Unlimited.cd row)).
  { unfold Unlimited.per_diem_checked.
    rewrite !andb_true_iff, String.eqb_eq, !Unlimited_truthy_iff, ltb_lt.
    tauto. }
  assert (HO : default false (Unlimited.lenderRequired row) &&
               negb (default false (Unlimited.isOptional row)) = true <->
               Unlimited.lenderRequired row = Some true /\
               Unlimited.isOptional row <> Some true).
  { destruct (Unlimited.lenderRequired row) as [[|]|];
      destruct (Unlimited.isOptional row) as [[|]|]; cbn;
      split; intros; try discriminate; try (split; congruence);
      try (destruct H; congruence). }
  rewrite <- !andb_assoc.
  set (c1 := String.eqb (Unlimited.bucket row) "F" &&
             (Unlimited.truthy (Unlimited.perDiemDays row) &&
              Unlimited.exceeds (Unlimited.perDiemDays row) 15)).
  set (c2 := Unlimited.per_diem_checked row &&
             Ieee.gtb (Unlimited.deviation_percent row) 10).
  set (c3 := String.eqb (Unlimited.bucket row) "G" &&
             (Unlimited.truthy (Unlimited.escrowMonths row) &&
              Unlimited.exceeds (Unlimited.escrowMonths row) 2)).
  set (c4 := String.eqb (Unlimited.bucket row) "H" &&
             (default false (Unlimited.lenderRequired row) &&
              negb (default false (Unlimited.isOptional row)))).
  assert (H1 : c1 = true <-> Unlimited.bucket row = "F" /\
                 exists d, Unlimited.perDiemDays row = Some d /\ 15 < d).
  { subst c1. now rewrite andb_true_iff, String.eqb_eq, HD. }
  assert (H2 : c2 = true -> Unlimited.bucket row = "F" /\
     (exists d, Unlimited.perDiemDays row = Some d /\ ~ d == 0) /\
     (exists l, Unlimited.loanAmount row = Some l /\ ~ l == 0) /\
     (exists i, Unlimited.interestRate row = Some i /\ ~ i == 0) /\
     0 < borrower (Unlimited.cd row)).
  { subst c2. intros H. apply andb_true_iff in H as [H _]. now apply HC. }
  assert (H3 : c3 = true <-> Unlimited.bucket row = "G" /\
                 exists m, Unlimited.escrowMonths row = Some m /\ 2 < m).
  { subst c3. now rewrite andb_true_iff, String.eqb_eq, HM. }
  assert (H4 : c4 = true <-> Unlimited.bucket row = "H" /\
                 Unlimited.lenderRequired row = Some true /\
                 Unlimited.isOptional row <> Some true).
  { subst c4. now rewrite andb_true_iff, String.eqb_eq, HO. }
  clearbody c1 c2 c3 c4. clear HD HM HC HO.
  rewrite !has_flag_push_if.
  cbn [has_flag existsb code Unlimited.outlier_flag Unlimited.deviation_flag
       Unlimited.escrow_flag Unlimited.optionality_flag buildFlag
       ToleranceFlag_eqb orb].
  rewrite !andb_false_r, !andb_true_r, ?orb_false_r. cbn [orb].
  split; [exact H1|]. split; [exact H3|]. split; [exact H4|].
  split; [exact H2|].
  split.
  { repeat apply Forall_push_if; try constructor; cbn; auto. }
  match goal with
  | |- (length ?l <= 2)%nat /\ _ =>
      assert (Hlen : length l =
        ((if c1 then 1 else 0) + (if c2 then 1 else 0) +
         (if c3 then 1 else 0) + (if c4 then 1 else 0))%nat)
        by (rewrite !length_push_if; cbn [length]; lia)
  end.
  assert (Hex : (c1 = true \/ c2 = true) -> c3 = false /\ c4 = false).
  { intros H.
    assert (HF : Unlimited.bucket row = "F")
      by (destruct H as [H|H]; [apply H1 in H | apply H2 in H]; tauto).
    split.
    - destruct c3; [|reflexivity]. destruct (proj1 H3 eq_refl) as [HG _].
      rewrite HF in HG. discriminate HG.
    - destruct c4; [|reflexivity]. destruct (proj1 H4 eq_refl) as [HH _].
      rewrite HF in HH. discriminate HH. }
  assert (Hex' : c3 = true -> c4 = false).
  { intros H. destruct (proj1 H3 H) as [HG _].
    destruct c4; [|reflexivity]. destruct (proj1 H4 eq_refl) as [HH _].
    rewrite HG in HH. discriminate HH. }
  split.
  { rewrite Hlen. destruct c1, c2, c3, c4; cbn; try lia;
      try (destruct Hex as [? ?]; [auto|discriminate]);
      try (specialize (Hex' eq_refl); discriminate). }
  split.
  { destruct (0 <? _)%nat; auto. }
  intros NF NG NH.
  assert (c1 = false) as ->.
  { destruct c1; [|reflexivity]. exfalso. now apply NF, H1. }
  assert (c2 = false) as ->.
  { destruct c2; [|reflexivity]. exfalso. now apply NF, H2. }
  assert (c3 = false) as ->.
  { destruct c3; [|reflexivity]. exfalso. now apply NG, H3. }
  assert (c4 = false) as ->.
  { destruct c4; [|reflexivity]. exfalso. now apply NH, H4. }
  split; reflexivity.
Qed.

(** X9.  [evaluateUnlimited] returns one row per input fee, never FAIL,
    with at most two flags, all warnings: PER_DIEM_OUTLIER exactly for a
    bucket-"F" fee with more than 15 per-diem days, ESCROW_CUSHION_EXCEEDED
    exactly for a bucket-"G" fee with more than 2 escrow months,
    OPTIONALITY_MISMATCH exactly for a bucket-"H" fee marked lender-required
    and not marked optional, and PER_DIEM_INTEREST_DEVIATION only for a
    bucket-"F" fee with non-zero days, loan amount and rate and a positive
    charge; a fee of any other bucket is PASS with no flag. *)
Theorem X9_unlimited_row_rule :
  forall rows : list Unlimited.Fee,
    length (Unlimited.evaluateUnlimited rows) = length rows /\
    Forall unlimited_row_rule (Unlimited.evaluateUnlimited rows).
Proof.
  intros rows. unfold Unlimited.evaluateUnlimited. split.
  - apply length_map.
  - apply List.Forall_map, List.Forall_forall. intros row _.
    apply unlimited_row_rule_evaluate_row.
Qed.

(** ** The exception list *)

Lemma length_flat_map_sum {T U : Type} (f : T -> list U) (l : list T) :
  length (flat_map f l) = list_sum (List.map (fun x => length (f x)) l).
Proof.
  induction l as [|x l IH]; [reflexivity|].
  cbn [flat_map List.map]. unfold list_sum. cbn [fold_right].
  fold (list_sum (List.map (fun x => length (f x)) l)).
  now rewrite length_app, IH.
Qed.

Lemma flat_map_nil_iff {T U : Type} (f : T -> list U) (l : list T) :
  flat_map f l = [] <-> Forall (fun x => f x = []) l.
Proof.
  induction l as [|x l IH]; cbn [flat_map].
  - split; [constructor|reflexivity].
  - split.
    + intros H. apply app_eq_nil in H as [H1 H2].
      constructor; [exact H1|now apply IH].
    + intros H. inversion H as [|? ? H1 H2]; subst.
      rewrite H1. now apply IH.
Qed.

Lemma app_nil_iff {T : Type} (l1 l2 : list T) :
  l1 ++ l2 = [] <-> l1 = [] /\ l2 = [].
Proof.
  split; [apply app_eq_nil|]. now intros [-> ->].
Qed.

Lemma flag_entries_nil_iff (section id fee : string) (delta : Q)
  (flags : list FlagDetail) :
  flag_entries section id fee delta flags = [] <-> flags = [].
Proof.
  unfold flag_entries. destruct flags; cbn; split; congruence.
Qed.

Lemma length_flag_entries_rows {T : Type} (section id fee : T -> string)
  (delta : T -> Q) (flags : T -> list FlagDetail) (rows : list T) :
  length (flat_map (fun row =>
    flag_entries (section row) (id row) (fee row) (delta row) (flags row))
    rows) = flag_count flags rows.
Proof.
  unfold flag_count. rewrite length_flat_map_sum. f_equal.
  apply map_ext. intros row. apply length_map.
Qed.

(** X10.  [collectExceptions] makes exactly one entry per flag of every
    row, plus one when the ten-percent overage is positive (nothing is
    merged or dropped); every entry carries an amount; and the list is
    empty exactly when no row has a flag and the overage is not positive. *)
Theorem X10_collect_exceptions_count :
  forall (a b : Zero.Result) (ten : Ten.Result)
         (unlimited : list Unlimited.DisplayRow),
    let entries := collectExceptions a b ten unlimited in
    length entries =
      (flag_count Zero.flags (Zero.rows a) +
       flag_count Zero.flags (Zero.rows b) +
       flag_count Ten.flags (Ten.rows ten) +
       flag_count Unlimited.flags unlimited +
       (if Num.ltb 0 (Ten.overage ten) then 1 else 0))%nat /\
    Forall (fun e => exc_amount e <> None) entries /\
    (entries = [] <->
     Forall (fun r => Zero.flags r = []) (Zero.rows a) /\
     Forall (fun r => Zero.flags r = []) (Zero.rows b) /\
     Forall (fun r => Ten.flags r = []) (Ten.rows ten) /\
     Forall (fun r => Unlimited.flags r = []) unlimited /\
     Ten.overage ten <= 0).
Proof.
  intros a b ten unlimited entries. subst entries.
  unfold collectExceptions.
  split; [|split].
  - rewrite !length_app.
    rewrite (length_flag_entries_rows (fun _ => "A")
               (fun row => Zero.id (Zero.base row))
               (fun row => Zero.fee (Zero.base row)) Zero.delta Zero.flags).
    rewrite (length_flag_entries_rows (fun _ => "B")
               (fun row => Zero.id (Zero.base row))
               (fun row => Zero.fee (Zero.base row)) Zero.delta Zero.flags).
    rewrite (length_flag_entries_rows (fun _ => "C+E")
               (fun row => Ten.id (Ten.base row))
               (fun row => Ten.fee (Ten.base row)) Ten.delta Ten.flags).
    rewrite (length_flag_entries_rows
               (fun row => Unlimited.bucket (Unlimited.base row))
               (fun row => Unlimited.id (Unlimited.base row))
               (fun row => Unlimited.fee (Unlimited.base row))
               Unlimited.delta Unlimited.flags).
    destruct (Num.ltb 0 (Ten.overage ten)); cbn [length]; lia.
  - assert (E : forall s i f d fl,
              Forall (fun e => exc_amount e <> None)
                (flag_entries s i f d fl)).
    { intros. apply List.Forall_map, List.Forall_forall.
      intros x _. cbn. discriminate. }
    repeat (apply Forall_app; split);
      try (apply List.Forall_flat_map, List.Forall_forall; intros; apply E).
    destruct (Num.ltb 0 (Ten.overage ten)); repeat constructor.
    cbn. discriminate.
  - rewrite !app_nil_iff, !flat_map_nil_iff.
    setoid_rewrite flag_entries_nil_iff.
    destruct (Num.ltb 0 (Ten.overage ten)) eqn:E;
      [apply ltb_lt in E | apply ltb_ge in E].
    + split; [intros (_ & _ & _ & _ & H); discriminate H|].
      intros (_ & _ & _ & _ & H). exfalso. lra.
    + tauto.
Qed.

Lemma error_entries_of_flags (section id fee : string) (delta : Q)
  (flags : list FlagDetail) :
  length (List.filter is_error (flag_entries section id fee delta flags)) =
  length (List.filter is_error_flag flags).
Proof.
  unfold flag_entries. induction flags as [|f flags IH]; [reflexivity|].
  cbn [List.map List.filter]. unfold is_error at 1, is_error_flag at 1.
  cbn [exc_severity]. destruct (severity f); cbn [length]; now rewrite IH.
Qed.

Lemma error_entries_flat_map {T : Type} (entries : T -> list ExceptionEntry)
  (n : T -> nat) (rows : list T) :
  (forall r, In r rows -> length (List.filter is_error (entries r)) = n r) ->
  length (List.filter is_error (flat_map entries rows)) =
  list_sum (List.map n rows).
Proof.
  induction rows as [|r rows IH]; intros H; [reflexivity|].
  cbn [flat_map List.map]. unfold list_sum. cbn [fold_right].
  fold (list_sum (List.map n rows)).
  rewrite List.filter_app, length_app, (H r (or_introl eq_refl)).
  f_equal. apply IH. intros r' Hr'. apply H. now right.
Qed.

Lemma list_sum_zero {T : Type} (rows : list T) :
  list_sum (List.map (fun _ => 0%nat) rows) = 0%nat.
Proof. induction rows as [|r rows IH]; [reflexivity|exact IH]. Qed.

Lemma Zero_error_flags (rows : list Zero.Fee) (bucket : ZeroBucket)
  (options : option RuleOptions) :
  Forall (fun r =>
            length (List.filter is_error_flag (Zero.flags r)) =
            if RowStatus_eqb (Zero.status r) FAIL then 1%nat else 0%nat)
    (Zero.rows (Zero.evaluateZeroTolerance rows bucket options)).
Proof.
  apply Zero_rows_Forall.
  - intros r L T H. unfold Zero.cure_row. destruct (_ && _); [|exact H].
    cbn [Zero.flags Zero.status]. rewrite List.filter_app, length_app, H.
    cbn. lia.
  - intros row. rewrite Zero_evaluate_row_cases. cbv zeta.
    destruct (Num.ltb _ _), (Zero.misplaced bucket row); reflexivity.
Qed.

Lemma Zero_fail_sum (l : list Zero.DisplayRow) :
  list_sum (List.map (fun r =>
    if RowStatus_eqb (Zero.status r) FAIL then 1%nat else 0%nat) l) =
  Zero.count_status FAIL l.
Proof.
  unfold Zero.count_status. induction l as [|r l IH]; [reflexivity|].
  cbn [List.map List.filter]. unfold list_sum in *. cbn [fold_right].
  destruct (RowStatus_eqb (Zero.status r) FAIL); cbn [length]; lia.
Qed.

Lemma Ten_error_flags (rows : list Ten.Fee) (overrides : Ten.OverrideMap)
  (options : option RuleOptions) :
  Forall (fun r => List.filter is_error_flag (Ten.flags r) = [])
    (Ten.rows (Ten.evaluateTenPercent rows overrides options)).
Proof.
  apply Ten_rows_Forall.
  - intros r L H. unfold Ten.cure_row. destruct (_ && _); [|exact H].
    cbn [Ten.flags]. now rewrite List.filter_app, H.
  - intros row. unfold Ten.evaluate_row. cbv zeta. cbn [Ten.flags].
    unfold push_if. repeat match goal with
    | |- context [if ?c then _ else _] => destruct c
    end; reflexivity.
Qed.

Lemma Unlimited_error_flags (rows : list Unlimited.Fee) :
  Forall (fun r => List.filter is_error_flag (Unlimited.flags r) = [])
    (Unlimited.evaluateUnlimited rows).
Proof.
  unfold Unlimited.evaluateUnlimited.
  apply List.Forall_map, List.Forall_forall. intros row _.
  destruct (unlimited_row_rule_evaluate_row row)
    as (_ & _ & _ & _ & Hall & _).
  induction Hall as [|f fl [Hw _] _ IH]; [reflexivity|].
  cbn [List.filter]. unfold is_error_flag at 1. now rewrite Hw.
Qed.

(** X11.  Over the outputs of the three evaluators, the exceptions of
    error severity are exactly one per FAIL row of bucket A, one per FAIL
    row of bucket B, and the synthetic overage entry when the ten-percent
    group is OVER: ten-percent rows and unlimited rows only ever produce
    warnings. *)
Theorem X11_error_exceptions_are_failures :
  forall (rowsA rowsB : list Zero.Fee) (optionsA optionsB : option RuleOptions)
         (trows : list Ten.Fee) (overrides : Ten.OverrideMap)
         (toptions : option RuleOptions) (urows : list Unlimited.Fee),
    let a := Zero.evaluateZeroTolerance rowsA BucketA optionsA in
    let b := Zero.evaluateZeroTolerance rowsB BucketB optionsB in
    let ten := Ten.evaluateTenPercent trows overrides toptions in
    let unlimited := Unlimited.evaluateUnlimited urows in
    length (List.filter is_error (collectExceptions a b ten unlimited)) =
    (Zero.failCount a + Zero.failCount b +
     match Ten.group_status ten with OVER => 1 | GROUP_PASS => 0 end)%nat.
Proof.
  intros rowsA rowsB optionsA optionsB trows overrides toptions urows
    a b ten unlimited.
  unfold collectExceptions.
  rewrite !List.filter_app, !length_app.
  rewrite (error_entries_flat_map _
    (fun r => if RowStatus_eqb (Zero.status r) FAIL then 1%nat else 0%nat)
    (Zero.rows a)).
  2:{ intros r Hr. rewrite error_entries_of_flags.
      pose proof (Zero_error_flags rowsA BucketA optionsA) as H.
      rewrite List.Forall_forall in H. now apply H. }
  rewrite (error_entries_flat_map _
    (fun r => if RowStatus_eqb (Zero.status r) FAIL then 1%nat else 0%nat)
    (Zero.rows b)).
  2:{ intros r Hr. rewrite error_entries_of_flags.
      pose proof (Zero_error_flags rowsB BucketB optionsB) as H.
      rewrite List.Forall_forall in H. now apply H. }
  rewrite (error_entries_flat_map _ (fun _ => 0%nat) (Ten.rows ten)).
  2:{ intros r Hr. rewrite error_entries_of_flags.
      pose proof (Ten_error_flags trows overrides toptions) as H.
      rewrite List.Forall_forall in H. now rewrite (H r Hr). }
  rewrite (error_entries_flat_map _ (fun _ => 0%nat) unlimited).
  2:{ intros r Hr. rewrite error_entries_of_flags.
      pose proof (Unlimited_error_flags urows) as H.
      rewrite List.Forall_forall in H. now rewrite (H r Hr). }
  rewrite !Zero_fail_sum, !list_sum_zero.
  assert (Ha : Zero.failCount a = Zero.count_status FAIL (Zero.rows a))
    by reflexivity.
  assert (Hb : Zero.failCount b = Zero.count_status FAIL (Zero.rows b))
    by reflexivity.
  rewrite Ha, Hb.
  assert (Ht : length (List.filter is_error
                 (if Num.ltb 0 (Ten.overage ten)
                  then [overage_entry (Ten.overage ten)] else [])) =
               match Ten.group_status ten with
               | OVER => 1%nat | GROUP_PASS => 0%nat end).
  { subst ten. unfold Ten.evaluateTenPercent.
    cbn [Ten.overage Ten.group_status].
    destruct (Num.ltb 0 _); reflexivity. }
  rewrite Ht. lia.
Qed.

(** ** The raw-document path: sections A and B *)

Lemma zero_rows_ids (prefix : string) (entries : JsMap.t Transformer.Entry) :
  forall index,
    List.map Zero.id (Transformer.zero_rows prefix index entries) =
    List.map (fun i => prefix ++ Str.of_nat i)%string
      (seq index (length entries)).
Proof.
  induction entries as [|[k v] rest IH]; intros index; [reflexivity|].
  cbn [Transformer.zero_rows List.map length seq]. f_equal. apply IH.
Qed.

Lemma zero_rows_shape (prefix : string) (entries : JsMap.t Transformer.Entry) :
  forall index,
    Forall (fun row => Zero.permittedToShop row = Some false /\
                       Zero.changeReason row = [])
      (Transformer.zero_rows prefix index entries).
Proof.
  induction entries as [|[k v] rest IH]; intros index; [constructor|].
  cbn [Transformer.zero_rows]. constructor; [now cbn|apply IH].
Qed.

Lemma zero_rows_length (prefix : string) (entries : JsMap.t Transformer.Entry) :
  forall index,
    length (Transformer.zero_rows prefix index entries) = length entries.
Proof.
  induction entries as [|[k v] rest IH]; intros index; [reflexivity|].
  cbn [Transformer.zero_rows length]. now rewrite IH.
Qed.

Lemma NoDup_map_injective {T U : Type} (f : T -> U) (l : list T) :
  (forall x y, f x = f y -> x = y) -> List.NoDup l -> List.NoDup (List.map f l).
Proof.
  intros Hf. induction 1 as [|x l Hx Hl IH]; cbn [List.map]; constructor.
  - intros Hin. apply in_map_iff in Hin as (y & Hy & Hin).
    apply Hf in Hy. now subst y.
  - exact IH.
Qed.

Lemma indexed_ids_NoDup (prefix : string) (index n : nat) :
  List.NoDup (List.map (fun i => prefix ++ Str.of_nat i)%string (seq index n)).
Proof.
  apply NoDup_map_injective; [|apply seq_NoDup].
  intros x y H. apply (inj (String.append prefix)) in H.
  unfold Str.of_nat in H. now apply (inj pretty) in H.
Qed.

Lemma Zero_never_review (rows : list Zero.Fee) (bucket : ZeroBucket)
  (options : option RuleOptions) :
  Forall (fun row => Zero.permittedToShop row <> Some true) rows ->
  Forall (fun r => has_flag SECTION_PLACEMENT_MISMATCH (Zero.flags r) = false /\
                   Zero.status r <> REVIEW)
    (Zero.rows (Zero.evaluateZeroTolerance rows bucket options)).
Proof.
  intros Hall. rewrite List.Forall_forall in Hall.
  apply Zero_rows_Forall_in.
  - intros r L T [H1 H2]. unfold Zero.cure_row.
    destruct (_ && _); [|now split]. cbn [Zero.flags Zero.status].
    rewrite has_flag_app, H1. now split.
  - intros row Hin. rewrite Zero_evaluate_row_cases. cbv zeta.
    assert (Hm : Zero.misplaced bucket row = false).
    { destruct (Zero.misplaced bucket row) eqn:E; [|reflexivity].
      apply Zero_misplaced_iff in E as [_ E]. now apply Hall in E. }
    rewrite Hm. destruct (Num.ltb _ _); cbn; split; congruence.
Qed.

Lemma Zero_count_none (s : RowStatus) (l : list Zero.DisplayRow) :
  Forall (fun r => Zero.status r <> s) l -> Zero.count_status s l = 0%nat.
Proof.
  unfold Zero.count_status. induction 1 as [|r l Hr _ IH]; [reflexivity|].
  cbn [List.filter]. destruct (RowStatus_eqb (Zero.status r) s) eqn:E;
    [|exact IH].
  apply RowStatus_eqb_eq in E. contradiction.
Qed.

(** X12.  The rows [transformSectionA] and [transformSectionB] build from
    two documents are numbered in map order ("a-0", "a-1", ..., resp.
    "b-0", ...), so their ids are pairwise distinct; every one has
    permittedToShop = false and an empty change reason.  Hence, on this path,
    [evaluateZeroTolerance] over bucket "B" never raises
    SECTION_PLACEMENT_MISMATCH and never returns REVIEW. *)
Theorem X12_raw_zero_rows :
  forall (leData cdData : option Backend.LoanEstimateRecord)
         (options : option RuleOptions),
    let a := Transformer.transformSectionA leData cdData in
    let b := Transformer.transformSectionB leData cdData in
    let res := Zero.evaluateZeroTolerance b BucketB options in
    List.map Zero.id a =
      List.map (fun i => "a-" ++ Str.of_nat i)%string (seq 0 (length a)) /\
    List.map Zero.id b =
      List.map (fun i => "b-" ++ Str.of_nat i)%string (seq 0 (length b)) /\
    List.NoDup (List.map Zero.id a) /\
    List.NoDup (List.map Zero.id b) /\
    Forall (fun row => Zero.permittedToShop row = Some false /\
                       Zero.changeReason row = []) (a ++ b) /\
    Forall (fun r =>
              has_flag SECTION_PLACEMENT_MISMATCH (Zero.flags r) = false /\
              Zero.status r <> REVIEW) (Zero.rows res) /\
    Zero.reviewCount res = 0%nat.
Proof.
  intros leData cdData options a b res.
  assert (Ha : List.map Zero.id a =
    List.map (fun i => "a-" ++ Str.of_nat i)%string (seq 0 (length a))).
  { subst a. unfold Transformer.transformSectionA.
    rewrite zero_rows_length. apply zero_rows_ids. }
  assert (Hb : List.map Zero.id b =
    List.map (fun i => "b-" ++ Str.of_nat i)%string (seq 0 (length b))).
  { subst b. unfold Transformer.transformSectionB.
    rewrite zero_rows_length. apply zero_rows_ids. }
  assert (Hshape : Forall (fun row => Zero.permittedToShop row = Some false /\
                       Zero.changeReason row = []) (a ++ b)).
  { apply Forall_app. split; apply zero_rows_shape. }
  assert (Hres : Forall (fun r =>
              has_flag SECTION_PLACEMENT_MISMATCH (Zero.flags r) = false /\
              Zero.status r <> REVIEW) (Zero.rows res)).
  { apply Zero_never_review. apply Forall_app in Hshape as [_ Hshape].
    eapply List.Forall_impl; [|exact Hshape].
    intros row [H _]. rewrite H. discriminate. }
  split; [exact Ha|]. split; [exact Hb|].
  split; [rewrite Ha; apply indexed_ids_NoDup|].
  split; [rewrite Hb; apply indexed_ids_NoDup|].
  split; [exact Hshape|]. split; [exact Hres|].
  change (Zero.reviewCount res) with (Zero.count_status REVIEW (Zero.rows res)).
  apply Zero_count_none.
  eapply List.Forall_impl; [|exact Hres]. now intros r [_ H].
Qed.

(** ** The raw-document path: sections C and E *)

Ltac ten_insert_get :=
  intros; unfold type_at, has_key, key_of;
  match goal with
  | |- context [Transformer.labelled ?item] =>
      destruct (Transformer.labelled item) as [l|]; cbn [option_map];
      [|reflexivity]
  end;
  cbv zeta;
  match goal with
  | |- context [String.eqb ?key ?k] =>
      destruct (String.eqb key k) eqn:E;
      [apply String.eqb_eq in E; subst k;
       try match goal with
       | |- context [match JsMap.get ?m key with _ => _ end] =>
           destruct (JsMap.get m key)
       end;
       rewrite JsMap_get_set_eq; reflexivity
      |apply String.eqb_neq in E;
       try match goal with
       | |- context [match JsMap.get ?m key with _ => _ end] =>
           destruct (JsMap.get m key)
       end;
       rewrite JsMap_get_set_ne by exact E; reflexivity]
  end.

Lemma insert_le_C_type m item k :
  type_at (Transformer.insert_le_C m item) k =
  if has_key k item then Some "C"%string else type_at m k.
Proof. unfold Transformer.insert_le_C. ten_insert_get. Qed.

Lemma insert_le_E_type m item k :
  type_at (Transformer.insert_le_E m item) k =
  if has_key k item then Some "E"%string else type_at m k.
Proof. unfold Transformer.insert_le_E. ten_insert_get. Qed.

Lemma insert_cd_E_type m item k :
  type_at (Transformer.insert_cd_E m item) k =
  if has_key k item then Some "E"%string else type_at m k.
Proof. unfold Transformer.insert_cd_E. ten_insert_get. Qed.

Lemma insert_cd_C_type m item k :
  type_at (Transformer.insert_cd_C m item) k =
  if has_key k item then Some (default "C"%string (type_at m k))
  else type_at m k.
Proof. unfold Transformer.insert_cd_C. ten_insert_get. Qed.

Lemma has_key_false (k : string) (item : Backend.LineItem) :
  has_key k item = false <-> key_of item <> Some k.
Proof.
  rewrite <- has_key_iff. destruct (has_key k item); split; congruence.
Qed.

Lemma no_key_snoc (k : string) (all : list Backend.LineItem)
  (item : Backend.LineItem) :
  key_of item <> Some k ->
  ((forall it, In it (all ++ [item]) -> key_of it <> Some k) <->
   (forall it, In it all -> key_of it <> Some k)).
Proof.
  intros Hk. split; intros H it Hin.
  - apply H, in_or_app. now left.
  - apply in_app_iff in Hin as [Hin | [<- | []]]; [now apply H | exact Hk].
Qed.

Lemma some_key_snoc (k : string) (es : list Backend.LineItem)
  (item : Backend.LineItem) :
  key_of item <> Some k ->
  ((exists it, In it (es ++ [item]) /\ key_of it = Some k) <->
   (exists it, In it es /\ key_of it = Some k)).
Proof.
  intros Hk. split; intros (it & Hin & Hit); exists it; (split; [|exact Hit]).
  - apply in_app_iff in Hin as [Hin | [<- | []]]; [exact Hin | contradiction].
  - apply in_or_app. now left.
Qed.

Lemma types_step_E (step : JsMap.t Transformer.TenEntry -> Backend.LineItem ->
                           JsMap.t Transformer.TenEntry)
  (m : JsMap.t Transformer.TenEntry) (item : Backend.LineItem)
  (all es : list Backend.LineItem) :
  (forall k, type_at (step m item) k =
             if has_key k item then Some "E"%string else type_at m k) ->
  types_agree m all es ->
  types_agree (step m item) (all ++ [item]) (es ++ [item]).
Proof.
  intros Hstep Hm k. rewrite Hstep. destruct (has_key k item) eqn:E.
  - apply has_key_iff in E. split.
    + split; [discriminate|]. intros H. exfalso.
      apply (H item); [apply in_or_app; right; now left | exact E].
    + intros t [= <-]. split; [|now right].
      split; [|reflexivity]. intros _. exists item.
      split; [apply in_or_app; right; now left | exact E].
  - apply has_key_false in E. destruct (Hm k) as [H1 H2]. split.
    + now rewrite H1, no_key_snoc.
    + intros t Ht. destruct (H2 t Ht) as [H3 H4]. split; [|exact H4].
      now rewrite H3, some_key_snoc.
Qed.

Lemma types_step_keep (step : JsMap.t Transformer.TenEntry ->
                              Backend.LineItem -> JsMap.t Transformer.TenEntry)
  (m : JsMap.t Transformer.TenEntry) (item : Backend.LineItem)
  (all es : list Backend.LineItem) :
  (forall k, type_at (step m item) k =
             if has_key k item
             then Some (default "C"%string (type_at m k))
             else type_at m k) ->
  (forall it, In it es -> In it all) ->
  types_agree m all es ->
  types_agree (step m item) (all ++ [item]) es.
Proof.
  intros Hstep Hincl Hm k. rewrite Hstep. destruct (Hm k) as [H1 H2].
  destruct (has_key k item) eqn:E.
  - apply has_key_iff in E. split.
    + split; [discriminate|]. intros H. exfalso.
      apply (H item); [apply in_or_app; right; now left | exact E].
    + intros t [= <-]. destruct (type_at m k) as [t0|] eqn:Et.
      * exact (H2 t0 eq_refl).
      * split; [|now left]. split; [discriminate|].
        intros (it & Hin & Hit). exfalso.
        exact (proj1 H1 eq_refl it (Hincl it Hin) Hit).
  - apply has_key_false in E. split.
    + now rewrite H1, no_key_snoc.
    + exact H2.
Qed.

Lemma types_step_C (m : JsMap.t Transformer.TenEntry)
  (item : Backend.LineItem) (all : list Backend.LineItem) :
  types_agree m all [] ->
  types_agree (Transformer.insert_le_C m item) (all ++ [item]) [].
Proof.
  intros Hm k. rewrite insert_le_C_type. destruct (Hm k) as [H1 H2].
  destruct (has_key k item) eqn:E.
  - apply has_key_iff in E. split.
    + split; [discriminate|]. intros H. exfalso.
      apply (H item); [apply in_or_app; right; now left | exact E].
    + intros t [= <-]. split; [|now left].
      split; [discriminate|]. now intros (it & [] & _).
  - apply has_key_false in E. split.
    + now rewrite H1, no_key_snoc.
    + exact H2.
Qed.

Ltac ten_insert_NoDup :=
  intros m item H;
  match goal with
  | |- List.NoDup (JsMap.keys (?f m item)) => unfold f
  end;
  destruct (Transformer.labelled item); [|exact H]; cbv zeta;
  try match goal with
  | |- context [match JsMap.get ?m ?key with _ => _ end] =>
      destruct (JsMap.get m key)
  end;
  now apply JsMap_NoDup_set.

Lemma insert_le_C_NoDup : forall m item,
  List.NoDup (JsMap.keys m) ->
  List.NoDup (JsMap.keys (Transformer.insert_le_C m item)).
Proof. ten_insert_NoDup. Qed.

Lemma insert_le_E_NoDup : forall m item,
  List.NoDup (JsMap.keys m) ->
  List.NoDup (JsMap.keys (Transformer.insert_le_E m item)).
Proof. ten_insert_NoDup. Qed.

Lemma insert_cd_C_NoDup : forall m item,
  List.NoDup (JsMap.keys m) ->
  List.NoDup (JsMap.keys (Transformer.insert_cd_C m item)).
Proof. ten_insert_NoDup. Qed.

Lemma insert_cd_E_NoDup : forall m item,
  List.NoDup (JsMap.keys m) ->
  List.NoDup (JsMap.keys (Transformer.insert_cd_E m item)).
Proof. ten_insert_NoDup. Qed.

(** A fold of one of the four loops keeps the keys distinct and the types
    in agreement; [grow] tells whether the loop's items count as section-E
    items. *)
Lemma fold_ten_insert
  (step : JsMap.t Transformer.TenEntry -> Backend.LineItem ->
          JsMap.t Transformer.TenEntry) (grow : bool) :
  (forall m item, List.NoDup (JsMap.keys m) ->
                  List.NoDup (JsMap.keys (step m item))) ->
  (forall m item all es,
     (forall it, In it es -> In it all) ->
     types_agree m all es ->
     types_agree (step m item) (all ++ [item])
       (if grow then es ++ [item] else es)) ->
  forall items m all es,
    (forall it, In it es -> In it all) ->
    List.NoDup (JsMap.keys m) -> types_agree m all es ->
    List.NoDup (JsMap.keys (fold_left step items m)) /\
    types_agree (fold_left step items m) (all ++ items)
      (if grow then es ++ items else es).
Proof.
  intros Hnd Hstep. induction items as [|item rest IH];
    intros m all es Hincl Hm Ht; cbn [fold_left].
  - rewrite !app_nil_r. destruct grow; now split.
  - replace (all ++ item :: rest) with ((all ++ [item]) ++ rest)
      by now rewrite <- app_assoc.
    replace (if grow then es ++ item :: rest else es)
      with (if grow then (es ++ [item]) ++ rest
            else (if grow then es ++ [item] else es))
      by (destruct grow; [now rewrite <- app_assoc|reflexivity]).
    destruct grow.
    + apply (IH (step m item) (all ++ [item]) (es ++ [item])).
      * intros it Hin. apply in_app_iff in Hin as [Hin|Hin];
          apply in_or_app; [left; now apply Hincl | now right].
      * now apply Hnd.
      * now apply (Hstep m item all es).
    + apply (IH (step m item) (all ++ [item]) es).
      * intros it Hin. apply in_or_app. left. now apply Hincl.
      * now apply Hnd.
      * now apply (Hstep m item all es).
Qed.

Lemma fold_insert_le_C (items : list Backend.LineItem) :
  forall m all,
    List.NoDup (JsMap.keys m) -> types_agree m all [] ->
    List.NoDup (JsMap.keys (fold_left Transformer.insert_le_C items m)) /\
    types_agree (fold_left Transformer.insert_le_C items m) (all ++ items) [].
Proof.
  induction items as [|item rest IH]; intros m all Hm Ht; cbn [fold_left].
  - rewrite app_nil_r. now split.
  - replace (all ++ item :: rest) with ((all ++ [item]) ++ rest)
      by now rewrite <- app_assoc.
    apply IH; [now apply insert_le_C_NoDup | now apply types_step_C].
Qed.

(** X13.  In the map [transformTenPercent] merges from the sections C and
    E of both documents, keys are distinct; a key has an entry exactly when
    some labelled item of the four lists normalizes to it; and the entry's
    type is "E" (a recording fee) exactly when an item with that key comes
    from section E of either document, and "C" otherwise. *)
Theorem X13_merge_ten_types :
  forall (cItems eItems cdCItems cdEItems : list Backend.LineItem),
    let m := Transformer.merge_ten cItems eItems cdCItems cdEItems in
    List.NoDup (JsMap.keys m) /\
    (forall k,
       JsMap.get m k <> None <->
       exists it, In it (cItems ++ eItems ++ cdCItems ++ cdEItems) /\
                  key_of it = Some k) /\
    (forall k e, In (k, e) m ->
       (Transformer.type e = "E" <->
        exists it, In it (eItems ++ cdEItems) /\ key_of it = Some k) /\
       (Transformer.type e = "C" \/ Transformer.type e = "E")).
Proof.
  intros cItems eItems cdCItems cdEItems m.
  assert (H0 : types_agree JsMap.empty [] []).
  { intros k. split; [split; [now intros _ it []|reflexivity]|discriminate]. }
  destruct (fold_insert_le_C cItems JsMap.empty [] (List.NoDup_nil _) H0)
    as [N1 T1].
  cbn [app] in T1.
  destruct (fold_ten_insert Transformer.insert_le_E true insert_le_E_NoDup
              (fun m0 item all es _ Ht =>
                 types_step_E Transformer.insert_le_E m0 item all es
                   (insert_le_E_type m0 item) Ht)
              eItems _ cItems [] ltac:(now intros it []) N1 T1) as [N2 T2].
  cbn [app] in T2.
  destruct (fold_ten_insert Transformer.insert_cd_C false insert_cd_C_NoDup
              (fun m0 item all es Hi Ht =>
                 types_step_keep Transformer.insert_cd_C m0 item all es
                   (insert_cd_C_type m0 item) Hi Ht)
              cdCItems _ (cItems ++ eItems) eItems
              ltac:(intros it Hin; apply in_or_app; now right) N2 T2)
    as [N3 T3].
  destruct (fold_ten_insert Transformer.insert_cd_E true insert_cd_E_NoDup
              (fun m0 item all es _ Ht =>
                 types_step_E Transformer.insert_cd_E m0 item all es
                   (insert_cd_E_type m0 item) Ht)
              cdEItems _ ((cItems ++ eItems) ++ cdCItems) eItems
              ltac:(intros it Hin; apply in_or_app; left;
                    apply in_or_app; now right) N3 T3) as [N4 T4].
  change (fold_left Transformer.insert_cd_E cdEItems _) with m in N4, T4.
  rewrite <- !app_assoc in T4.
  split; [exact N4|]. split.
  - intros k. destruct (T4 k) as [H1 _]. unfold type_at in H1.
    split.
    + intros Hne.
      destruct (List.find (has_key k)
                  (cItems ++ eItems ++ cdCItems ++ cdEItems)) as [it|] eqn:Ef.
      * apply find_some in Ef as [Hin Hk]. exists it.
        split; [exact Hin | now apply has_key_iff].
      * exfalso. apply Hne.
        destruct (JsMap.get m k); [|reflexivity].
        assert (Hn : option_map Transformer.type (@None Transformer.TenEntry)
                     = None) by reflexivity.
        exfalso.
        assert (Hall : forall it,
                  In it (cItems ++ eItems ++ cdCItems ++ cdEItems) ->
                  key_of it <> Some k).
        { intros it Hin Hk. apply has_key_iff in Hk.
          pose proof (find_none _ _ Ef it Hin). congruence. }
        apply H1 in Hall. discriminate Hall.
    + intros (it & Hin & Hk) Hnone.
      rewrite Hnone in H1. cbn in H1.
      exact (proj1 H1 eq_refl it Hin Hk).
  - intros k e Hin. apply (JsMap_In_get m k e N4) in Hin.
    destruct (T4 k) as [_ H2]. apply (H2 (Transformer.type e)).
    unfold type_at. now rewrite Hin.
Qed.

Lemma Ten_rows_Forall_in (P : Ten.DisplayRow -> Prop) (rows : list Ten.Fee)
  (overrides : Ten.OverrideMap) (options : option RuleOptions) :
  (forall r L, P r -> P (Ten.cure_row L r)) ->
  (forall row, In row rows ->
     P (Ten.evaluate_row overrides (spread_options options) row)) ->
  Forall P (Ten.rows (Ten.evaluateTenPercent rows overrides options)).
Proof.
  intros Hcure Hrow.
  destruct (Ten_rows_shape rows overrides options) as (g & Hg & ->).
  apply List.Forall_map, List.Forall_forall. intros row Hin.
  destruct (Hg (Ten.evaluate_row overrides (spread_options options) row))
    as [-> | (L & ->)];
    [apply Hrow | apply Hcure, Hrow]; exact Hin.
Qed.

Lemma ten_rows_shape (random : Transformer.Random)
  (entries : JsMap.t Transformer.TenEntry) :
  forall calls index,
    let rows := fst (Transformer.ten_rows random calls index entries) in
    Forall raw_ten_fee rows /\
    List.map Ten.id rows =
      List.map (fun i => "ten-" ++ Str.of_nat i)%string
        (seq index (length entries)) /\
    length rows = length entries /\
    snd (Transformer.ten_rows random calls index entries) =
      (calls + length (List.filter
         (fun row => negb (String.eqb (Ten.providerType row) "E")) rows))%nat.
Proof.
  induction entries as [|[k v] rest IH]; intros calls index.
  - cbn. repeat split; [constructor | lia].
  - cbn [Transformer.ten_rows]. unfold Transformer.ten_row.
    specialize (IH (if String.eqb (Transformer.type v) "E"
                    then calls else S calls) (S index)).
    destruct (Transformer.ten_rows random _ (S index) rest) as [rows c].
    cbn [fst snd] in *. destruct IH as (H1 & H2 & H3 & H4).
    split; [|split; [|split]].
    + constructor; [|exact H1]. unfold raw_ten_fee.
      cbn [Ten.matchConfidence Ten.provider Ten.changeReason Ten.isRecording
           Ten.providerType Ten.onWhitelist Ten.whitelistConfidence].
      repeat split; try reflexivity;
        match goal with H : _ = "E"%string |- _ => now rewrite H end.
    + cbn [List.map length seq]. now rewrite H2.
    + cbn [length]. now rewrite H3.
    + cbn [List.filter Ten.providerType]. rewrite H4.
      destruct (String.eqb (Transformer.type v) "E"); cbn [negb length]; lia.
Qed.

Lemma raw_ten_outcome_evaluate_row (row : Ten.Fee) :
  raw_ten_fee row ->
  raw_ten_outcome (Ten.evaluate_row ∅ (spread_options None) row).
Proof.
  intros (Hmc & _ & _ & Hrec & HE).
  unfold raw_ten_outcome, Ten.evaluate_row. cbv zeta.
  cbn [Ten.base Ten.inTenGroup Ten.flags Ten.status].
  unfold Ten.effective. rewrite lookup_empty.
  unfold Ten.recording. rewrite Hrec, Hmc.
  change (default false (Some ?b)) with b.
  change (Num.ltb (95 # 100) (cfg_reviewConfidenceFloor (spread_options None)))
    with false.
  change (Num.leb (cfg_reviewConfidenceFloor (spread_options None)) (95 # 100))
    with true.
  change (Num.ltb (95 # 100) (cfg_reviewConfidenceCeil (spread_options None)))
    with false.
  rewrite !has_flag_push_if.
  cbn [has_flag existsb code Ten.off_list_flag Ten.low_confidence_flag
       buildFlag ToleranceFlag_eqb orb andb negb].
  destruct (String.eqb (Ten.providerType row) "E") eqn:E.
  - apply String.eqb_eq in E. destruct (HE E) as [-> _]. cbn. auto.
  - destruct (Ten.onWhitelist row); cbn; auto.
Qed.

Lemma raw_ten_outcome_cure_row (L : Q) (r : Ten.DisplayRow) :
  raw_ten_outcome r -> raw_ten_outcome (Ten.cure_row L r).
Proof.
  unfold Ten.cure_row. destruct (_ && _); [|auto].
  unfold raw_ten_outcome.
  cbn [Ten.base Ten.inTenGroup Ten.flags Ten.status].
  rewrite !has_flag_app.
  cbn [has_flag existsb code Ten.cured_flag buildFlag ToleranceFlag_eqb orb].
  now rewrite !orb_false_r.
Qed.

(** X14.  Every fee [transformTenPercent] builds has matchConfidence 0.95,
    is marked recording exactly when its type is "E", and is on the
    whitelist when it is; the fees are numbered "ten-0", "ten-1", ...; and
    [Math.random] is called once per fee that is not of type "E".  So under
    the default options and without overrides [evaluateTenPercent] never
    raises LOW_CONFIDENCE on this path: a fee is in the group and PASS when
    it is on the whitelist, and otherwise out of the group, REVIEW and
    flagged PROVIDER_OFF_LIST. *)
Theorem X14_raw_ten_rows :
  forall (random : Transformer.Random) (calls : nat)
         (leData cdData : option Backend.LoanEstimateRecord),
    let run := Transformer.transformTenPercent random calls leData cdData in
    let rows := fst run in
    Forall raw_ten_fee rows /\
    List.map Ten.id rows =
      List.map (fun i => "ten-" ++ Str.of_nat i)%string
        (seq 0 (length rows)) /\
    snd run =
      (calls + length (List.filter
         (fun row => negb (String.eqb (Ten.providerType row) "E")) rows))%nat /\
    Forall raw_ten_outcome
      (Ten.rows (Ten.evaluateTenPercent rows ∅ None)).
Proof.
  intros random calls leData cdData run rows. subst rows run.
  unfold Transformer.transformTenPercent.
  match goal with
  | |- context [Transformer.ten_rows random calls 0 ?e] =>
      destruct (ten_rows_shape random e calls 0) as (H1 & H2 & H3 & H4)
  end.
  split; [exact H1|]. split; [now rewrite H3|]. split; [exact H4|].
  apply Ten_rows_Forall_in.
  - intros r L. apply raw_ten_outcome_cure_row.
  - intros row Hin. apply raw_ten_outcome_evaluate_row.
    rewrite List.Forall_forall in H1. now apply H1.
Qed.

(** ** The raw-document path: sections F, G and H *)

Lemma JsMap_Forall_set {V : Type} (P : V -> Prop) (m : JsMap.t V)
  (k : string) (v : V) :
  Forall (fun kv => P (snd kv)) m -> P v ->
  Forall (fun kv => P (snd kv)) (JsMap.set m k v).
Proof.
  intros Hm Hv. induction Hm as [|[k' v'] m Hkv Hm IH]; cbn [JsMap.set].
  - now constructor.
  - destruct (String.eqb k' k); constructor; auto.
Qed.

Lemma JsMap_Forall_get {V : Type} (P : V -> Prop) (m : JsMap.t V)
  (k : string) (v : V) :
  Forall (fun kv => P (snd kv)) m -> JsMap.get m k = Some v -> P v.
Proof.
  intros Hm Hg. apply JsMap_get_In in Hg.
  rewrite List.Forall_forall in Hm. exact (Hm (k, v) Hg).
Qed.

Lemma insert_unlimited_buckets (bucket : string)
  (step : JsMap.t Transformer.UnlimitedEntry -> Backend.LineItem ->
          JsMap.t Transformer.UnlimitedEntry) :
  FGH bucket ->
  step = Transformer.insert_le_F /\ bucket = "F"%string \/
  step = Transformer.insert_le_GH bucket \/
  step = Transformer.insert_cd_FGH bucket ->
  forall items m,
    Forall (fun kv => FGH (Transformer.u_bucket (snd kv))) m ->
    Forall (fun kv => FGH (Transformer.u_bucket (snd kv)))
      (fold_left step items m).
Proof.
  intros Hb Hstep. induction items as [|item rest IH]; intros m Hm;
    cbn [fold_left]; [exact Hm|].
  apply IH.
  destruct Hstep as [[-> ->] | [-> | ->]];
    unfold Transformer.insert_le_F, Transformer.insert_le_GH,
      Transformer.insert_cd_FGH;
    destruct (Transformer.labelled item); try exact Hm; cbv zeta;
    try (destruct (JsMap.get m _) as [existing|] eqn:E);
    apply (JsMap_Forall_set (fun e => FGH (Transformer.u_bucket e)));
    try exact Hm; cbn [Transformer.u_bucket]; try exact Hb.
  exact (JsMap_Forall_get (fun e => FGH (Transformer.u_bucket e)) m _ _ Hm E).
Qed.

Lemma merge_unlimited_buckets
  (fItems gItems hItems cdFItems cdGItems cdHItems : list Backend.LineItem) :
  Forall (fun kv => FGH (Transformer.u_bucket (snd kv)))
    (Transformer.merge_unlimited fItems gItems hItems
       cdFItems cdGItems cdHItems).
Proof.
  unfold Transformer.merge_unlimited.
  assert (HF : FGH "F") by (left; reflexivity).
  assert (HG : FGH "G") by (right; left; reflexivity).
  assert (HH : FGH "H") by (right; right; reflexivity).
  apply (insert_unlimited_buckets "H" _ HH); [auto|].
  apply (insert_unlimited_buckets "G" _ HG); [auto|].
  apply (insert_unlimited_buckets "F" _ HF); [auto|].
  apply (insert_unlimited_buckets "H" _ HH); [auto|].
  apply (insert_unlimited_buckets "G" _ HG); [auto|].
  apply (insert_unlimited_buckets "F" _ HF); [auto|].
  constructor.
Qed.

Lemma positive_or_undefined_positive (x v : Q) :
  Transformer.positive_or_undefined x = Some v -> 0 < v.
Proof.
  unfold Transformer.positive_or_undefined.
  destruct (Num.ltb 0 x) eqn:E; [|discriminate].
  intros [= <-]. now apply ltb_lt.
Qed.

Lemma unlimited_rows_shape (loanAmount interestRate : Q)
  (entries : JsMap.t Transformer.UnlimitedEntry) :
  Forall (fun kv => FGH (Transformer.u_bucket (snd kv))) entries ->
  forall index,
    let rows :=
      Transformer.unlimited_rows loanAmount interestRate index entries in
    Forall raw_unlimited_fee rows /\
    List.map Unlimited.id rows =
      List.map (fun i => "unlimited-" ++ Str.of_nat i)%string
        (seq index (length rows)).
Proof.
  induction 1 as [|[k v] rest Hv _ IH]; intros index.
  - split; [constructor|reflexivity].
  - cbn [Transformer.unlimited_rows]. destruct (IH (S index)) as [H1 H2].
    split.
    + constructor; [|exact H1]. unfold raw_unlimited_fee.
      cbn [Transformer.unlimited_row Unlimited.bucket Unlimited.lenderRequired
           Unlimited.isOptional Unlimited.changeReason Unlimited.loanAmount
           Unlimited.interestRate].
      split; [exact Hv|].
      repeat split; try reflexivity; apply positive_or_undefined_positive.
    + cbn [List.map length seq]. now rewrite H2.
Qed.

Lemma has_flag_In (f : FlagDetail) (flags : list FlagDetail) :
  In f flags -> has_flag (code f) flags = true.
Proof.
  intros H. unfold has_flag. apply existsb_exists. exists f.
  split; [exact H|]. now destruct (code f).
Qed.

(** X15.  Every fee [transformUnlimited] builds is of bucket "F", "G" or
    "H", has no lenderRequired mark, is marked optional exactly in bucket
    "H", and carries a loan amount and an interest rate only when they are
    positive; the fees are numbered "unlimited-0", "unlimited-1", ....  So on
    this path [evaluateUnlimited] never raises OPTIONALITY_MISMATCH, and
    every bucket-"H" fee is PASS without a flag. *)
Theorem X15_raw_unlimited_rows :
  forall (leData cdData : option Backend.LoanEstimateRecord),
    let rows := Transformer.transformUnlimited leData cdData in
    Forall raw_unlimited_fee rows /\
    List.map Unlimited.id rows =
      List.map (fun i => "unlimited-" ++ Str.of_nat i)%string
        (seq 0 (length rows)) /\
    Forall (fun r =>
              has_flag OPTIONALITY_MISMATCH (Unlimited.flags r) = false /\
              (Unlimited.bucket (Unlimited.base r) = "H" ->
               Unlimited.flags r = [] /\ Unlimited.status r = PASS))
      (Unlimited.evaluateUnlimited rows).
Proof.
  intros leData cdData rows. subst rows.
  unfold Transformer.transformUnlimited. cbv zeta.
  match goal with
  | |- context [Transformer.unlimited_rows ?l ?i 0 ?e] =>
      destruct (unlimited_rows_shape l i e
                  (merge_unlimited_buckets _ _ _ _ _ _) 0) as [H1 H2];
      generalize dependent (Transformer.unlimited_rows l i 0 e)
  end.
  intros rows H1 H2. split; [exact H1|]. split; [exact H2|].
  unfold Unlimited.evaluateUnlimited.
  apply List.Forall_map. eapply List.Forall_impl; [|exact H1].
  intros row (_ & Hlr & _).
  pose proof (unlimited_row_rule_evaluate_row row) as Hrule.
  pose proof (Unlimited_status_flags row) as [_ Hpass]. cbv zeta in Hpass.
  unfold unlimited_row_rule in Hrule. cbv zeta in Hrule.
  change (Unlimited.base (Unlimited.evaluate_row row)) with row in *.
  destruct Hrule as (HO & HE & HM & HD & Hall & _).
  assert (Hno : has_flag OPTIONALITY_MISMATCH
                  (Unlimited.flags (Unlimited.evaluate_row row)) = false).
  { destruct (has_flag OPTIONALITY_MISMATCH _) eqn:E; [|reflexivity].
    destruct (proj1 HM eq_refl) as (_ & E' & _). congruence. }
  split; [exact Hno|]. intros HH.
  assert (Hnil : Unlimited.flags (Unlimited.evaluate_row row) = []).
  { destruct (Unlimited.flags (Unlimited.evaluate_row row)) as [|f fl] eqn:Ef;
      [reflexivity|]. exfalso.
    inversion Hall as [|? ? [_ Hc] _]; subst.
    pose proof (has_flag_In f (f :: fl) (or_introl eq_refl)) as Hf.
    destruct Hc as [Hc | [Hc | [Hc | Hc]]]; rewrite Hc in Hf.
    - apply HO in Hf as [Hf _]. rewrite HH in Hf. discriminate.
    - apply HD in Hf as [Hf _]. rewrite HH in Hf. discriminate.
    - apply HE in Hf as [Hf _]. rewrite HH in Hf. discriminate.
    - congruence. }
  split; [exact Hnil | now apply Hpass].
Qed.

(** ** The pre-matched path *)

Lemma fold_add_fee_partition (fees : list Backend.MatchedFee) :
  forall acc,
    fold_left AiTransformer.add_fee fees acc =
    {| origination := origination acc ++ origination (ai_partition fees);
       cannotShop := cannotShop acc ++ cannotShop (ai_partition fees);
       tenPercent := tenPercent acc ++ tenPercent (ai_partition fees);
       unlimited := unlimited acc ++ unlimited (ai_partition fees) |}.
Proof.
  induction fees as [|fee rest IH]; intros acc.
  - cbn. rewrite !app_nil_r. now destruct acc.
  - cbn [fold_left]. rewrite IH. clear IH.
    unfold ai_partition.
    cbn [origination cannotShop tenPercent unlimited].
    set (fA := ai_kept Backend.cat_zero (fun s => String.eqb s "A")).
    set (fB := ai_kept Backend.cat_zero (fun s => String.eqb s "B")).
    set (fT := ai_kept Backend.cat_ten_percent (fun _ => true)).
    set (fU := ai_kept Backend.cat_unlimited (fun _ => true)).
    cbn [List.filter].
    assert (HA : fA fee =
                 negb (AiTransformer.skipped fee) &&
                 category_eqb (Backend.tolerance_category fee)
                   Backend.cat_zero &&
                 String.eqb (Backend.section fee) "A") by reflexivity.
    assert (HB : fB fee =
                 negb (AiTransformer.skipped fee) &&
                 category_eqb (Backend.tolerance_category fee)
                   Backend.cat_zero &&
                 String.eqb (Backend.section fee) "B") by reflexivity.
    assert (HT : fT fee =
                 negb (AiTransformer.skipped fee) &&
                 category_eqb (Backend.tolerance_category fee)
                   Backend.cat_ten_percent && true) by reflexivity.
    assert (HU : fU fee =
                 negb (AiTransformer.skipped fee) &&
                 category_eqb (Backend.tolerance_category fee)
                   Backend.cat_unlimited && true) by reflexivity.
    rewrite HA, HB, HT, HU. clear HA HB HT HU. clearbody fA fB fT fU.
    unfold AiTransformer.add_fee.
    destruct (AiTransformer.skipped fee); cbn [negb andb]; [reflexivity|].
    destruct (Backend.tolerance_category fee);
      cbn [category_eqb andb origination cannotShop tenPercent unlimited].
    + destruct (String.eqb (Backend.section fee) "A") eqn:EA.
      * apply String.eqb_eq in EA. rewrite EA.
        cbn [String.eqb Ascii.eqb Bool.eqb andb List.map
             origination cannotShop tenPercent unlimited].
        now rewrite <- app_assoc.
      * destruct (String.eqb (Backend.section fee) "B");
          cbn [List.map origination cannotShop tenPercent unlimited];
          [now rewrite <- app_assoc | reflexivity].
    + cbn [List.map]. now rewrite <- app_assoc.
    + cbn [List.map]. now rewrite <- app_assoc.
Qed.

Lemma transformAIMatchedData_partition
  (tridComparison : option Backend.TRIDComparison) :
  AiTransformer.transformAIMatchedData tridComparison =
  ai_partition (default [] (chain tridComparison Backend.matched_fees)).
Proof.
  unfold AiTransformer.transformAIMatchedData.
  destruct (chain tridComparison Backend.matched_fees) as [fees|];
    [|reflexivity].
  change (default [] (Some fees)) with fees.
  rewrite fold_add_fee_partition. cbn [AiTransformer.empty_dataset
    origination cannotShop tenPercent unlimited app].
  now destruct (ai_partition fees).
Qed.

Lemma length_filter_disjoint4 {A : Type} (f1 f2 f3 f4 : A -> bool)
  (l : list A) :
  (forall a,
     (Nat.b2n (f1 a) + Nat.b2n (f2 a) + Nat.b2n (f3 a) + Nat.b2n (f4 a)
      <= 1)%nat) ->
  (length (List.filter f1 l) + length (List.filter f2 l) +
   length (List.filter f3 l) + length (List.filter f4 l) <= length l)%nat.
Proof.
  intros H. induction l as [|a l IH]; cbn [List.filter length]; [lia|].
  specialize (H a).
  destruct (f1 a), (f2 a), (f3 a), (f4 a); cbn [length Nat.b2n] in *; lia.
Qed.

(** X16.  [transformAIMatchedData] sorts the matched fees, in their order,
    into the four lists: a fee whose two amounts are both zero (or missing)
    is dropped; a zero-category fee goes to the origination list when its
    section is "A", to the cannot-shop list when it is "B", and is dropped
    otherwise; ten-percent and unlimited fees go to their lists whatever the
    section.  No fee lands in two lists, and a missing comparison or a
    missing fee list gives four empty lists. *)
Theorem X16_ai_fees_are_partitioned :
  forall (tridComparison : option Backend.TRIDComparison),
    let fees := default [] (chain tridComparison Backend.matched_fees) in
    let dataset := AiTransformer.transformAIMatchedData tridComparison in
    dataset = ai_partition fees /\
    (length (origination dataset) + length (cannotShop dataset) +
     length (tenPercent dataset) + length (unlimited dataset)
     <= length fees)%nat /\
    (chain tridComparison Backend.matched_fees = None ->
     dataset = AiTransformer.empty_dataset).
Proof.
  intros tridComparison fees dataset. subst dataset.
  rewrite transformAIMatchedData_partition. fold fees.
  split; [reflexivity|]. split.
  - unfold ai_partition.
    cbn [origination cannotShop tenPercent unlimited].
    rewrite !length_map. apply length_filter_disjoint4.
    intros fee. unfold ai_kept.
    destruct (AiTransformer.skipped fee); cbn [negb andb Nat.b2n]; [lia|].
    destruct (Backend.tolerance_category fee);
      cbn [category_eqb andb Nat.b2n]; try lia.
    destruct (String.eqb (Backend.section fee) "A") eqn:EA;
      cbn [Nat.b2n]; [|destruct (String.eqb _ "B"); cbn; lia].
    apply String.eqb_eq in EA. rewrite EA. cbn. lia.
  - intros Hnone. subst fees. rewrite Hnone. reflexivity.
Qed.

Lemma In_ai_unlimited (tridComparison : option Backend.TRIDComparison)
  (row : Unlimited.Fee) :
  In row (unlimited (AiTransformer.transformAIMatchedData tridComparison)) ->
  exists fee, row = AiTransformer.transformToUnlimited fee.
Proof.
  rewrite transformAIMatchedData_partition.
  unfold ai_partition. cbn [unlimited].
  intros H. apply in_map_iff in H as (fee & <- & _). now exists fee.
Qed.

Lemma In_ai_tenPercent (tridComparison : option Backend.TRIDComparison)
  (row : Ten.Fee) :
  In row (tenPercent (AiTransformer.transformAIMatchedData tridComparison)) ->
  exists fee, row = AiTransformer.transformToTenPercent fee.
Proof.
  rewrite transformAIMatchedData_partition.
  unfold ai_partition. cbn [tenPercent].
  intros H. apply in_map_iff in H as (fee & <- & _). now exists fee.
Qed.

(** X17.  On the pre-matched path an unlimited fee carries no loan amount,
    so [evaluateUnlimited] never raises PER_DIEM_INTEREST_DEVIATION there;
    and it raises OPTIONALITY_MISMATCH on a fee exactly when the section is
    "H" and the lower-cased fee name does not contain "optional". *)
Theorem X17_ai_unlimited_flags :
  forall (tridComparison : option Backend.TRIDComparison),
    let dataset := AiTransformer.transformAIMatchedData tridComparison in
    Forall (fun r =>
              has_flag PER_DIEM_INTEREST_DEVIATION (Unlimited.flags r) = false /\
              (has_flag OPTIONALITY_MISMATCH (Unlimited.flags r) = true <->
               Unlimited.bucket (Unlimited.base r) = "H" /\
               Unlimited.isOptional (Unlimited.base r) = Some false))
      (Unlimited.evaluateUnlimited (unlimited dataset)).
Proof.
  intros tridComparison dataset. subst dataset.
  unfold Unlimited.evaluateUnlimited.
  apply List.Forall_map, List.Forall_forall. intros row Hin.
  apply In_ai_unlimited in Hin as (fee & ->).
  pose proof (unlimited_row_rule_evaluate_row
                (AiTransformer.transformToUnlimited fee)) as Hrule.
  unfold unlimited_row_rule in Hrule. cbv zeta in Hrule.
  change (Unlimited.base (Unlimited.evaluate_row ?r)) with r in *.
  destruct Hrule as (_ & _ & HM & HD & _). split.
  - destruct (has_flag PER_DIEM_INTEREST_DEVIATION _); [|reflexivity].
    destruct (HD eq_refl) as (_ & _ & (l & Hl & _) & _).
    cbn [AiTransformer.transformToUnlimited Unlimited.loanAmount] in Hl.
    discriminate.
  - rewrite HM.
    cbn [AiTransformer.transformToUnlimited Unlimited.bucket
         Unlimited.lenderRequired Unlimited.isOptional].
    destruct (Str.includes _ _); cbn [negb];
      intuition (try discriminate; try congruence).
Qed.

Lemma ai_ten_evaluate_row (config : Config) (fee : Backend.MatchedFee) :
  7 # 10 <= cfg_reviewConfidenceFloor config ->
  let r := Ten.evaluate_row ∅ config (AiTransformer.transformToTenPercent fee) in
  let mc := Backend.match_confidence fee in
  has_flag PROVIDER_OFF_LIST (Ten.flags r) = false /\
  Ten.inTenGroup r = Num.leb (cfg_reviewConfidenceFloor config) mc /\
  (Ten.status r = PASS <->
   cfg_reviewConfidenceFloor config <= mc /\
   cfg_reviewConfidenceCeil config <= mc).
Proof.
  intros Hfloor. cbv zeta.
  unfold Ten.evaluate_row. cbv zeta.
  cbn [Ten.flags Ten.inTenGroup Ten.status].
  unfold Ten.effective. rewrite lookup_empty.
  cbn [AiTransformer.transformToTenPercent Ten.onWhitelist
       Ten.matchConfidence].
  generalize (Ten.recording (AiTransformer.transformToTenPercent fee)).
  intros rec.
  set (mc := Backend.match_confidence fee).
  set (floor := cfg_reviewConfidenceFloor config) in *.
  set (ceil := cfg_reviewConfidenceCeil config).
  rewrite !has_flag_push_if.
  cbn [has_flag existsb code Ten.off_list_flag Ten.low_confidence_flag
       buildFlag ToleranceFlag_eqb orb].
  rewrite !andb_false_r, ?orb_false_r.
  destruct (Qlt_le_dec mc floor) as [Hlow | Hok].
  - assert (E1 : Num.ltb mc floor = true) by now apply ltb_lt.
    assert (E2 : Num.leb floor mc = false).
    { destruct (Num.leb floor mc) eqn:E; [|reflexivity].
      apply leb_le in E. lra. }
    rewrite E1, E2. cbn [negb andb orb]. rewrite !andb_false_r.
    repeat split; try reflexivity; try discriminate.
    intros [H _]. lra.
  - assert (E1 : Num.ltb mc floor = false).
    { destruct (Num.ltb mc floor) eqn:E; [|reflexivity].
      apply ltb_lt in E. lra. }
    assert (E2 : Num.leb floor mc = true) by now apply leb_le.
    assert (E3 : Num.leb (7 # 10) mc = true) by (apply leb_le; lra).
    rewrite E1, E2, E3. cbn [negb andb orb].
    split; [reflexivity|]. split; [reflexivity|].
    destruct (Num.ltb mc ceil) eqn:E4; cbn [negb andb orb].
    + apply ltb_lt in E4. split; [discriminate|]. intros [_ H]. lra.
    + split; [|reflexivity]. intros _. split; [exact Hok|].
      destruct (Qlt_le_dec mc ceil) as [H|H]; [|exact H].
      apply ltb_lt in H. congruence.
Qed.

(** X18.  On the pre-matched path a ten-percent fee is on the whitelist
    exactly when its match confidence is at least 0.7.  So when the review
    floor is at least 0.7 (the default is 0.8) and there is no override,
    [evaluateTenPercent] never raises PROVIDER_OFF_LIST there: a fee is in
    the ten-percent group exactly when its confidence reaches the floor, and
    it is PASS exactly when its confidence reaches both the floor and the
    ceiling. *)
Theorem X18_ai_ten_percent_by_confidence :
  forall (tridComparison : option Backend.TRIDComparison)
         (options : option RuleOptions),
    let dataset := AiTransformer.transformAIMatchedData tridComparison in
    let floor := cfg_reviewConfidenceFloor (spread_options options) in
    let ceil := cfg_reviewConfidenceCeil (spread_options options) in
    7 # 10 <= floor ->
    Forall (fun r =>
              let mc := Ten.matchConfidence (Ten.base r) in
              has_flag PROVIDER_OFF_LIST (Ten.flags r) = false /\
              Ten.inTenGroup r = Num.leb floor mc /\
              (Ten.status r = PASS <-> floor <= mc /\ ceil <= mc))
      (Ten.rows (Ten.evaluateTenPercent (tenPercent dataset) ∅ options)).
Proof.
  intros tridComparison options dataset floor ceil Hfloor.
  apply Ten_rows_Forall_in.
  - intros r L. cbv zeta.
    destruct (Ten_cure_row_frame L r) as (-> & _ & -> & _ & ->).
    intros (H1 & H2 & H3). split; [|now split].
    unfold Ten.cure_row. destruct (_ && _); [|exact H1].
    cbn [Ten.flags]. rewrite has_flag_app, H1. reflexivity.
  - intros row Hin. apply In_ai_tenPercent in Hin as (fee & ->).
    exact (ai_ten_evaluate_row (spread_options options) fee Hfloor).
Qed.

Lemma X18_ai_ten_percent_witness :
  Forall (fun r =>
            let mc := Ten.matchConfidence (Ten.base r) in
            has_flag PROVIDER_OFF_LIST (Ten.flags r) = false /\
            Ten.inTenGroup r =
              Num.leb (cfg_reviewConfidenceFloor (spread_options None)) mc /\
            (Ten.status r = PASS <->
             cfg_reviewConfidenceFloor (spread_options None) <= mc /\
             cfg_reviewConfidenceCeil (spread_options None) <= mc))
    (Ten.rows
       (Ten.evaluateTenPercent
          (tenPercent
             (AiTransformer.transformAIMatchedData
                (Some sample_ten_comparison)))
          ∅ None)).
Proof.
  apply (X18_ai_ten_percent_by_confidence (Some sample_ten_comparison) None).
  vm_compute. discriminate.
Defined.

(** ** Keys and ids *)

Lemma Re_longest_Void (s : list ascii) : Re.longest Re.Void s = None.
Proof. induction s as [|c s IH]; cbn; [reflexivity | now rewrite IH]. Qed.

Lemma Re_longest_nullable (r : Re.t) (s : list ascii) :
  Re.nullable r = true -> exists n, Re.longest r s = Some n.
Proof.
  intros H. destruct s as [|c s]; cbn [Re.longest]; rewrite H.
  - now exists 0%nat.
  - destruct (Re.longest (Re.deriv c r) s) as [n|]; eauto.
Qed.

Lemma Re_longest_Plus_Chr (p : ascii -> bool) (c : ascii) (s : list ascii) :
  (p c = true /\ exists n, Re.longest (Re.Plus (Re.Chr p)) (c :: s) = Some (S n))
  \/
  (p c = false /\ Re.longest (Re.Plus (Re.Chr p)) (c :: s) = None).
Proof.
  cbn [Re.longest Re.Plus Re.deriv Re.nullable andb].
  destruct (p c); [left | right]; split; try reflexivity.
  - cbn [Re.seq Re.alt].
    destruct (Re_longest_nullable (Re.Star (Re.Chr p)) s eq_refl) as [n ->].
    now exists n.
  - cbn [Re.seq Re.alt]. now rewrite Re_longest_Void.
Qed.

Lemma replace_all_from_Plus_Chr (p : ascii -> bool) (repl : list ascii)
  (s : list ascii) :
  forall skip,
    Forall (fun c => In c repl \/ (p c = false /\ In c s))
      (Re.replace_all_from (Re.Plus (Re.Chr p)) repl skip s).
Proof.
  induction s as [|c s IH]; intros skip; [constructor|].
  assert (Hweak : forall k,
            Forall (fun x => In x repl \/ (p x = false /\ In x (c :: s)))
              (Re.replace_all_from (Re.Plus (Re.Chr p)) repl k s)).
  { intros k. eapply List.Forall_impl; [|exact (IH k)].
    intros x [H | [H1 H2]]; [now left | right; split; [exact H1 | now right]]. }
  cbn [Re.replace_all_from]. destruct skip as [|k]; [|apply Hweak].
  destruct (Re_longest_Plus_Chr p c s) as [[_ [n ->]] | [Hc ->]].
  - apply Forall_app. split; [|apply Hweak].
    apply List.Forall_forall. intros x Hx. now left.
  - constructor; [|apply Hweak]. right. split; [exact Hc | now left].
Qed.

Lemma Str_chars_of_chars (l : list ascii) : Str.chars (Str.of_chars l) = l.
Proof. apply list_ascii_of_string_of_list_ascii. Qed.

Lemma strip_dashes_Forall (P : ascii -> Prop) (s : list ascii) :
  Forall P s -> Forall P (AiTransformer.strip_dashes s).
Proof.
  intros H. unfold AiTransformer.strip_dashes.
  set (s1 := match s with
             | [] => []
             | c :: s' => if Ascii.eqb c "-" then s' else s
             end).
  assert (H1 : Forall P s1).
  { subst s1. destruct s as [|c s']; [constructor|].
    destruct (Ascii.eqb c "-"); [now inversion H | exact H]. }
  clearbody s1. destruct (rev s1) as [|c r] eqn:E; [constructor|].
  destruct (Ascii.eqb c "-"); [|exact H1].
  apply Forall_rev. apply Forall_rev in H1. rewrite E in H1.
  now inversion H1.
Qed.

Lemma lower_not_upper (c : ascii) : Str.is_upper (Str.lower c) = false.
Proof. destruct c as [[] [] [] [] [] [] [] []]; reflexivity. Qed.

(** X19.  [sanitizeId] returns only lower-case letters, digits and dashes,
    whatever the fee name. *)
Theorem X19_sanitizeId_charset :
  forall (str : string),
    forallb is_id_char (Str.chars (AiTransformer.sanitizeId str)) = true.
Proof.
  intros str. unfold AiTransformer.sanitizeId.
  rewrite Str_chars_of_chars. apply forallb_forall.
  apply List.Forall_forall. apply strip_dashes_Forall.
  unfold Re.replace_all, AiTransformer.re_not_alnum.
  eapply List.Forall_impl; [|apply replace_all_from_Plus_Chr].
  intros c [Hin | [Hc _]]; unfold is_id_char.
  - destruct Hin as [<- | []]. reflexivity.
  - cbv beta in Hc. apply negb_false_iff in Hc. now rewrite Hc.
Qed.

(** X20.  A key returned by [normalizeFee] holds no upper-case letter, and
    its only blank characters are spaces; a missing or empty label gives the
    empty key. *)
Theorem X20_normalizeFee_key_shape :
  forall (label : option string),
    forallb is_key_char (Str.chars (Transformer.normalizeFee label)) = true /\
    (label = None \/ label = Some EmptyString ->
     Transformer.normalizeFee label = EmptyString).
Proof.
  intros label. split.
  - unfold Transformer.normalizeFee.
    destruct label as [label|]; [|reflexivity].
    destruct (Str.truthy label); [|reflexivity]. cbv zeta.
    rewrite Str_chars_of_chars. unfold Str.toLowerCase at 1.
    rewrite Str_chars_of_chars.
    apply forallb_forall, List.Forall_forall.
    unfold Re.replace_all, Re.space.
    eapply List.Forall_impl; [|apply replace_all_from_Plus_Chr].
    intros c [Hin | [Hc Hin]]; unfold is_key_char.
    + destruct Hin as [<- | []]. reflexivity.
    + apply in_map_iff in Hin as (c' & <- & _).
      rewrite lower_not_upper, Hc. reflexivity.
  - intros [-> | ->]; reflexivity.
Qed.

(** ** Binary64 arithmetic: the rounding error *)

Lemma B64_nearest_even_bounds (y : Q) :
  Qabs (inject_Z (B64.nearest_even y) - y) <= 1 # 2.
Proof.
  unfold B64.nearest_even. cbv zeta.
  pose proof (Qfloor_le y) as H1. pose proof (Qlt_floor y) as H2.
  rewrite inject_Z_plus in H2. change (inject_Z 1) with 1 in H2.
  set (k := Qfloor y) in *. clearbody k.
  apply Qabs_Qle_condition.
  destruct (Qcompare_spec (y - inject_Z k) (1 # 2)) as [E | E | E].
  - destruct (Z.even k); [|rewrite inject_Z_plus; change (inject_Z 1) with 1];
      lra.
  - lra.
  - rewrite inject_Z_plus. change (inject_Z 1) with 1. lra.
Qed.

Lemma B64_nearest_even_nonneg (y : Q) :
  0 <= y -> (0 <= B64.nearest_even y)%Z.
Proof.
  intros H. unfold B64.nearest_even. cbv zeta.
  assert (Hk : (0 <= Qfloor y)%Z).
  { change 0%Z with (Qfloor 0). now apply Qfloor_resp_le. }
  destruct (Qcompare _ _); [destruct (Z.even _)| |]; lia.
Qed.

Lemma Qpower_2_pos (e : Z) : 0 < 2 ^ e.
Proof. apply Qpower_0_lt. reflexivity. Qed.

Lemma Qabs_num_den (x : Q) :
  Qabs x == inject_Z (Z.abs (Qnum x)) / inject_Z (Zpos (Qden x)).
Proof.
  destruct x as [n d]. unfold Qabs. cbn [Qnum Qden].
  rewrite (Qmake_Qdiv (Z.abs n) d). reflexivity.
Qed.

Lemma B64_binade_le (x : Q) : ~ x == 0 -> 2 ^ B64.binade x <= Qabs x.
Proof.
  intros Hx. unfold B64.binade. cbv zeta.
  set (n := Z.abs (Qnum x)). set (d := Zpos (Qden x)).
  destruct (Qle_bool _ _) eqn:E; [now apply Qle_bool_iff in E|]. clear E.
  assert (Hn : (0 < n)%Z).
  { subst n. destruct x as [[|p|p] q]; cbn; try lia.
    exfalso. apply Hx. reflexivity. }
  assert (Hd : (0 < d)%Z) by (subst d; lia).
  pose proof (Z.log2_spec n Hn) as [Ha _].
  pose proof (Z.log2_spec d Hd) as [_ Hb].
  pose proof (Z.log2_nonneg n) as Ha0. pose proof (Z.log2_nonneg d) as Hb0.
  set (a := Z.log2 n) in *. set (b := Z.log2 d) in *.
  replace (a - b - 1)%Z with (a - Z.succ b)%Z by lia.
  rewrite Qpower_minus by (intros H; discriminate).
  rewrite <- !(Zpower_Qpower 2) by lia.
  rewrite Qabs_num_den. fold n d.
  assert (Hp : (0 < 2 ^ Z.succ b)%Z) by (apply Z.pow_pos_nonneg; lia).
  assert (Hp' : 0 < inject_Z (2 ^ Z.succ b))
    by (change 0 with (inject_Z 0); rewrite <- Zlt_Qlt; lia).
  assert (Hd' : 0 < inject_Z d)
    by (change 0 with (inject_Z 0); rewrite <- Zlt_Qlt; lia).
  apply Qle_shift_div_r; [exact Hp'|].
  assert (E : inject_Z n / inject_Z d * inject_Z (2 ^ Z.succ b) ==
              inject_Z n * inject_Z (2 ^ Z.succ b) / inject_Z d)
    by (field; lra).
  rewrite E. apply Qle_shift_div_l; [exact Hd'|].
  rewrite <- !inject_Z_mult, <- Zle_Qle.
  apply Z.mul_le_mono_nonneg; lia.
Qed.

(** The result of [B64.round] is within half a unit in the last place. *)
Lemma B64_round_ulp (x : Q) :
  ~ x == 0 -> Qabs (B64.round x - x) <= 2 ^ B64.ulp_exponent x * (1 # 2).
Proof.
  intros Hx. unfold B64.round.
  destruct (Qeq_bool x 0) eqn:E0; [now apply Qeq_bool_iff in E0|]. clear E0.
  cbv zeta. set (e := B64.ulp_exponent x).
  pose proof (Qpower_2_pos e) as He.
  pose proof (B64_nearest_even_bounds (Qabs x / 2 ^ e)) as Hm.
  set (m := B64.nearest_even (Qabs x / 2 ^ e)) in *. clearbody m.
  assert (Hv : Qabs (inject_Z m * 2 ^ e - Qabs x) <= 2 ^ e * (1 # 2)).
  { assert (E : inject_Z m * 2 ^ e - Qabs x ==
                (inject_Z m - Qabs x / 2 ^ e) * 2 ^ e) by (field; lra).
    rewrite E, Qabs_Qmult, (Qabs_pos (2 ^ e)) by lra.
    rewrite (Qmult_comm (2 ^ e)).
    apply Qmult_le_compat_r; [exact Hm | lra]. }
  destruct (Qle_bool 0 x) eqn:Es.
  - apply Qle_bool_iff in Es. rewrite Qred_correct.
    now rewrite (Qabs_pos x Es) in Hv.
  - assert (Hneg : x < 0).
    { apply Qnot_le_lt. intros H. apply Qle_bool_iff in H. congruence. }
    rewrite Qred_correct.
    rewrite (Qabs_neg x) in Hv by lra.
    assert (E : - (inject_Z m * 2 ^ e) - x == - (inject_Z m * 2 ^ e - - x))
      by ring.
    now rewrite E, Qabs_opp.
Qed.

Lemma B64_round_zero (x : Q) : x == 0 -> B64.round x = 0.
Proof.
  intros H. unfold B64.round.
  destruct (Qeq_bool x 0) eqn:E; [reflexivity|].
  apply Qeq_bool_iff in H. congruence.
Qed.

(** Below [2^37] (more than 10^11) the rounding error is under [2^-16]. *)
Lemma B64_round_close (x : Q) :
  Qabs x <= 2 ^ 37 -> Qabs (B64.round x - x) <= 1 # 65536.
Proof.
  intros Hb. destruct (Qeq_dec x 0) as [E | Hx].
  - rewrite (B64_round_zero x E), E. apply Qabs_Qle_condition. lra.
  - eapply Qle_trans; [apply (B64_round_ulp x Hx)|].
    assert (He : (B64.ulp_exponent x <= -15)%Z).
    { unfold B64.ulp_exponent, B64.emin.
      assert (H : (B64.binade x <= 37)%Z).
      { apply (Qpower_le_compat_l_inv 2); [|reflexivity].
        eapply Qle_trans; [apply (B64_binade_le x Hx) | exact Hb]. }
      lia. }
    assert (H : 2 ^ B64.ulp_exponent x <= 2 ^ (-15)).
    { apply Qpower_le_compat_l; [exact He | discriminate]. }
    change (2 ^ (-15)) with (1 # 32768) in H.
    apply (Qle_trans _ ((1 # 32768) * (1 # 2))); [|discriminate].
    apply Qmult_le_compat_r; [exact H | discriminate].
Qed.

(** [B64.round] keeps the sign. *)
Lemma B64_round_nonneg (x : Q) : 0 <= x -> 0 <= B64.round x.
Proof.
  intros H. unfold B64.round.
  destruct (Qeq_bool x 0); [lra|]. cbv zeta.
  assert (E : Qle_bool 0 x = true) by now apply Qle_bool_iff.
  rewrite E, Qred_correct.
  apply Qmult_le_0_compat.
  - change 0 with (inject_Z 0). rewrite <- Zle_Qle.
    apply B64_nearest_even_nonneg.
    apply Qle_shift_div_l; [apply Qpower_2_pos|].
    rewrite Qmult_0_l. apply Qabs_nonneg.
  - apply Qlt_le_weak, Qpower_2_pos.
Qed.

Lemma B64_round_nonpos (x : Q) : x <= 0 -> B64.round x <= 0.
Proof.
  intros H. unfold B64.round.
  destruct (Qeq_bool x 0) eqn:E0; [lra|]. cbv zeta.
  assert (Hx : x < 0).
  { apply Qeq_bool_neq in E0. lra. }
  destruct (Qle_bool 0 x) eqn:E; [apply Qle_bool_iff in E; lra|].
  rewrite Qred_correct.
  assert (0 <= inject_Z (B64.nearest_even (Qabs x / 2 ^ B64.ulp_exponent x)) *
               2 ^ B64.ulp_exponent x); [|lra].
  apply Qmult_le_0_compat.
  - change 0 with (inject_Z 0). rewrite <- Zle_Qle.
    apply B64_nearest_even_nonneg.
    apply Qle_shift_div_l; [apply Qpower_2_pos|].
    rewrite Qmult_0_l. apply Qabs_nonneg.
  - apply Qlt_le_weak, Qpower_2_pos.
Qed.

(** The rounding error relative to the value: at most [2^-53] of it, or
    half the least subnormal. *)
Lemma B64_round_relative (x : Q) :
  Qabs (B64.round x - x) <= Qabs x * 2 ^ (-53) + 2 ^ (-1075).
Proof.
  destruct (Qeq_dec x 0) as [E | Hx].
  - rewrite (B64_round_zero x E), E. apply Qabs_Qle_condition.
    pose proof (Qpower_2_pos (-1075)). pose proof (Qpower_2_pos (-53)).
    change (Qabs 0) with 0. lra.
  - eapply Qle_trans; [apply (B64_round_ulp x Hx)|].
    pose proof (B64_binade_le x Hx) as Hb.
    pose proof (Qabs_nonneg x) as Hn.
    pose proof (Qpower_2_pos (-1075)) as H1.
    pose proof (Qpower_2_pos (-53)) as H2.
    unfold B64.ulp_exponent, B64.emin.
    destruct (Z.max_spec (-1074) (B64.binade x - 52)) as [[_ ->] | [_ ->]].
    + replace (B64.binade x - 52)%Z with (B64.binade x + (-52))%Z by lia.
      rewrite Qpower_plus by discriminate.
      assert (E : 2 ^ (-52) * (1 # 2) == 2 ^ (-53)) by reflexivity.
      rewrite <- Qmult_assoc, E.
      assert (2 ^ B64.binade x * 2 ^ (-53) <= Qabs x * 2 ^ (-53)); [|lra].
      apply Qmult_le_compat_r; [exact Hb | lra].
    + assert (E : 2 ^ (-1074) * (1 # 2) == 2 ^ (-1075)) by reflexivity.
      rewrite E.
      assert (0 <= Qabs x * 2 ^ (-53)); [|lra].
      apply Qmult_le_0_compat; lra.
Qed.

(** ** Whole cents *)

Lemma Qfloor_unique (z : Q) (k : Z) :
  inject_Z k <= z -> z < inject_Z k + 1 -> Qfloor z = k.
Proof.
  intros H1 H2.
  pose proof (Qfloor_le z) as F1. pose proof (Qlt_floor z) as F2.
  rewrite inject_Z_plus in F2. change (inject_Z 1) with 1 in F2.
  assert (G1 : inject_Z (Qfloor z) < inject_Z (k + 1)).
  { rewrite inject_Z_plus. change (inject_Z 1) with 1. lra. }
  assert (G2 : inject_Z k < inject_Z (Qfloor z + 1)).
  { rewrite inject_Z_plus. change (inject_Z 1) with 1. lra. }
  rewrite <- Zlt_Qlt in G1, G2. lia.
Qed.

(** A number within half a cent of [k] cents prints as [k] cents. *)
Lemma currency_near_cents (y : Q) (k : Z) :
  Qabs (y - (k # 100)) < 1 # 200 -> currency y = k # 100.
Proof.
  intros H. unfold currency. f_equal.
  assert (Hk : (k # 100) == inject_Z k * (1 # 100)).
  { unfold Qeq. simpl. lia. }
  apply Qabs_Qlt_condition in H. rewrite Hk in H. destruct H as [H1 H2].
  unfold Num.toFixed_units, Num.nearest_larger.
  change (inject_Z (Num.pow10 2)) with 100.
  destruct (Num.ltb y 0).
  - rewrite (Qfloor_unique _ (- k)); [lia | |]; rewrite inject_Z_opp; lra.
  - apply Qfloor_unique; lra.
Qed.

(** The magnitude of a bounded cents amount. *)
Lemma cents_amount_bound (x : Q) (n : Z) :
  cents_amount x n -> Qabs x <= 10000000000.
Proof.
  intros [E Hn]. rewrite E. apply Qabs_Qle_condition.
  change (10 ^ 12)%Z with 1000000000000%Z in Hn.
  unfold Qle, Qopp. simpl. lia.
Qed.

(** Reading a bounded cents amount costs less than [2^-16]. *)
Lemma B64_round_cents (x : Q) (n : Z) :
  cents_amount x n -> Qabs (B64.round x - (n # 100)) <= 1 # 65536.
Proof.
  intros H. pose proof (cents_amount_bound x n H) as Hb.
  destruct H as [E _]. rewrite <- E.
  apply B64_round_close.
  eapply Qle_trans; [exact Hb | discriminate].
Qed.

Lemma cents_diff (c l : Z) : ((c - l) # 100) == (c # 100) - (l # 100).
Proof. unfold Qeq, Qminus, Qplus, Qopp. simpl. lia. Qed.

(** The binary64 difference of two bounded cents amounts is within
    [3 * 2^-16] of their difference. *)
Lemma B64_sub_cents (x y : Q) (c l : Z) :
  cents_amount x c -> cents_amount y l ->
  Qabs (B64.sub (B64.round x) (B64.round y) - ((c - l) # 100)) <= 3 # 65536.
Proof.
  intros Hx Hy.
  pose proof (B64_round_cents x c Hx) as Ex.
  pose proof (B64_round_cents y l Hy) as Ey.
  pose proof (cents_amount_bound x c Hx) as Bx.
  pose proof (cents_amount_bound y l Hy) as By.
  destruct Hx as [Hx _], Hy as [Hy _]. rewrite Hx in Bx. rewrite Hy in By.
  rewrite cents_diff.
  set (X := B64.round x) in *. set (Y := B64.round y) in *.
  clearbody X Y.
  apply Qabs_Qle_condition in Ex, Ey, Bx, By.
  assert (Hz : Qabs (X - Y) <= 2 ^ 37).
  { apply Qabs_Qle_condition. change (2 ^ 37) with 137438953472. lra. }
  pose proof (B64_round_close (X - Y) Hz) as Ez.
  unfold B64.sub. apply Qabs_Qle_condition in Ez.
  apply Qabs_Qle_condition. lra.
Qed.

Lemma borrowerDelta64_cents (le cd : PayerSplit) (c l : Z) :
  cents_amount (borrower cd) c -> cents_amount (borrower le) l ->
  borrowerDelta64 le cd = B64.round ((c - l) # 100).
Proof.
  intros Hc Hl. unfold borrowerDelta64, B64.currency. f_equal.
  apply currency_near_cents.
  eapply Qle_lt_trans; [apply (B64_sub_cents _ _ c l Hc Hl) | reflexivity].
Qed.

Lemma borrowerDelta64_rule (le cd : PayerSplit) :
  delta_rule le cd (borrowerDelta64 le cd).
Proof.
  unfold delta_rule. cbv zeta. split; [|split].
  - unfold borrowerDelta64, B64.currency. now rewrite currency_round2.
  - apply B64_round_relative.
  - intros c l. apply borrowerDelta64_cents.
Qed.

(** ** The rows of the binary64 evaluators *)

Lemma Zero64_rows_shape (rows : list Zero.Fee) (bucket : ZeroBucket)
  (options : option RuleOptions) :
  exists g : Zero.DisplayRow -> Zero.DisplayRow,
    (forall r, g r = r \/ exists L T, g r = Zero.cure_row L T r) /\
    Zero.rows (Zero64.evaluateZeroTolerance rows bucket options) =
    List.map
      (fun row => g (Zero64.evaluate_row bucket (spread_options options) row))
      rows.
Proof.
  unfold Zero64.evaluateZeroTolerance. cbn [Zero.rows].
  destruct (_ && _).
  - eexists (Zero.cure_row _ _). split.
    + intros r. right. eauto.
    + now rewrite map_map.
  - exists (fun r => r). split; [now left|]. reflexivity.
Qed.

Lemma Ten64_rows_shape (rows : list Ten.Fee) (overrides : Ten.OverrideMap)
  (options : option RuleOptions) :
  exists g : Ten.DisplayRow -> Ten.DisplayRow,
    (forall r, g r = r \/ exists L, g r = Ten.cure_row L r) /\
    Ten.rows (Ten64.evaluateTenPercent rows overrides options) =
    List.map
      (fun row => g (Ten64.evaluate_row overrides (spread_options options) row))
      rows.
Proof.
  unfold Ten64.evaluateTenPercent. cbn [Ten.rows].
  destruct (_ && _).
  - eexists (Ten.cure_row _). split.
    + intros r. right. eauto.
    + now rewrite map_map.
  - exists (fun r => r). split; [now left|]. reflexivity.
Qed.

Lemma Zero64_rows_Forall (P : Zero.DisplayRow -> Prop) (rows : list Zero.Fee)
  (bucket : ZeroBucket) (options : option RuleOptions) :
  (forall r L T, P r -> P (Zero.cure_row L T r)) ->
  (forall row, P (Zero64.evaluate_row bucket (spread_options options) row)) ->
  Forall P (Zero.rows (Zero64.evaluateZeroTolerance rows bucket options)).
Proof.
  intros Hcure Hrow.
  destruct (Zero64_rows_shape rows bucket options) as (g & Hg & ->).
  apply List.Forall_map, List.Forall_forall. intros row _.
  destruct (Hg (Zero64.evaluate_row bucket (spread_options options) row))
    as [-> | (L & T & ->)]; [apply Hrow | apply Hcure, Hrow].
Qed.

Lemma Ten64_rows_Forall (P : Ten.DisplayRow -> Prop) (rows : list Ten.Fee)
  (overrides : Ten.OverrideMap) (options : option RuleOptions) :
  (forall r L, P r -> P (Ten.cure_row L r)) ->
  (forall row, P (Ten64.evaluate_row overrides (spread_options options) row)) ->
  Forall P (Ten.rows (Ten64.evaluateTenPercent rows overrides options)).
Proof.
  intros Hcure Hrow.
  destruct (Ten64_rows_shape rows overrides options) as (g & Hg & ->).
  apply List.Forall_map, List.Forall_forall. intros row _.
  destruct (Hg (Ten64.evaluate_row overrides (spread_options options) row))
    as [-> | (L & ->)]; [apply Hrow | apply Hcure, Hrow].
Qed.

Lemma Zero64_rows_base (rows : list Zero.Fee) (bucket : ZeroBucket)
  (options : option RuleOptions) :
  List.map Zero.base
    (Zero.rows (Zero64.evaluateZeroTolerance rows bucket options)) = rows.
Proof.
  destruct (Zero64_rows_shape rows bucket options) as (g & Hg & ->).
  rewrite map_map. rewrite <- (map_id rows) at 2.
  apply map_ext. intros row.
  destruct (Hg (Zero64.evaluate_row bucket (spread_options options) row))
    as [-> | (L & T & ->)]; [reflexivity|].
  now destruct (Zero_cure_row_frame L T
    (Zero64.evaluate_row bucket (spread_options options) row)) as [-> _].
Qed.

Lemma Ten64_rows_base (rows : list Ten.Fee) (overrides : Ten.OverrideMap)
  (options : option RuleOptions) :
  List.map Ten.base
    (Ten.rows (Ten64.evaluateTenPercent rows overrides options)) = rows.
Proof.
  destruct (Ten64_rows_shape rows overrides options) as (g & Hg & ->).
  rewrite map_map. rewrite <- (map_id rows) at 2.
  apply map_ext. intros row.
  destruct (Hg (Ten64.evaluate_row overrides (spread_options options) row))
    as [-> | (L & ->)]; [reflexivity|].
  now destruct (Ten_cure_row_frame L
    (Ten64.evaluate_row overrides (spread_options options) row)) as [-> _].
Qed.

Lemma Unlimited64_rows_base (rows : list Unlimited.Fee) :
  List.map Unlimited.base (Unlimited64.evaluateUnlimited rows) = rows.
Proof.
  unfold Unlimited64.evaluateUnlimited. rewrite map_map.
  rewrite <- (map_id rows) at 2. now apply map_ext.
Qed.

(** ** C1: the delta of every row *)

(** C1, on binary64 numbers.  Every row returned by [evaluateZeroTolerance],
    [evaluateTenPercent] and [evaluateUnlimited] is one of the input fees (in
    input order), and its [delta] is computed from the row's own le and cd
    amounts: it is the number read from [round2 d], where [round2] rounds to
    2 decimal places, half away from zero, and [d] is the binary64
    difference cd.borrower - le.borrower, itself within [2^-53] of the real
    difference (relative; [2^-1075] absolute for a subnormal).  When the two
    amounts are whole cents of at most ten billion, [delta] is exactly their
    difference in cents. *)
Theorem C1_delta_is_rounded_binary64_difference :
  forall (zrows : list Zero.Fee) (bucket : ZeroBucket)
         (zoptions : option RuleOptions)
         (trows : list Ten.Fee) (overrides : Ten.OverrideMap)
         (toptions : option RuleOptions)
         (urows : list Unlimited.Fee),
    let zres :=
      Zero.rows (Zero64.evaluateZeroTolerance zrows bucket zoptions) in
    let tres :=
      Ten.rows (Ten64.evaluateTenPercent trows overrides toptions) in
    let ures := Unlimited64.evaluateUnlimited urows in
    (List.map Zero.base zres = zrows /\
     Forall (fun r =>
       delta_rule (Zero.le (Zero.base r)) (Zero.cd (Zero.base r))
         (Zero.delta r)) zres) /\
    (List.map Ten.base tres = trows /\
     Forall (fun r =>
       delta_rule (Ten.le (Ten.base r)) (Ten.cd (Ten.base r))
         (Ten.delta r)) tres) /\
    (List.map Unlimited.base ures = urows /\
     Forall (fun r =>
       delta_rule (Unlimited.le (Unlimited.base r))
         (Unlimited.cd (Unlimited.base r)) (Unlimited.delta r)) ures).
Proof.
  intros. subst zres tres ures. repeat split.
  - apply Zero64_rows_base.
  - apply Zero64_rows_Forall.
    + intros r L T.
      now destruct (Zero_cure_row_frame L T r) as (-> & -> & _).
    + intros row. apply borrowerDelta64_rule.
  - apply Ten64_rows_base.
  - apply Ten64_rows_Forall.
    + intros r L. now destruct (Ten_cure_row_frame L r) as (-> & -> & _).
    + intros row. apply borrowerDelta64_rule.
  - apply Unlimited64_rows_base.
  - unfold Unlimited64.evaluateUnlimited.
    apply List.Forall_map, List.Forall_forall. intros row _.
    apply borrowerDelta64_rule.
Qed.

(** C1 as stated fails on amounts with a fraction of a cent: for
    le.borrower = 241.142 and cd.borrower = 1016.067 the row's delta is
    774.92, whereas the difference of the two amounts, 774.925 (and just as
    well the difference of the two numbers as JavaScript holds them), rounds
    half away from zero to 774.93. *)
Lemma C1_delta_off_by_a_cent :
  let le := 241142 # 1000 in
  let cd := 1016067 # 1000 in
  List.map Zero.delta
    (Zero.rows (Zero64.evaluateZeroTolerance [zero_fee_of le cd] BucketA None))
  = [B64.round (77492 # 100)] /\
  round2 (cd - le) = 77493 # 100 /\
  round2 (B64.round cd - B64.round le) = 77493 # 100 /\
  B64.round (77492 # 100) < B64.round (77493 # 100).
Proof. vm_compute. repeat split. Qed.

(** On whole-cent amounts the delta is exact: 1016.07 - 241.14 = 774.93. *)
Example C1_whole_cents_example :
  List.map Zero.delta
    (Zero.rows (Zero64.evaluateZeroTolerance
       [zero_fee_of (24114 # 100) (101607 # 100)] BucketA None))
  = [B64.round (77493 # 100)].
Proof. vm_compute. reflexivity. Qed.

(** ** C2: the zero-tolerance row rule *)

Lemma cents_close (k : Z) :
  (Z.abs k <= 10 ^ 12)%Z ->
  Qabs (B64.round (k # 100) - (k # 100)) <= 1 # 65536 /\
  Qabs (k # 100) <= 10000000000.
Proof.
  intros Hk.
  assert (H : cents_amount (k # 100) k) by (split; [reflexivity | exact Hk]).
  split; [apply (B64_round_cents _ _ H) | apply (cents_amount_bound _ _ H)].
Qed.

Lemma cents_step (t k : Z) : (t < k)%Z -> (t # 100) + (1 # 100) <= k # 100.
Proof. intros H. unfold Qle, Qplus. simpl. lia. Qed.

(** Two bounded cents amounts, read as numbers, compare as their cents. *)
Lemma cents_lt_iff (t k : Z) :
  (Z.abs k <= 10 ^ 12)%Z -> (Z.abs t <= 10 ^ 12)%Z ->
  (B64.round (t # 100) < B64.round (k # 100) <-> (t < k)%Z).
Proof.
  intros Hk Ht.
  destruct (cents_close k Hk) as [Ek _]. destruct (cents_close t Ht) as [Et _].
  apply Qabs_Qle_condition in Ek, Et.
  split; intros H.
  - destruct (Z.lt_trichotomy t k) as [Hlt | [-> | Hgt]]; [exact Hlt | |].
    + exfalso. apply (Qlt_irrefl _ H).
    + exfalso. pose proof (cents_step k t Hgt). lra.
  - pose proof (cents_step t k H). lra.
Qed.

(** The rounded binary64 difference of two such numbers is their difference
    in cents. *)
Lemma cents_sub (t k : Z) :
  (Z.abs k <= 10 ^ 12)%Z -> (Z.abs t <= 10 ^ 12)%Z ->
  B64.currency (B64.sub (B64.round (k # 100)) (B64.round (t # 100))) =
  B64.round ((k - t) # 100).
Proof.
  intros Hk Ht. unfold B64.currency. f_equal.
  apply currency_near_cents.
  apply (Qle_lt_trans _ (3 # 65536)); [|reflexivity].
  apply B64_sub_cents; (split; [reflexivity | assumption]).
Qed.

Lemma Zero64_evaluate_row_cases (bucket : ZeroBucket) (config : Config)
  (row : Zero.Fee) :
  let delta := borrowerDelta64 (Zero.le row) (Zero.cd row) in
  let thr := B64.round (cfg_zeroThreshold config) in
  Zero64.evaluate_row bucket config row =
  match Num.ltb thr delta, Zero.misplaced bucket row with
  | true, true =>
      {| Zero.base := row; Zero.delta := delta; Zero.status := FAIL;
         Zero.flags := [Zero64.overage_flag delta thr; Zero.placement_flag];
         Zero.cureAmount := B64.currency (B64.sub delta thr) |}
  | true, false =>
      {| Zero.base := row; Zero.delta := delta; Zero.status := FAIL;
         Zero.flags := [Zero64.overage_flag delta thr];
         Zero.cureAmount := B64.currency (B64.sub delta thr) |}
  | false, true =>
      {| Zero.base := row; Zero.delta := delta; Zero.status := REVIEW;
         Zero.flags := [Zero.placement_flag]; Zero.cureAmount := 0 |}
  | false, false =>
      {| Zero.base := row; Zero.delta := delta; Zero.status := PASS;
         Zero.flags := []; Zero.cureAmount := 0 |}
  end.
Proof.
  cbv zeta. unfold Zero64.evaluate_row. cbv zeta.
  destruct (Num.ltb _ _), (Zero.misplaced bucket row); reflexivity.
Qed.

Lemma zero_row_rule64_evaluate_row (bucket : ZeroBucket) (config : Config)
  (row : Zero.Fee) :
  zero_row_rule64 bucket (cfg_zeroThreshold config)
    (Zero64.evaluate_row bucket config row).
Proof.
  rewrite Zero64_evaluate_row_cases. cbv zeta.
  pose proof (Zero_misplaced_iff bucket row) as Hm.
  assert (Hk : exists k : Z,
             borrowerDelta64 (Zero.le row) (Zero.cd row) = B64.round (k # 100)).
  { unfold borrowerDelta64, B64.currency, currency. eauto. }
  generalize dependent (borrowerDelta64 (Zero.le row) (Zero.cd row)).
  intros delta Hk.
  unfold zero_row_rule64. cbv zeta.
  generalize (B64.round (cfg_zeroThreshold config)). intros thr.
  assert (Hcents : forall st cure,
            (st = FAIL <-> thr < delta) ->
            (st = FAIL -> cure = B64.currency (B64.sub delta thr)) ->
            exists k : Z,
              delta = B64.round (k # 100) /\
              forall t : Z,
                (Z.abs k <= 10 ^ 12)%Z -> (Z.abs t <= 10 ^ 12)%Z ->
                thr = B64.round (t # 100) ->
                (st = FAIL <-> (t < k)%Z) /\
                (st = FAIL -> cure = B64.round ((k - t) # 100))).
  { intros st cure Hst Hcure. destruct Hk as [k ->]. exists k.
    split; [reflexivity|]. intros t Bk Bt ->.
    split; [rewrite Hst; now apply cents_lt_iff|].
    intros Hf. rewrite (Hcure Hf). now apply cents_sub. }
  destruct (Num.ltb thr delta) eqn:Elt;
    [apply ltb_lt in Elt | apply ltb_ge in Elt];
    destruct (Zero.misplaced bucket row) eqn:Em;
    cbn [Zero.status Zero.delta Zero.flags Zero.cureAmount Zero.base];
    (split; [split; intros; (congruence || lra || assumption)|]);
    (split; [intros Hb;
             first [ apply Hm in Hb; discriminate
                   | split; [exists Zero.placement_flag; split;
                               [cbn; tauto|cbn; auto]|
                       split; [congruence|intros; (reflexivity || lra)]] ]|]);
    (split; [intros Hb;
             first [ exfalso; apply Hb, Hm; reflexivity
                   | split; [reflexivity|intros; (reflexivity || lra)] ]|]);
    (split; [intros Hs;
             first [ discriminate
                   | split; [exists (Zero64.overage_flag delta thr); split;
                               [cbn; tauto|cbn; auto]|
                             unfold B64.currency;
                             now rewrite currency_round2] ]|]);
    (split; [intros Hs; first [congruence | split; reflexivity]|]);
    apply Hcents;
    first [ split; intros; (congruence || lra || assumption)
          | intros; (reflexivity || discriminate) ].
Qed.

Lemma zero_row_rule64_cure_row (bucket : ZeroBucket) (thr L T : Q)
  (r : Zero.DisplayRow) :
  zero_row_rule64 bucket thr r ->
  zero_row_rule64 bucket thr (Zero.cure_row L T r).
Proof.
  unfold Zero.cure_row. destruct (_ && _); [|auto].
  unfold zero_row_rule64. cbn [Zero.status Zero.delta Zero.flags
    Zero.cureAmount Zero.base].
  intros (H1 & H2 & H3 & H4 & H5 & H6).
  split; [exact H1|]. split; [|split; [|split; [|split; [|exact H6]]]].
  - intros H. destruct (H2 H) as ((f & Hf & Hc) & Hr). split; [|exact Hr].
    exists f. split; [|exact Hc]. apply in_or_app. now left.
  - intros H. destruct (H3 H) as (Hf & Hr). split; [|exact Hr].
    rewrite has_flag_app, Hf. reflexivity.
  - intros H. destruct (H4 H) as ((f & Hf & Hc) & Hr). split; [|exact Hr].
    exists f. split; [|exact Hc]. apply in_or_app. now left.
  - intros H. destruct (H5 H) as (Hf & Hr). split; [|exact Hr].
    rewrite has_flag_app, Hf. reflexivity.
Qed.

(** C2.  For every row of [evaluateZeroTolerance], which returns the input
    rows in order: status is FAIL exactly when delta > zeroThreshold; in
    bucket "B" a row marked permittedToShop carries a
    SECTION_PLACEMENT_MISMATCH warning, is never PASS, and is REVIEW when the
    delta test passes; a FAIL row carries a ZERO_LINE_OVERAGE error flag and
    a cureAmount that is the binary64 difference delta - zeroThreshold put
    through the currency rounding; a PASS or REVIEW row has cureAmount = 0.
    In whole cents (figures of at most ten billion): the delta is k cents,
    and with a threshold of t cents the row is FAIL exactly when k > t and
    its cureAmount is then k - t cents, that is delta - zeroThreshold. *)
Theorem C2_zero_tolerance_row_rule :
  forall (rows : list Zero.Fee) (bucket : ZeroBucket)
         (options : option RuleOptions),
    let res := Zero64.evaluateZeroTolerance rows bucket options in
    List.map Zero.base (Zero.rows res) = rows /\
    Forall
      (zero_row_rule64 bucket (cfg_zeroThreshold (spread_options options)))
      (Zero.rows res).
Proof.
  intros rows bucket options res. split.
  - apply Zero64_rows_base.
  - apply Zero64_rows_Forall.
    + intros r L T. apply zero_row_rule64_cure_row.
    + intros row. apply zero_row_rule64_evaluate_row.
Qed.

(** Two rows at the default threshold 1.00: a fee estimated at 1000.00 and
    charged 1002.15 is FAIL with cureAmount 1.15; one charged 1001.00 is
    PASS with cureAmount 0. *)
Example C2_default_threshold_example :
  List.map (fun r => (Zero.delta r, Zero.status r, Zero.cureAmount r))
    (Zero.rows (Zero64.evaluateZeroTolerance
       [zero_fee_of 1000 (100215 # 100); zero_fee_of 1000 1001]
       BucketA None))
  = [(B64.round (215 # 100), FAIL, B64.round (115 # 100)); (1, PASS, 0)].
Proof. vm_compute. reflexivity. Qed.

(** With a threshold that is not in whole cents the cureAmount is still in
    whole cents: for zeroThreshold = 0.995 and a delta of 2.00 it is 1.00
    (the binary64 difference is just below 1.005), not 1.005. *)
Example C2_fractional_threshold_example :
  let options :=
    Some {| zeroThreshold := Some (995 # 1000);
            reviewConfidenceFloor := None; reviewConfidenceCeil := None;
            lenderCredits := None |} in
  List.map (fun r => (Zero.delta r, Zero.status r, Zero.cureAmount r))
    (Zero.rows (Zero64.evaluateZeroTolerance
       [zero_fee_of 1000 1002] BucketA options))
  = [(2, FAIL, 1)].
Proof. vm_compute. reflexivity. Qed.

(** ** C3: the ten-percent group and its aggregate *)

Lemma ten_group_rule64_evaluate_row (overrides : Ten.OverrideMap)
  (config : Config) (row : Ten.Fee) :
  ten_group_rule64 overrides (cfg_reviewConfidenceFloor config)
    (Ten64.evaluate_row overrides config row).
Proof.
  unfold ten_group_rule64, Ten64.evaluate_row.
  cbn [Ten.base Ten.effectiveOnWhitelist Ten.inTenGroup].
  split; [apply Ten_effective_override|].
  rewrite andb_true_iff, orb_true_iff, negb_true_iff, Ten_recording_iff, ltb_ge.
  split; intros [H1 H2]; (split; [exact H1|]).
  - now apply Qle_not_lt.
  - now apply Qnot_lt_le.
Qed.

Lemma ten_group_rule64_cure_row (overrides : Ten.OverrideMap) (floor L : Q)
  (r : Ten.DisplayRow) :
  ten_group_rule64 overrides floor r ->
  ten_group_rule64 overrides floor (Ten.cure_row L r).
Proof.
  unfold ten_group_rule64.
  now destruct (Ten_cure_row_frame L r) as (-> & _ & _ & -> & ->).
Qed.

Lemma Ten64_eligible_bases (rows : list Ten.Fee)
  (overrides : Ten.OverrideMap) (options : option RuleOptions) :
  List.map Ten.base (List.filter Ten.inTenGroup
    (Ten.rows (Ten64.evaluateTenPercent rows overrides options))) =
  List.map Ten.base (List.filter Ten.inTenGroup
    (List.map (Ten64.evaluate_row overrides (spread_options options)) rows)).
Proof.
  destruct (Ten64_rows_shape rows overrides options) as (g & Hg & ->).
  induction rows as [|row rows IH]; [reflexivity|]. cbn [List.map List.filter].
  assert (E : Ten.inTenGroup
                (g (Ten64.evaluate_row overrides (spread_options options) row)) =
              Ten.inTenGroup
                (Ten64.evaluate_row overrides (spread_options options) row) /\
              Ten.base
                (g (Ten64.evaluate_row overrides (spread_options options) row)) =
              Ten.base
                (Ten64.evaluate_row overrides (spread_options options) row)).
  { destruct (Hg (Ten64.evaluate_row overrides (spread_options options) row))
      as [-> | (L & ->)]; [auto|].
    now destruct (Ten_cure_row_frame L
      (Ten64.evaluate_row overrides (spread_options options) row))
      as (-> & _ & _ & _ & ->). }
  destruct E as [-> E2].
  destruct (Ten.inTenGroup _); cbn [List.map]; [rewrite E2; f_equal|]; apply IH.
Qed.

Lemma sum_of_total64 {T : Type} (f : T -> Q) (rows : list T) :
  B64.sum_of f rows = total64 (List.map f rows).
Proof.
  unfold B64.sum_of, total64. generalize 0.
  induction rows as [|row rows IH]; intros acc; [reflexivity|].
  cbn [fold_left List.map]. apply IH.
Qed.

Lemma Ten64_group_sum (rows : list Ten.Fee) (overrides : Ten.OverrideMap)
  (options : option RuleOptions) :
  let res := Ten64.evaluateTenPercent rows overrides options in
  forall f : Ten.Fee -> Q,
    B64.currency (B64.sum_of (fun r => f (Ten.base r))
      (List.filter Ten.inTenGroup
         (List.map (Ten64.evaluate_row overrides (spread_options options))
            rows)))
    = B64.round (round2 (total64 (List.map (fun r => f (Ten.base r))
                          (List.filter Ten.inTenGroup (Ten.rows res))))).
Proof.
  intros res f. unfold B64.currency. rewrite currency_round2.
  rewrite sum_of_total64. subst res.
  rewrite <- !(map_map Ten.base f).
  now rewrite Ten64_eligible_bases.
Qed.

Lemma B64_currency_nonneg (x : Q) : 0 <= x -> 0 <= B64.currency x.
Proof. intros H. apply B64_round_nonneg. now apply currency_nonneg. Qed.

Lemma B64_currency_nonpos (x : Q) : x <= 0 -> B64.currency x <= 0.
Proof. intros H. apply B64_round_nonpos. now apply currency_nonpos. Qed.

Lemma Math_max_zero_currency64 (d : Q) :
  B64.currency (Num.Math_max 0 d) == Qmax 0 (B64.currency d).
Proof.
  unfold Num.Math_max. destruct (Num.ltb 0 d) eqn:E.
  - apply ltb_lt in E. rewrite Q.max_r; [reflexivity|].
    apply B64_currency_nonneg. lra.
  - apply ltb_ge in E. rewrite Q.max_l; [reflexivity|].
    now apply B64_currency_nonpos.
Qed.

(** C3, on binary64 numbers.  [evaluateTenPercent] returns the input rows in
    order; a row is in the ten-percent group exactly when
    (effectiveOnWhitelist or recording) and not low-confidence, where effectiveOnWhitelist is the
    override's includeInGroup when the map has one for the row's id and the
    row's onWhitelist otherwise, recording means providerType "E" or the
    isRecording flag, and low confidence means matchConfidence <
    reviewConfidenceFloor.  leBase and cdTotal are the rounded binary64 sums
    of le.borrower and cd.borrower over the in-group rows;
    allowedMax = round2 (leBase * 1.1), the product being the binary64
    product by the number nearest to 1.1;
    overage = max (0, round2 (cdTotal - allowedMax)), the difference being
    the binary64 difference; and the status is OVER exactly when
    overage > 0.  Each [round2] figure is read back as a number. *)
Theorem C3_ten_percent_group_and_aggregate :
  forall (rows : list Ten.Fee) (overrides : Ten.OverrideMap)
         (options : option RuleOptions),
    let res := Ten64.evaluateTenPercent rows overrides options in
    let in_group := List.filter Ten.inTenGroup (Ten.rows res) in
    List.map Ten.base (Ten.rows res) = rows /\
    Forall (ten_group_rule64 overrides
              (cfg_reviewConfidenceFloor (spread_options options)))
      (Ten.rows res) /\
    Ten.leBase res =
      B64.round (round2 (total64
        (List.map (fun r => B64.round (borrower (Ten.le (Ten.base r))))
           in_group))) /\
    Ten.cdTotal res =
      B64.round (round2 (total64
        (List.map (fun r => B64.round (borrower (Ten.cd (Ten.base r))))
           in_group))) /\
    Ten.allowedMax res =
      B64.round (round2 (B64.mul (Ten.leBase res) (B64.round (11 # 10)))) /\
    Ten.overage res ==
      Qmax 0 (B64.round (round2
                (B64.sub (Ten.cdTotal res) (Ten.allowedMax res)))) /\
    (Ten.group_status res = OVER <-> 0 < Ten.overage res).
Proof.
  intros rows overrides options res in_group.
  pose proof (Ten64_group_sum rows overrides options) as Hsum.
  cbv zeta in Hsum. fold res in Hsum. fold in_group in Hsum.
  split; [|split; [|split; [|split; [|split; [|split]]]]].
  - apply Ten64_rows_base.
  - apply Ten64_rows_Forall.
    + intros r L. apply ten_group_rule64_cure_row.
    + intros row. apply ten_group_rule64_evaluate_row.
  - apply (Hsum (fun row => B64.round (borrower (Ten.le row)))).
  - apply (Hsum (fun row => B64.round (borrower (Ten.cd row)))).
  - subst res. unfold Ten64.evaluateTenPercent.
    cbn [Ten.allowedMax Ten.leBase]. unfold B64.currency at 1.
    now rewrite currency_round2.
  - subst res. unfold Ten64.evaluateTenPercent.
    cbn [Ten.allowedMax Ten.leBase Ten.cdTotal Ten.overage].
    rewrite Math_max_zero_currency64. unfold B64.currency at 1.
    now rewrite currency_round2.
  - subst res. unfold Ten64.evaluateTenPercent.
    cbn [Ten.group_status Ten.overage].
    destruct (Num.ltb 0 _) eqn:E.
    + apply ltb_lt in E. tauto.
    + apply ltb_ge in E. split; [discriminate|]. intros H. exfalso. lra.
Qed.

(** C3 as stated fails on whole-cent figures: one in-group fee estimated at
    101.35 and charged 111.49 gives leBase = 101.35 and cdTotal = 111.49, and
    round2 (101.35 * 1.10) = round2 (111.485) = 111.49, so no overage; the
    code's binary64 product is 111.48499999999999, allowedMax is 111.48, the
    overage 0.01 and the status OVER. *)
Lemma C3_allowed_max_a_cent_short :
  let res := Ten64.evaluateTenPercent
               [ten_fee_of (10135 # 100) (11149 # 100)] ∅ None in
  Ten.leBase res = B64.round (10135 # 100) /\
  Ten.cdTotal res = B64.round (11149 # 100) /\
  round2 ((10135 # 100) * (11 # 10)) = 11149 # 100 /\
  round2 (B64.round (10135 # 100) * B64.round (11 # 10)) = 11149 # 100 /\
  Ten.allowedMax res = B64.round (11148 # 100) /\
  Ten.overage res = B64.round (1 # 100) /\
  Ten.group_status res = OVER.
Proof. vm_compute. repeat split. Qed.

(** The figures of the specification's example come out as stated: three
    in-group rows with leBase 1000 and cdTotal 1150 give allowedMax 1100.00,
    overage 50.00 and OVER. *)
Example C3_specification_example :
  let res := Ten64.evaluateTenPercent sample_ten_rows ∅ None in
  Ten.leBase res = 1000 /\ Ten.cdTotal res = 1150 /\
  Ten.allowedMax res = 1100 /\ Ten.overage res = 50 /\
  Ten.group_status res = OVER.
Proof. vm_compute. repeat split. Qed.

(** ** C8: the per-diem interest check *)

Lemma Math_abs_eq_Qabs (x : Q) : Num.Math_abs x = Qabs x.
Proof.
  destruct x as [[|p|p] d]; reflexivity.
Qed.

Lemma Qabs_pos_eq (x : Q) : 0 <= x -> Qabs x = x.
Proof.
  destruct x as [[|p|p] d]; intros H; try reflexivity.
  exfalso. unfold Qle in H. simpl in H. lia.
Qed.

(** A positive number is at least the least subnormal. *)
Lemma B64_round_pos_min (x : Q) :
  0 < B64.round x -> 2 ^ B64.emin <= B64.round x.
Proof.
  unfold B64.round. destruct (Qeq_bool x 0); [intros H; lra|]. cbv zeta.
  set (e := B64.ulp_exponent x).
  set (m := B64.nearest_even (Qabs x / 2 ^ e)).
  pose proof (Qpower_2_pos e) as He.
  assert (Hm0 : (0 <= m)%Z).
  { apply B64_nearest_even_nonneg.
    apply Qle_shift_div_l; [exact He|]. rewrite Qmult_0_l. apply Qabs_nonneg. }
  assert (Hee : 2 ^ B64.emin <= 2 ^ e).
  { apply Qpower_le_compat_l; [|discriminate].
    unfold e, B64.ulp_exponent. lia. }
  destruct (Qle_bool 0 x); rewrite Qred_correct; intros H.
  - assert (Hm : (1 <= m)%Z).
    { destruct (Z.eq_dec m 0%Z) as [E | E]; [|lia].
      rewrite E in H. change (inject_Z 0) with 0 in H. lra. }
    rewrite Zle_Qle in Hm. change (inject_Z 1) with 1 in Hm.
    assert (1 * 2 ^ e <= inject_Z m * 2 ^ e)
      by (apply Qmult_le_compat_r; lra).
    lra.
  - rewrite Zle_Qle in Hm0. change (inject_Z 0) with 0 in Hm0.
    assert (0 <= inject_Z m * 2 ^ e) by (apply Qmult_le_0_compat; lra).
    lra.
Qed.

(** A number that rounds to zero is at most half the least subnormal. *)
Lemma B64_round_zero_small (x : Q) :
  B64.round x == 0 -> Qabs x <= 2 ^ B64.emin * (1 # 2).
Proof.
  intros H. pose proof (Qpower_2_pos B64.emin) as Hp.
  destruct (Qeq_dec x 0) as [E | Hx].
  - rewrite E. change (Qabs 0) with 0. lra.
  - pose proof (B64_round_ulp x Hx) as Hr. rewrite H in Hr.
    assert (E : Qabs (0 - x) == Qabs x).
    { assert (E0 : 0 - x == - x) by ring. rewrite E0. apply Qabs_opp. }
    rewrite E in Hr. clear E.
    pose proof (B64_binade_le x Hx) as Hb.
    assert (Hn : 0 < Qabs x).
    { pose proof (Qabs_nonneg x) as Hn. apply Qle_lteq in Hn.
      destruct Hn as [Hn | Hn]; [exact Hn|].
      exfalso. apply Hx.
      assert (Hc : Qabs x <= 0) by (rewrite <- Hn; apply Qle_refl).
      apply Qabs_Qle_condition in Hc. change (- 0) with 0 in Hc. lra. }
    unfold B64.ulp_exponent in Hr.
    destruct (Z.max_spec B64.emin (B64.binade x - 52)) as [[_ E] | [_ E]];
      rewrite E in Hr; [exfalso | exact Hr].
    replace (B64.binade x - 52)%Z with (B64.binade x + (-52))%Z in Hr by lia.
    rewrite Qpower_plus in Hr by discriminate.
    change (2 ^ (-52)) with (1 # 4503599627370496) in Hr.
    set (b := 2 ^ B64.binade x) in *. clearbody b.
    set (a := Qabs x) in *. clearbody a. lra.
Qed.

Lemma B64_round_cents_nonzero (u : Z) :
  B64.round (u # 100) == 0 -> u = 0%Z.
Proof.
  intros H. apply B64_round_zero_small in H.
  destruct (Z.eq_dec u 0%Z) as [E | E]; [exact E | exfalso].
  assert (Hu : 1 # 100 <= Qabs (u # 100)).
  { unfold Qabs, Qle. simpl. lia. }
  assert (Hs : 2 ^ B64.emin * (1 # 2) < 1 # 100) by reflexivity.
  lra.
Qed.

(** The binary64 difference of a positive number and a zero is positive. *)
Lemma B64_sub_zero_pos (x z : Q) :
  0 < B64.round x -> z == 0 -> 0 < B64.sub (B64.round x) z.
Proof.
  intros Hx Hz. unfold B64.sub.
  pose proof (B64_round_pos_min x Hx) as Hmin.
  set (c := B64.round x) in *. clearbody c.
  assert (Hn : 0 <= B64.round (c - z)) by (apply B64_round_nonneg; lra).
  destruct (Qeq_dec (B64.round (c - z)) 0) as [E | E]; [exfalso | lra].
  apply B64_round_zero_small in E.
  rewrite Qabs_pos in E by lra.
  pose proof (Qpower_2_pos B64.emin). lra.
Qed.

Lemma Unlimited64_status_flags (row : Unlimited.Fee) :
  let out := Unlimited64.evaluate_row row in
  (Unlimited.status out = REVIEW <-> Unlimited.flags out <> []) /\
  (Unlimited.status out = PASS <-> Unlimited.flags out = []).
Proof.
  cbv zeta. unfold Unlimited64.evaluate_row.
  cbn [Unlimited.status Unlimited.flags].
  match goal with |- context [length ?l] => destruct l as [|f fl] end;
    cbn; split; split; congruence.
Qed.

Lemma Unlimited64_deviation_flagged (row : Unlimited.Fee) :
  has_flag PER_DIEM_INTEREST_DEVIATION
    (Unlimited.flags (Unlimited64.evaluate_row row)) =
  Unlimited64.per_diem_checked row &&
  Ieee.gtb (Unlimited64.deviation_percent row) 10.
Proof.
  unfold Unlimited64.evaluate_row. cbn [Unlimited.flags].
  rewrite !has_flag_push_if.
  cbn [has_flag existsb orb code Unlimited.outlier_flag
       Unlimited64.deviation_flag Unlimited.escrow_flag
       Unlimited.optionality_flag buildFlag ToleranceFlag_eqb].
  now rewrite !andb_false_r, !orb_false_r, andb_true_r.
Qed.

Lemma Unlimited64_checked_iff (row : Unlimited.Fee) :
  Unlimited64.per_diem_checked row = true <->
  Unlimited.bucket row = "F" /\
  (exists d, Unlimited.perDiemDays row = Some d /\ ~ B64.round d == 0) /\
  (exists l, Unlimited.loanAmount row = Some l /\ ~ B64.round l == 0) /\
  (exists r, Unlimited.interestRate row = Some r /\ ~ B64.round r == 0) /\
  0 < B64.round (borrower (Unlimited.cd row)).
Proof.
  unfold Unlimited64.per_diem_checked, Unlimited64.number, Unlimited.truthy.
  rewrite !andb_true_iff, String.eqb_eq, ltb_lt.
  destruct (Unlimited.perDiemDays row) as [d|],
           (Unlimited.loanAmount row) as [l|],
           (Unlimited.interestRate row) as [r|];
    cbn [option_map]; rewrite ?truthy_nonzero;
    (split;
     [ intros ((((H1 & H2) & H3) & H4) & H5);
       first [ discriminate | repeat split; eauto ]
     | intros (H1 & (d' & Hd & Hd') & (l' & Hl & Hl') & (r' & Hr & Hr') & H5);
       first [ discriminate
             | injection Hd as <-; injection Hl as <-; injection Hr as <-;
               repeat split; assumption ] ]).
Qed.

Lemma per_diem_rule64_evaluate_row (row : Unlimited.Fee) :
  per_diem_rule64 row (Unlimited64.evaluate_row row).
Proof.
  unfold per_diem_rule64.
  split; [|split; [|apply Unlimited64_status_flags]].
  - intros d l r Hb Hd Hl Hr Hd0 Hl0 Hr0 Hcd.
    set (charged := B64.round (borrower (Unlimited.cd row))) in *.
    set (raw := B64.mul (B64.div (B64.div
                  (B64.mul (B64.round l) (B64.round r)) 100) 365)
                  (B64.round d)).
    set (expected := B64.round (round2 raw)).
    set (percent :=
           B64.mul (B64.div (Qabs (B64.sub charged expected)) expected) 100).
    assert (Eraw : Unlimited64.raw_per_diem row = raw).
    { unfold Unlimited64.raw_per_diem. rewrite Hd, Hl, Hr. reflexivity. }
    assert (Eexp : Unlimited64.expected_per_diem row = expected).
    { unfold Unlimited64.expected_per_diem, expected, B64.currency.
      now rewrite Eraw, currency_round2. }
    split.
    + rewrite Unlimited64_deviation_flagged.
      assert (Hchk : Unlimited64.per_diem_checked row = true).
      { apply Unlimited64_checked_iff. split; [exact Hb|]. eauto 10. }
      rewrite Hchk. cbn [andb].
      unfold Unlimited64.deviation_percent, Unlimited64.deviation.
      rewrite Eexp, Eraw, Math_abs_eq_Qabs. fold charged.
      unfold Unlimited64.div.
      destruct (Qeq_bool expected 0) eqn:Ez.
      * apply Qeq_bool_iff in Ez.
        pose proof (B64_sub_zero_pos (borrower (Unlimited.cd row)) expected
                      Hcd Ez) as Hpos.
        fold charged in Hpos.
        rewrite (Qabs_pos_eq _ (Qlt_le_weak _ _ Hpos)).
        destruct (Qeq_bool (B64.sub charged expected) 0) eqn:Ed;
          [apply Qeq_bool_iff in Ed; lra|].
        assert (Hlt : Num.ltb 0 (B64.sub charged expected) = true)
          by now apply ltb_lt.
        rewrite Hlt.
        assert (Eu : Num.toFixed_units 2 raw = 0%Z).
        { apply B64_round_cents_nonzero.
          unfold expected in Ez. rewrite <- currency_round2 in Ez.
          exact Ez. }
        unfold currency_is_negative_zero. rewrite Eu.
        change (0 =? 0)%Z with true. rewrite andb_true_r.
        destruct (Num.ltb raw 0) eqn:Er;
          [apply ltb_lt in Er | apply ltb_ge in Er];
          cbn [xorb Unlimited64.scale Ieee.gtb]; split.
        -- discriminate.
        -- intros [[H _] | [_ H]]; [contradiction | lra].
        -- intros _. right. split; assumption.
        -- reflexivity.
      * apply Qeq_bool_neq in Ez.
        cbn [Unlimited64.scale Ieee.gtb]. rewrite ltb_lt. fold percent.
        split; [intros H; left; split; assumption|].
        intros [[_ H] | [H _]]; [exact H | contradiction].
    + intros f Hf Hc. unfold Unlimited64.evaluate_row in Hf.
      cbn [Unlimited.flags] in Hf.
      rewrite !In_push_if in Hf. cbn [In] in Hf.
      destruct Hf as [[[[[] | [_ ->]] | [_ ->]] | [_ ->]] | [_ ->]];
        try discriminate Hc.
      split; [reflexivity|].
      unfold Unlimited64.deviation_flag. cbn [label buildFlag].
      rewrite Eexp. fold charged. eauto.
  - rewrite Unlimited64_deviation_flagged, andb_true_iff.
    intros [H _]. now apply Unlimited64_checked_iff.
Qed.

(** C8, on binary64 numbers.  [evaluateUnlimited] returns the input fees in
    order.  For a bucket-"F" fee whose perDiemDays, loanAmount and
    interestRate are present (and not zero) and whose cd.borrower is positive, with
    expected = round2 (loanAmount * interestRate / 100 / 365 * perDiemDays)
    computed in binary64: the row carries a PER_DIEM_INTEREST_DEVIATION flag
    exactly when the binary64 value of |cd.borrower - expected| / expected
    * 100 exceeds 10, an expected amount of 0.00 counting as an infinite
    deviation; the flag's message carries both figures; no other fee
    carries the flag; and the row's status is REVIEW when it has a flag and
    PASS when it has none. *)
Theorem C8_per_diem_interest_deviation :
  forall (rows : list Unlimited.Fee),
    let res := Unlimited64.evaluateUnlimited rows in
    List.map Unlimited.base res = rows /\
    Forall (fun out => per_diem_rule64 (Unlimited.base out) out) res.
Proof.
  intros rows res. split; [apply Unlimited64_rows_base|].
  subst res. unfold Unlimited64.evaluateUnlimited.
  apply List.Forall_map, List.Forall_forall. intros row _.
  apply per_diem_rule64_evaluate_row.
Qed.

(** C8 as stated fails on whole-cent figures.  For a loan of 50050 at 6.57%
    and 15 days the product is 135.135, which rounds half away from zero to
    135.14, and a charge of 148.65 deviates from that by 9.997%, under 10%:
    no flag.  The code's binary64 product is just under 135.135, its
    expected amount 135.13, the deviation 10.005%, and the row is flagged. *)
Lemma C8_expected_a_cent_short :
  let row := per_diem_fee_of 50050 (657 # 100) 15 0 (14865 # 100) in
  let out := Unlimited64.evaluate_row row in
  round2 (50050 * (657 # 100) / 100 / 365 * 15) = 13514 # 100 /\
  Qabs ((14865 # 100) - (13514 # 100)) / (13514 # 100) < 1 # 10 /\
  Unlimited64.expected_per_diem row = B64.round (13513 # 100) /\
  has_flag PER_DIEM_INTEREST_DEVIATION (Unlimited.flags out) = true /\
  Unlimited.status out = REVIEW.
Proof. vm_compute. repeat split. Qed.

(** And at a deviation of exactly 10%: a loan of 100000 at 6% and 13 days
    gives expected 213.70, and a charge of 235.07 deviates by
    21.37 / 213.70 = 10%, not more; the binary64 quotient times 100 is
    10.000000000000004 and the row is flagged. *)
Example C8_flagged_at_ten_percent :
  let row := per_diem_fee_of 100000 6 13 0 (23507 # 100) in
  let out := Unlimited64.evaluate_row row in
  Unlimited64.expected_per_diem row = B64.round (21370 # 100) /\
  Qabs ((23507 # 100) - (21370 # 100)) / (21370 # 100) == 1 # 10 /\
  has_flag PER_DIEM_INTEREST_DEVIATION (Unlimited.flags out) = true.
Proof. vm_compute. repeat split. Qed.

(** The example of the specification: 20 days on 300000 at 6.5% give
    expected 1068.49; a charge of 1500 is flagged, a charge of 1068.49 is
    not. *)
Example C8_specification_example :
  let far := per_diem_fee_of 300000 (65 # 10) 20 1068 1500 in
  let near := per_diem_fee_of 300000 (65 # 10) 20 1068 (106849 # 100) in
  Unlimited64.expected_per_diem far = B64.round (106849 # 100) /\
  List.map code (Unlimited.flags (Unlimited64.evaluate_row far)) =
    [PER_DIEM_OUTLIER; PER_DIEM_INTEREST_DEVIATION] /\
  List.map code (Unlimited.flags (Unlimited64.evaluate_row near)) =
    [PER_DIEM_OUTLIER].
Proof. vm_compute. repeat split. Qed.

(** ** C9: the total difference *)

(** C9 does not hold of the code.  Two unlimited fees in whole cents
    whose changes cancel (+24.20 and -24.20), nothing else: the sum of
    (CD subtotal - LE subtotal) is 0.00.  The page adds the row differences
    in binary64 and rounds nothing: its totalDifference is 2^-46 (about
    1.4e-14), which is positive and is not a number of cents; rounding it as
    every other aggregate is rounded would give 0. *)
Theorem C9_total_difference_is_not_rounded :
  let ev := Page64.evaluate sample_offsetting_dataset ∅ in
  Forall (fun row => is_cents (borrower (Unlimited.le row)) /\
                     is_cents (borrower (Unlimited.cd row)))
    (unlimited sample_offsetting_dataset) /\
  total (List.map (fun row => borrower (Unlimited.cd row) -
                              borrower (Unlimited.le row))
           (unlimited sample_offsetting_dataset)) == 0 /\
  Zero.subtotalCD (Page.zeroA ev) - Zero.subtotalLE (Page.zeroA ev) == 0 /\
  Zero.subtotalCD (Page.zeroB ev) - Zero.subtotalLE (Page.zeroB ev) == 0 /\
  Ten.cdTotal (Page.tenPercentResult ev) -
    Ten.leBase (Page.tenPercentResult ev) == 0 /\
  Page.totalDifference ev = 1 # 70368744177664 /\
  0 < Page.totalDifference ev /\
  B64.currency (Page.totalDifference ev) = 0.
Proof.
  cbv zeta. split.
  - repeat constructor; eexists; reflexivity.
  - vm_compute. repeat split.
Qed.

(** ** C6: the raw-document path draws from [Math.random] *)

Lemma ten_rows_constant_draws (c : Q)
  (entries : JsMap.t Transformer.TenEntry) :
  forall calls index,
    Forall (fun row =>
              Ten.onWhitelist row =
              (String.eqb (Ten.providerType row) "E" || Num.ltb (3 # 10) c))
      (fst (Transformer.ten_rows (constant_draws c) calls index entries)).
Proof.
  induction entries as [|[k v] rest IH]; intros calls index; [constructor|].
  cbn [Transformer.ten_rows]. unfold Transformer.ten_row.
  specialize (IH (if String.eqb (Transformer.type v) "E"
                  then calls else S calls) (S index)).
  destruct (Transformer.ten_rows _ _ _ rest) as [rows calls'].
  cbn [fst] in *. constructor; [|exact IH].
  cbn [Ten.onWhitelist Ten.providerType].
  unfold constant_draws. now destruct (String.eqb (Transformer.type v) "E").
Qed.

Lemma transformTridData_tenPercent (random : Transformer.Random)
  (calls : nat) (le cd : option Backend.LoanEstimateRecord) :
  tenPercent (fst (transformTridData random calls le cd)) =
  fst (Transformer.transformTenPercent random calls le cd).
Proof.
  unfold transformTridData.
  now destruct (Transformer.transformTenPercent random calls le cd).
Qed.

(** C6, the code on the raw-document path.  [transformTenPercent] sets
    onWhitelist of every fee that is not a recording fee to
    [Math.random() > 0.3].  So for any two documents that give at least one
    such fee, a run in which [Math.random()] returns 0.9 and a run in which
    it returns 0.1 build different datasets from the same input: every fee is
    on the whitelist in the first, and no fee but the recording fees is in
    the second. *)
Theorem C6_raw_path_is_not_deterministic :
  forall (loanEstimate closingDisclosure : option Backend.LoanEstimateRecord)
         (calls : nat) (row : Ten.Fee),
    let run c :=
      fst (transformTridData (constant_draws c) calls
             loanEstimate closingDisclosure) in
    In row (tenPercent (run (9 # 10))) ->
    Ten.providerType row <> "E" ->
    Forall (fun r => Ten.onWhitelist r = true) (tenPercent (run (9 # 10))) /\
    Forall (fun r => Ten.providerType r <> "E" -> Ten.onWhitelist r = false)
      (tenPercent (run (1 # 10))) /\
    run (9 # 10) <> run (1 # 10).
Proof.
  intros le cd calls row run Hin Htype.
  assert (Hrun : forall c,
             tenPercent (run c) =
             fst (Transformer.transformTenPercent (constant_draws c) calls
                    le cd))
    by (intros c; apply transformTridData_tenPercent).
  rewrite !Hrun. rewrite Hrun in Hin.
  assert (Hne : run (9 # 10) = run (1 # 10) ->
                fst (Transformer.transformTenPercent
                       (constant_draws (9 # 10)) calls le cd) =
                fst (Transformer.transformTenPercent
                       (constant_draws (1 # 10)) calls le cd)).
  { intros Heq. rewrite <- !Hrun. now rewrite Heq. }
  clearbody run. clear Hrun.
  unfold Transformer.transformTenPercent in *.
  set (entries := Transformer.merge_ten _ _ _ _) in *. clearbody entries.
  pose proof (ten_rows_constant_draws (9 # 10) entries calls 0) as H9.
  pose proof (ten_rows_constant_draws (1 # 10) entries calls 0) as H1.
  assert (F9 : Forall (fun r => Ten.onWhitelist r = true)
                 (fst (Transformer.ten_rows (constant_draws (9 # 10))
                         calls 0 entries))).
  { eapply List.Forall_impl; [|exact H9]. intros r ->.
    change (Num.ltb (3 # 10) (9 # 10)) with true. apply orb_true_r. }
  assert (F1 : Forall (fun r => Ten.providerType r <> "E" ->
                               Ten.onWhitelist r = false)
                 (fst (Transformer.ten_rows (constant_draws (1 # 10))
                         calls 0 entries))).
  { eapply List.Forall_impl; [|exact H1]. intros r -> Hr.
    change (Num.ltb (3 # 10) (1 # 10)) with false. rewrite orb_false_r.
    now apply String.eqb_neq. }
  split; [exact F9|]. split; [exact F1|].
  intros Heq. apply Hne in Heq. rewrite <- Heq in F1.
  pose proof (proj1 (List.Forall_forall _ _) F9 row Hin) as T.
  pose proof (proj1 (List.Forall_forall _ _) F1 row Hin Htype) as F.
  congruence.
Qed.

Lemma C6_raw_path_witness :
  exists row,
    In row (tenPercent (fst (transformTridData (constant_draws (9 # 10)) 0
                               (Some sample_le) (Some sample_cd)))) /\
    Ten.providerType row <> "E" /\
    fst (transformTridData (constant_draws (9 # 10)) 0
           (Some sample_le) (Some sample_cd)) <>
    fst (transformTridData (constant_draws (1 # 10)) 0
           (Some sample_le) (Some sample_cd)).
Proof.
  set (rows := tenPercent (fst (transformTridData (constant_draws (9 # 10)) 0
                                  (Some sample_le) (Some sample_cd)))).
  destruct (List.find (fun r => negb (String.eqb (Ten.providerType r) "E"))
              rows) as [row|] eqn:F; [|vm_compute in F; discriminate].
  apply List.find_some in F. destruct F as [Hin Hty].
  apply negb_true_iff, String.eqb_neq in Hty.
  exists row. split; [exact Hin|]. split; [exact Hty|].
  exact (proj2 (proj2 (C6_raw_path_is_not_deterministic
                         (Some sample_le) (Some sample_cd) 0 row Hin Hty))).
Defined.

(** The two runs of C6 on the sample documents, evaluated: with the draw 0.9
    the title search fee is in the ten-percent group (leBase 450, cdTotal
    525, OVER); with the draw 0.1 it is excluded (both totals 0, PASS). *)
Example C6_evaluation_differs :
  let result c :=
    Page.tenPercentResult
      (Page64.evaluate
         (fst (transformTridData (constant_draws c) 0
                 (Some sample_le) (Some sample_cd))) ∅) in
  (Ten.leBase (result (9 # 10)), Ten.cdTotal (result (9 # 10)),
   Ten.group_status (result (9 # 10))) = (450, 525, OVER) /\
  (Ten.leBase (result (1 # 10)), Ten.cdTotal (result (1 # 10)),
   Ten.group_status (result (1 # 10))) = (0, 0, GROUP_PASS).
Proof. vm_compute. split; reflexivity. Qed.

(** ** Binary64 arithmetic: the values

    What [B64.round] returns is a binary64 value, [m * 2^e] with a
    significand [m] of at most 53 bits, and such a value is left as it is:
    a number of the engine that is read again is the same number. *)

Lemma B64_binade_lt (x : Q) : ~ x == 0 -> Qabs x < 2 ^ (B64.binade x + 1).
Proof.
  intros Hx. unfold B64.binade. cbv zeta.
  set (n := Z.abs (Qnum x)). set (d := Zpos (Qden x)).
  destruct (Qle_bool _ _) eqn:E.
  2:{ replace (Z.log2 n - Z.log2 d - 1 + 1)%Z with (Z.log2 n - Z.log2 d)%Z
        by lia.
      apply Qnot_le_lt. intros H. apply Qle_bool_iff in H. congruence. }
  clear E.
  assert (Hn : (0 < n)%Z).
  { subst n. destruct x as [[|p|p] q]; cbn; try lia.
    exfalso. apply Hx. reflexivity. }
  assert (Hd : (0 < d)%Z) by (subst d; lia).
  pose proof (Z.log2_spec n Hn) as [_ Ha].
  pose proof (Z.log2_spec d Hd) as [Hb _].
  pose proof (Z.log2_nonneg n) as Ha0. pose proof (Z.log2_nonneg d) as Hb0.
  set (a := Z.log2 n) in *. set (b := Z.log2 d) in *.
  replace (a - b + 1)%Z with (Z.succ a - b)%Z by lia.
  rewrite Qpower_minus by (intros H; discriminate).
  rewrite <- !(Zpower_Qpower 2) by lia.
  rewrite Qabs_num_den. fold n d.
  assert (Hp : (0 < 2 ^ b)%Z) by (apply Z.pow_pos_nonneg; lia).
  assert (Hp' : 0 < inject_Z (2 ^ b))
    by (change 0 with (inject_Z 0); rewrite <- Zlt_Qlt; lia).
  assert (Hd' : 0 < inject_Z d)
    by (change 0 with (inject_Z 0); rewrite <- Zlt_Qlt; lia).
  apply Qlt_shift_div_l; [exact Hp'|].
  assert (E : inject_Z n / inject_Z d * inject_Z (2 ^ b) ==
              inject_Z n * inject_Z (2 ^ b) / inject_Z d)
    by (field; lra).
  rewrite E. apply Qlt_shift_div_r; [exact Hd'|].
  rewrite <- !inject_Z_mult, <- Zlt_Qlt.
  set (P := (2 ^ b)%Z) in *. set (R := (2 ^ Z.succ a)%Z) in *.
  clearbody P R. nia.
Qed.

Lemma B64_nearest_even_integer (y : Q) (k : Z) :
  y == inject_Z k -> B64.nearest_even y = k.
Proof.
  intros E. unfold B64.nearest_even.
  assert (F : Qfloor y = k) by (rewrite (Qfloor_comp _ _ E); apply Qfloor_Z).
  rewrite F. cbv zeta.
  assert (L : Qcompare (y - inject_Z k) (1 # 2) = Lt).
  { apply (proj1 (Qlt_alt _ _)). rewrite E.
    apply (Qle_lt_trans _ 0); [|reflexivity].
    apply Qle_minus_iff. ring_simplify. apply Qle_refl. }
  now rewrite L.
Qed.


Lemma Qpower_2_lt_inv (a b : Z) : 2 ^ a < 2 ^ b -> (a < b)%Z.
Proof.
  intros H. destruct (Z_lt_le_dec a b) as [L | L]; [exact L|].
  exfalso. apply (Qlt_irrefl (2 ^ a)).
  apply (Qlt_le_trans _ (2 ^ b)); [exact H|].
  apply Qpower_le_compat_l; [exact L | discriminate].
Qed.

Lemma B64_binade_unique (y : Q) (b : Z) :
  2 ^ b <= Qabs y -> Qabs y < 2 ^ (b + 1) -> B64.binade y = b.
Proof.
  intros H1 H2.
  assert (Hy : ~ y == 0).
  { intros E. rewrite E in H1. change (Qabs 0) with 0 in H1.
    apply (Qlt_irrefl 0).
    exact (Qlt_le_trans _ _ _ (Qpower_2_pos b) H1). }
  pose proof (B64_binade_le y Hy) as L. pose proof (B64_binade_lt y Hy) as U.
  assert (A : (B64.binade y < b + 1)%Z).
  { apply Qpower_2_lt_inv. now apply (Qle_lt_trans _ (Qabs y)). }
  assert (B : (b < B64.binade y + 1)%Z).
  { apply Qpower_2_lt_inv. now apply (Qle_lt_trans _ (Qabs y)). }
  lia.
Qed.

Lemma Qpower_2_plus (a b : Z) : 2 ^ (a + b) == 2 ^ a * 2 ^ b.
Proof. apply Qpower_plus. discriminate. Qed.

Lemma Qpower_2_inject (p : Z) : (0 <= p)%Z -> 2 ^ p == inject_Z (2 ^ p).
Proof. intros H. now rewrite (Zpower_Qpower 2 p H). Qed.

(** A number [m * 2^e] with a significand below [2^53] is left as it is. *)
Lemma B64_round_exact (m e : Z) :
  (0 < m < 2 ^ 53)%Z -> (B64.emin <= e)%Z ->
  B64.round (Qred (inject_Z m * 2 ^ e)) = Qred (inject_Z m * 2 ^ e).
Proof.
  intros [Hm0 Hm] He.
  set (y := Qred (inject_Z m * 2 ^ e)).
  assert (Ey : y == inject_Z m * 2 ^ e) by apply Qred_correct.
  pose proof (Qpower_2_pos e) as Pe.
  assert (Hm0' : 0 < inject_Z m)
    by (change 0 with (inject_Z 0); rewrite <- Zlt_Qlt; lia).
  assert (Hm' : inject_Z m < 2 ^ 53).
  { change (2 ^ 53) with (inject_Z (2 ^ 53)). now rewrite <- Zlt_Qlt. }
  assert (Ypos : 0 < y).
  { rewrite Ey. apply Qmult_lt_0_compat; assumption. }
  assert (Yabs : Qabs y = y) by (apply Qabs_pos_eq; lra).
  assert (Ynz : ~ y == 0) by lra.
  unfold B64.round.
  destruct (Qeq_bool y 0) eqn:Ez;
    [apply Qeq_bool_iff in Ez; contradiction|].
  assert (Hle : Qle_bool 0 y = true) by (apply Qle_bool_iff; lra).
  rewrite Hle, Yabs. cbv zeta.
  set (e' := B64.ulp_exponent y).
  assert (He' : (e' <= e)%Z).
  { unfold e', B64.ulp_exponent.
    assert (Hb : (B64.binade y < e + 53)%Z).
    { apply Qpower_2_lt_inv.
      apply (Qle_lt_trans _ (Qabs y)); [now apply B64_binade_le|].
      rewrite Yabs, Ey, (Z.add_comm e 53), Qpower_2_plus.
      apply Qmult_lt_compat_r; assumption. }
    lia. }
  clearbody e'.
  pose proof (Qpower_2_pos e') as Pe'.
  assert (Ee : 2 ^ e == inject_Z (2 ^ (e - e')) * 2 ^ e').
  { rewrite <- Qpower_2_inject by lia. rewrite <- Qpower_2_plus.
    now replace (e - e' + e')%Z with e by lia. }
  assert (Hk : y / 2 ^ e' == inject_Z (m * 2 ^ (e - e'))).
  { rewrite Ey, Ee, inject_Z_mult. field. lra. }
  rewrite (B64_nearest_even_integer _ _ Hk).
  apply Qred_complete. rewrite Ee, inject_Z_mult. ring.
Qed.

Lemma Qabs_opp_eq (x : Q) : Qabs (- x) = Qabs x.
Proof. destruct x as [n d]. unfold Qabs, Qopp. cbn. now rewrite Z.abs_opp. Qed.

Lemma Qopp_opp_eq (x : Q) : - - x = x.
Proof. destruct x as [n d]. unfold Qopp. cbn. now rewrite Z.opp_involutive. Qed.

Lemma B64_binade_opp (x : Q) : B64.binade (- x) = B64.binade x.
Proof.
  unfold B64.binade. rewrite Qabs_opp_eq.
  destruct x as [n d]. cbn [Qopp Qnum Qden]. now rewrite Z.abs_opp.
Qed.

Lemma B64_round_opp (x : Q) : B64.round (- x) = - B64.round x.
Proof.
  unfold B64.round, B64.ulp_exponent.
  rewrite B64_binade_opp, Qabs_opp_eq.
  destruct (Qeq_bool x 0) eqn:E0.
  - apply Qeq_bool_iff in E0.
    assert (E1 : Qeq_bool (- x) 0 = true) by (apply Qeq_bool_iff; lra).
    now rewrite E1.
  - assert (E1 : Qeq_bool (- x) 0 = false).
    { destruct (Qeq_bool (- x) 0) eqn:E1; [|reflexivity].
      apply Qeq_bool_iff in E1.
      assert (E2 : Qeq_bool x 0 = true) by (apply Qeq_bool_iff; lra).
      congruence. }
    rewrite E1. cbv zeta.
    assert (Hx : ~ x == 0).
    { intros H. apply Qeq_bool_iff in H. congruence. }
    destruct (Qle_bool 0 x) eqn:Es.
    + apply Qle_bool_iff in Es.
      destruct (Qle_bool 0 (- x)) eqn:Es'; [|reflexivity].
      apply Qle_bool_iff in Es'. exfalso. apply Hx. lra.
    + destruct (Qle_bool 0 (- x)) eqn:Es'.
      * now rewrite Qopp_opp_eq.
      * exfalso.
        assert (H1 : ~ 0 <= x)
          by (intros H; apply Qle_bool_iff in H; congruence).
        assert (H2 : ~ 0 <= - x)
          by (intros H; apply Qle_bool_iff in H; congruence).
        lra.
Qed.

Lemma B64_nearest_even_le (y : Q) (k : Z) :
  y < inject_Z k -> (B64.nearest_even y <= k)%Z.
Proof.
  intros H. unfold B64.nearest_even. cbv zeta.
  assert (Hf : (Qfloor y < k)%Z).
  { rewrite Zlt_Qlt. apply (Qle_lt_trans _ y); [apply Qfloor_le | exact H]. }
  destruct (Qcompare _ _); [destruct (Z.even _)| |]; lia.
Qed.

(** The result of [B64.round] on a positive number: a significand of at most
    53 bits at an exponent that is not below the least one. *)
Lemma B64_round_pos_shape (x : Q) :
  0 < x ->
  exists m e : Z,
    (0 <= m <= 2 ^ 53)%Z /\ (B64.emin <= e)%Z /\
    B64.round x = Qred (inject_Z m * 2 ^ e).
Proof.
  intros Hx.
  assert (Hnz : ~ x == 0) by lra.
  assert (Habs : Qabs x = x) by (apply Qabs_pos_eq; lra).
  exists (B64.nearest_even (x / 2 ^ B64.ulp_exponent x)),
    (B64.ulp_exponent x).
  pose proof (Qpower_2_pos (B64.ulp_exponent x)) as Pe.
  split; [split|split].
  - apply B64_nearest_even_nonneg.
    apply Qle_shift_div_l; [exact Pe|]. lra.
  - apply B64_nearest_even_le. change (inject_Z (2 ^ 53)) with (2 ^ 53).
    apply Qlt_shift_div_r; [exact Pe|].
    pose proof (B64_binade_lt x Hnz) as U. rewrite Habs in U.
    apply (Qlt_le_trans _ _ _ U).
    rewrite <- Qpower_2_plus.
    apply Qpower_le_compat_l; [|discriminate].
    unfold B64.ulp_exponent. lia.
  - unfold B64.ulp_exponent. lia.
  - unfold B64.round.
    destruct (Qeq_bool x 0) eqn:Ez;
      [apply Qeq_bool_iff in Ez; contradiction|].
    assert (Hle : Qle_bool 0 x = true) by (apply Qle_bool_iff; lra).
    now rewrite Hle, Habs.
Qed.

Lemma B64_round_idempotent_pos (x : Q) :
  0 < x -> B64.round (B64.round x) = B64.round x.
Proof.
  intros Hx.
  destruct (B64_round_pos_shape x Hx) as (m & e & [Hm0 Hm] & He & ->).
  destruct (Z.eq_dec m 0%Z) as [-> | Hne].
  - assert (E : Qred (inject_Z 0 * 2 ^ e) = 0).
    { transitivity (Qred 0); [|reflexivity]. apply Qred_complete. ring. }
    now rewrite E.
  - destruct (Z.eq_dec m (2 ^ 53)%Z) as [-> | Hne'].
    + assert (E : Qred (inject_Z (2 ^ 53) * 2 ^ e) =
                  Qred (inject_Z (2 ^ 52) * 2 ^ (e + 1))).
      { apply Qred_complete. rewrite Qpower_2_plus.
        change (inject_Z (2 ^ 53)) with (inject_Z (2 ^ 52) * 2 ^ 1). ring. }
      rewrite E. apply B64_round_exact; lia.
    + apply B64_round_exact; lia.
Qed.

(** A number that [B64.round] returns is a binary64 value: rounding it again
    changes nothing. *)
Lemma B64_round_idempotent (x : Q) :
  B64.round (B64.round x) = B64.round x.
Proof.
  destruct (Qlt_le_dec 0 x) as [Hpos | Hle].
  - now apply B64_round_idempotent_pos.
  - destruct (Qeq_dec x 0) as [E | E].
    + now rewrite (B64_round_zero x E).
    + assert (Hneg : 0 < - x) by lra.
      set (z := - x) in *.
      replace x with (- z) by apply Qopp_opp_eq.
      rewrite !B64_round_opp.
      now rewrite (B64_round_idempotent_pos z Hneg).
Qed.

Lemma B64_binade_comp (x y : Q) :
  x == y -> ~ x == 0 -> B64.binade y = B64.binade x.
Proof.
  intros E Hx. apply B64_binade_unique; rewrite <- E.
  - now apply B64_binade_le.
  - now apply B64_binade_lt.
Qed.

Lemma B64_nearest_even_comp (x y : Q) :
  x == y -> B64.nearest_even x = B64.nearest_even y.
Proof.
  intros E. unfold B64.nearest_even. cbv zeta.
  rewrite (Qfloor_comp _ _ E).
  assert (C : Qcompare (x - inject_Z (Qfloor y)) (1 # 2) =
              Qcompare (y - inject_Z (Qfloor y)) (1 # 2))
    by now rewrite E.
  now rewrite C.
Qed.

(** [B64.round] depends on the value of its argument only, not on the
    fraction that writes it. *)
Lemma B64_round_comp (x y : Q) : x == y -> B64.round x = B64.round y.
Proof.
  intros E. unfold B64.round.
  assert (E0 : Qeq_bool x 0 = Qeq_bool y 0).
  { destruct (Qeq_bool x 0) eqn:A, (Qeq_bool y 0) eqn:B; try reflexivity.
    - apply Qeq_bool_iff in A. rewrite E in A. apply Qeq_bool_iff in A.
      congruence.
    - apply Qeq_bool_iff in B. rewrite <- E in B. apply Qeq_bool_iff in B.
      congruence. }
  rewrite <- E0. destruct (Qeq_bool x 0) eqn:A; [reflexivity|].
  assert (Hx : ~ x == 0) by (intros H; apply Qeq_bool_iff in H; congruence).
  cbv zeta. unfold B64.ulp_exponent.
  rewrite (B64_binade_comp x y E Hx).
  set (e := Z.max B64.emin (B64.binade x - 52)).
  assert (Em : B64.nearest_even (Qabs x / 2 ^ e) =
               B64.nearest_even (Qabs y / 2 ^ e))
    by (apply B64_nearest_even_comp; now rewrite E).
  rewrite <- Em.
  assert (Es : Qle_bool 0 x = Qle_bool 0 y).
  { destruct (Qle_bool 0 x) eqn:A1, (Qle_bool 0 y) eqn:B1; try reflexivity.
    - apply Qle_bool_iff in A1. rewrite E in A1. apply Qle_bool_iff in A1.
      congruence.
    - apply Qle_bool_iff in B1. rewrite <- E in B1. apply Qle_bool_iff in B1.
      congruence. }
  now rewrite Es.
Qed.

(** ** The numbers read from fee names *)

Lemma take_digits_split (s : list ascii) :
  exists after,
    s = Transformer.take_digits s ++ after /\
    forallb Str.is_digit (Transformer.take_digits s) = true.
Proof.
  induction s as [|c s (after & IH1 & IH2)]; [now exists []|].
  cbn [Transformer.take_digits]. destruct (Str.is_digit c) eqn:E.
  - exists after. cbn [app forallb]. rewrite E, IH2. split; [|reflexivity].
    now rewrite <- IH1.
  - now exists (c :: s).
Qed.

Lemma take_digits_run (ds u : list ascii) :
  forallb Str.is_digit ds = true ->
  match u with c :: _ => Str.is_digit c = false | [] => True end ->
  Transformer.take_digits (ds ++ u) = ds.
Proof.
  intros Hds Hu. induction ds as [|d ds IH]; cbn [app].
  - destruct u as [|c u]; [reflexivity|]. cbn [Transformer.take_digits].
    now rewrite Hu.
  - cbn [forallb] in Hds. apply andb_true_iff in Hds as [Hd Hds].
    cbn [Transformer.take_digits]. rewrite Hd. f_equal. now apply IH.
Qed.

Lemma Re_longest_digits_first (rest : Re.t) (c : ascii) (s : list ascii) :
  Str.is_digit c = false ->
  Re.longest (Re.Seq (Re.Plus Re.digit) rest) (c :: s) = None.
Proof.
  intros H. cbn [Re.longest Re.Plus Re.deriv Re.nullable andb Re.digit].
  rewrite H. cbn [Re.seq Re.alt]. now rewrite Re_longest_Void.
Qed.

(** A pattern [a b] that no digit starts and that does not match the empty
    string, after a run of digits. *)
Lemma Re_longest_digits_then (a b : Re.t) (ds u : list ascii) :
  (forall c, Str.is_digit c = true -> Re.deriv c (Re.Seq a b) = Re.Void) ->
  Re.nullable (Re.Seq a b) = false ->
  forallb Str.is_digit ds = true ->
  Re.longest (Re.Seq a b) u <> None ->
  Re.longest (Re.Seq (Re.Star Re.digit) (Re.Seq a b)) (ds ++ u) <> None /\
  match u with c :: _ => Str.is_digit c = false | [] => True end.
Proof.
  intros Hd Hn Hds Hu.
  assert (Hfirst : match u with
                   | c :: _ => Str.is_digit c = false
                   | [] => True
                   end).
  { destruct u as [|c u]; [exact I|].
    destruct (Str.is_digit c) eqn:E; [|reflexivity].
    exfalso. apply Hu. cbn [Re.longest]. rewrite (Hd c E), Re_longest_Void.
    now rewrite Hn. }
  split; [|exact Hfirst].
  induction ds as [|d ds IH]; cbn [app].
  - destruct u as [|c u].
    + cbn [Re.longest] in *. cbn [Re.nullable andb]. exact Hu.
    + intros H. apply Hu. revert H. cbn [Re.longest].
      assert (E : Re.deriv c (Re.Seq (Re.Star Re.digit) (Re.Seq a b)) =
                  Re.deriv c (Re.Seq a b)).
      { cbn [Re.deriv Re.nullable Re.digit]. rewrite Hfirst.
        cbn [Re.seq Re.alt]. now destruct (Re.alt _ _). }
      rewrite E. cbn [Re.nullable andb]. exact (fun H => H).
  - cbn [forallb] in Hds. apply andb_true_iff in Hds as [Hd' Hds].
    specialize (IH Hds). cbn [Re.longest].
    assert (E : Re.deriv d (Re.Seq (Re.Star Re.digit) (Re.Seq a b)) =
                Re.Seq (Re.Star Re.digit) (Re.Seq a b)).
    { pose proof (Hd d Hd') as E0.
      cbn [Re.deriv Re.nullable Re.digit] in *. rewrite Hd'. rewrite E0.
      reflexivity. }
    rewrite E.
    destruct (Re.longest _ (ds ++ u)); [discriminate|contradiction].
Qed.

Lemma leading_number_found (a b : Re.t) (before ds u : list ascii) :
  (forall c, Str.is_digit c = true -> Re.deriv c (Re.Seq a b) = Re.Void) ->
  Re.nullable (Re.Seq a b) = false ->
  forallb (fun c => negb (Str.is_digit c)) before = true ->
  ds <> [] -> forallb Str.is_digit ds = true ->
  Re.longest (Re.Seq a b) u <> None ->
  Transformer.leading_number (Re.Seq a b) (before ++ ds ++ u) =
  Some (Transformer.parseInt ds).
Proof.
  intros Hd Hn Hb Hne Hds Hu.
  induction before as [|c before IH]; cbn [app].
  - destruct ds as [|d ds]; [contradiction|].
    destruct (Re_longest_digits_then a b (d :: ds) u Hd Hn Hds Hu)
      as [_ Hfirst].
    rewrite <- (take_digits_run (d :: ds) u Hds Hfirst) at 2.
    cbn [app Transformer.leading_number].
    cbn [forallb] in Hds. apply andb_true_iff in Hds as [Hd' Hds].
    destruct (Re_longest_digits_then a b ds u Hd Hn Hds Hu) as [Hl _].
    assert (E : Re.longest (Re.Seq (Re.Plus Re.digit) (Re.Seq a b))
                  (d :: ds ++ u) <> None).
    { cbn [Re.longest].
      assert (E : Re.deriv d (Re.Seq (Re.Plus Re.digit) (Re.Seq a b)) =
                  Re.Seq (Re.Star Re.digit) (Re.Seq a b)).
      { cbn [Re.Plus Re.deriv Re.nullable Re.digit andb]. rewrite Hd'.
        reflexivity. }
      rewrite E. destruct (Re.longest _ (ds ++ u)); [discriminate|].
      contradiction. }
    destruct (Re.longest _ (d :: ds ++ u)); [reflexivity|contradiction].
  - cbn [forallb] in Hb. apply andb_true_iff in Hb as [Hc Hb].
    apply negb_true_iff in Hc. cbn [Transformer.leading_number].
    rewrite (Re_longest_digits_first _ c _ Hc). now apply IH.
Qed.

Lemma digit_starts_no_unit (c : ascii) :
  Str.is_digit c = true ->
  Re.deriv c Transformer.re_per_diem_unit = Re.Void /\
  Re.deriv c Transformer.re_month_unit = Re.Void.
Proof.
  destruct c as [[] [] [] [] [] [] [] []]; intros H;
    try discriminate H; split; reflexivity.
Qed.

Lemma leading_number_run (rest : Re.t) (s : list ascii) :
  forall v,
    Transformer.leading_number rest s = Some v ->
    exists n, digit_run_value s n v.
Proof.
  induction s as [|c s IH]; intros v; [discriminate|].
  cbn [Transformer.leading_number].
  destruct (Re.longest _ (c :: s)) as [n|] eqn:E.
  - intros [= <-].
    destruct (take_digits_split (c :: s)) as (after & H1 & H2).
    exists (Transformer.parse_digits (Transformer.take_digits (c :: s))),
      [], (Transformer.take_digits (c :: s)), after.
    split; [exact H1|].
    split; [|split; [exact H2 | split; reflexivity]].
    cbn [Transformer.take_digits].
    destruct (Str.is_digit c) eqn:Ed; [discriminate|].
    now rewrite (Re_longest_digits_first rest c s Ed) in E.
  - intros H.
    destruct (IH v H) as (n & before & ds & after & -> & H2 & H3 & H4).
    now exists n, (c :: before), ds, after.
Qed.

Lemma leading_number_no_digit (rest : Re.t) (s : list ascii) :
  forallb (fun c => negb (Str.is_digit c)) s = true ->
  Transformer.leading_number rest s = None.
Proof.
  induction s as [|c s IH]; [reflexivity|].
  cbn [forallb]. intros H. apply andb_true_iff in H as [Hc Hs].
  apply negb_true_iff in Hc. cbn [Transformer.leading_number].
  now rewrite (Re_longest_digits_first rest c s Hc), (IH Hs).
Qed.

Lemma parse_digits_nonneg (ds : list ascii) :
  (0 <= Transformer.parse_digits ds)%Z.
Proof.
  unfold Transformer.parse_digits.
  assert (H : forall acc, (0 <= acc)%Z ->
            (0 <= fold_left
                    (fun acc d => (10 * acc + Z.of_nat (Str.code d - 48))%Z)
                    ds acc)%Z).
  { induction ds as [|d ds IH]; intros acc Hacc; [exact Hacc|].
    cbn [fold_left]. apply IH. lia. }
  apply H. lia.
Qed.

(** A whole number below [2^53] is a binary64 value. *)
Lemma B64_round_integer (n : Z) :
  (0 <= n < 2 ^ 53)%Z -> B64.round (inject_Z n) = inject_Z n.
Proof.
  intros [H0 H53].
  destruct (Z.eq_dec n 0%Z) as [-> | Hn]; [reflexivity|].
  assert (Hpos : 0 < inject_Z n).
  { change 0 with (inject_Z 0). rewrite <- Zlt_Qlt. lia. }
  assert (Hnz : ~ inject_Z n == 0).
  { intros E. rewrite E in Hpos. discriminate. }
  unfold B64.round.
  destruct (Qeq_bool (inject_Z n) 0) eqn:Ez;
    [apply Qeq_bool_iff in Ez; contradiction|].
  assert (Hle : Qle_bool 0 (inject_Z n) = true)
    by (apply Qle_bool_iff; now apply Qlt_le_weak).
  rewrite Hle. cbv zeta.
  rewrite (Qabs_pos_eq (inject_Z n)) by now apply Qlt_le_weak.
  set (e := B64.ulp_exponent (inject_Z n)).
  assert (He : (e <= 0)%Z).
  { unfold e, B64.ulp_exponent, B64.emin.
    assert (Hb : (B64.binade (inject_Z n) <= 52)%Z).
    { pose proof (B64_binade_le (inject_Z n) Hnz) as Hb.
      rewrite (Qabs_pos_eq (inject_Z n)) in Hb by now apply Qlt_le_weak.
      destruct (Z_le_gt_dec (B64.binade (inject_Z n)) 52) as [H|H];
        [exact H|].
      exfalso.
      assert (H2 : 2 ^ 53 <= 2 ^ B64.binade (inject_Z n))
        by (apply Qpower_le_compat_l; [lia | discriminate]).
      assert (H3 : inject_Z n < 2 ^ 53).
      { change (2 ^ 53) with (inject_Z (2 ^ 53)). rewrite <- Zlt_Qlt.
        exact H53. }
      apply (Qlt_irrefl (inject_Z n)).
      apply (Qlt_le_trans _ (2 ^ 53)); [exact H3|].
      now apply (Qle_trans _ (2 ^ B64.binade (inject_Z n))). }
    lia. }
  clearbody e.
  assert (Hp : 2 ^ e * inject_Z (2 ^ (- e)) == 1).
  { replace e with (- - e)%Z at 1 by lia.
    rewrite Qpower_opp.
    assert (E2 : inject_Z (2 ^ (- e)) == 2 ^ (- e)).
    { rewrite <- (Zpower_Qpower 2 (- e)) by lia. reflexivity. }
    rewrite E2. rewrite Qmult_comm. apply Qmult_inv_r.
    intros E0. pose proof (Qpower_2_pos (- e)) as P. rewrite E0 in P.
    discriminate. }
  assert (Hy : inject_Z n / 2 ^ e == inject_Z (n * 2 ^ (- e))).
  { rewrite inject_Z_mult. 
    pose proof (Qpower_2_pos e) as P.
    apply (Qmult_inj_r _ _ (2 ^ e));
      [intros E0; rewrite E0 in P; discriminate|].
    rewrite <- Qmult_assoc, (Qmult_comm (inject_Z (2 ^ (- e)))), Hp.
    field. intros E0; rewrite E0 in P; discriminate. }
  rewrite (B64_nearest_even_integer _ _ Hy).
  assert (Hv : inject_Z (n * 2 ^ (- e)) * 2 ^ e == inject_Z n).
  { rewrite inject_Z_mult, <- Qmult_assoc.
    rewrite (Qmult_comm (inject_Z (2 ^ (- e)))), Hp.
    ring. }
  rewrite (Qred_complete _ _ Hv).
  apply Qcanon.Qred_identity. cbn. apply Z.gcd_1_r.
Qed.

(** X21.  The day count [extractPerDiem] and the month count
    [extractEscrowMonths] read from a fee name.  A count that is returned is
    [parseInt] of a non-empty run of digits of the name: the number nearest
    to the integer that the run writes, which is not negative and is that
    integer when it is below [2^53].  A name without a digit gives no count.
    A name whose first digits are followed by the unit (blanks, then "day",
    "per diem" or "month" in any case) gives the count of those digits. *)
Theorem X21_counts_read_from_names :
  forall (feeName : string),
    (forall v,
       Transformer.extractPerDiem feeName = Some v \/
       Transformer.extractEscrowMonths feeName = Some v ->
       exists n,
         digit_run_value (Str.chars feeName) n v /\ 0 <= v /\
         ((n < 2 ^ 53)%Z -> v = inject_Z n)) /\
    (forallb (fun c => negb (Str.is_digit c)) (Str.chars feeName) = true ->
     Transformer.extractPerDiem feeName = None /\
     Transformer.extractEscrowMonths feeName = None) /\
    (forall before ds after,
       Str.chars feeName = before ++ ds ++ after ->
       forallb (fun c => negb (Str.is_digit c)) before = true ->
       ds <> [] -> forallb Str.is_digit ds = true ->
       (Re.longest Transformer.re_per_diem_unit after <> None ->
        Transformer.extractPerDiem feeName =
        Some (Transformer.parseInt ds)) /\
       (Re.longest Transformer.re_month_unit after <> None ->
        Transformer.extractEscrowMonths feeName =
        Some (Transformer.parseInt ds))).
Proof.
  intros feeName. split; [|split].
  - intros v Hv.
    assert (Hrun : exists n, digit_run_value (Str.chars feeName) n v)
      by (destruct Hv as [Hv | Hv]; exact (leading_number_run _ _ _ Hv)).
    destruct Hrun as (n & Hrun). exists n. split; [exact Hrun|].
    destruct Hrun as (_ & ds & _ & _ & _ & _ & -> & ->).
    pose proof (parse_digits_nonneg ds) as Hn.
    split.
    + apply B64_round_nonneg. change 0 with (inject_Z 0).
      now rewrite <- Zle_Qle.
    + intros Hlt. apply B64_round_integer. now split.
  - intros H. split; now apply leading_number_no_digit.
  - intros before ds after Hs Hb Hne Hds.
    unfold Transformer.extractPerDiem, Transformer.extractEscrowMonths.
    rewrite Hs.
    split; intros Hu;
      (apply leading_number_found;
       [intros c Hc; now apply digit_starts_no_unit
       |reflexivity|exact Hb|exact Hne|exact Hds|exact Hu]).
Qed.

(** X21 on three names: fifteen days, three months, and a run of twenty
    digits, which is read as the number [10^20]. *)
Example counts_read_from_names_example :
  Transformer.extractPerDiem "Prepaid Interest (15 days @ $41.10)" =
    Some 15 /\
  Transformer.extractEscrowMonths "Homeowner's Insurance 3 Months" =
    Some 3 /\
  Transformer.extractEscrowMonths "Prepaid Interest (15 days)" = None /\
  Transformer.extractPerDiem "Interest 99999999999999999999 days" =
    Some (inject_Z (10 ^ 20)).
Proof. vm_compute. repeat split. Qed.
